(** * StegoShield service: a shallow embedding of [main.py]

    The development follows [Resources/stegoshield_service/main.py].
    Conventions of the embedding:

    - a Python [str] is a [string] whose characters stand for code points
      below 256; [bytes] are lists of [N] below 256;
    - Python [float] scores of the decision policy are exact rationals ([Q]),
      and so are the [float32] operations of the blockiness score; the two
      entropies, which need a logarithm, are stated over [R], and the
      single-bin case of the global entropy is cross-checked in binary64;
    - exceptions are values of [exn], fallible code returns [result];
    - what the service imports (OpenCV's block transform, the PNG codec,
      PIL's EXIF tag table, the OCR engine) is a parameter of the model. *)

From Corelib Require PrimFloat.
From Stdlib Require Import ZArith NArith QArith Qabs Reals Lra Lqa Lia ZifyNat List String Ascii.
From stdpp Require Import base option list gmap strings pretty.

Set Default Proof Using "Type".

Local Open Scope string_scope.
Local Open Scope list_scope.

(** ** Exceptions and results *)

Inductive exn : Type :=
| ValueError (msg : string)
| Exception (msg : string).

(** [str(e)] *)
Definition str_of_exn (e : exn) : string :=
  match e with ValueError m => m | Exception m => m end.

Inductive result (A : Type) : Type :=
| Ok (a : A)
| Raise (e : exn).
Arguments Ok {A} a.
Arguments Raise {A} e.

Definition is_ok {A} (r : result A) : bool :=
  match r with Ok _ => true | Raise _ => false end.

(** ** Python string helpers *)

Module Py.

Definition code (c : ascii) : N := N_of_ascii c.

(** [str.lower] on code points below 256: [A-Z] and the upper-case
    Latin-1 letters (all of 0xC0-0xDE but the multiplication sign). *)
Definition lower_char (c : ascii) : ascii :=
  let n := code c in
  if ((65 <=? n) && (n <=? 90))%N then ascii_of_N (n + 32)
  else if ((192 <=? n) && (n <=? 222) && negb (n =? 215))%N then ascii_of_N (n + 32)
  else c.

Fixpoint lower (s : string) : string :=
  match s with
  | EmptyString => EmptyString
  | String c s' => String (lower_char c) (lower s')
  end.

(** [k in t] on strings: [k] occurs as a contiguous substring of [t]. *)
Fixpoint contains (k t : string) : bool :=
  String.prefix k t ||
  match t with
  | EmptyString => false
  | String _ t' => contains k t'
  end.

(** [x in xs] for a list of strings *)
Definition str_in (x : string) (xs : list string) : bool :=
  existsb (String.eqb x) xs.

(** whitespace removed by [str.strip()] (code points below 256) *)
Definition is_space (c : ascii) : bool :=
  let n := code c in
  (((9 <=? n) && (n <=? 13)) || ((28 <=? n) && (n <=? 32))
   || (n =? 133) || (n =? 160))%N.

Fixpoint lstrip (s : string) : string :=
  match s with
  | EmptyString => EmptyString
  | String c s' => if is_space c then lstrip s' else s
  end.

Fixpoint rstrip (s : string) : string :=
  match s with
  | EmptyString => EmptyString
  | String c s' =>
      match rstrip s' with
      | EmptyString => if is_space c then EmptyString else String c EmptyString
      | r => String c r
      end
  end.

Definition strip (s : string) : string := rstrip (lstrip s).

(** truthiness of a [str] *)
Definition nonempty (s : string) : bool :=
  match s with EmptyString => false | _ => true end.

(** [s.encode('utf-8')] for code points below 256 *)
Definition utf8_char (c : ascii) : list N :=
  let n := code c in
  if (n <? 128)%N then [n]
  else [(192 + n / 64)%N; (128 + n mod 64)%N].

Fixpoint encode_utf8 (s : string) : list N :=
  match s with
  | EmptyString => []
  | String c s' => utf8_char c ++ encode_utf8 s'
  end.

(** [format(b, '08b')]: the eight bits of a byte, most significant first *)
Definition format_08b (b : N) : list bool :=
  map (N.testbit b) [7; 6; 5; 4; 3; 2; 1; 0]%N.

(** decimal rendering of an [int] inside an f-string *)
Definition str_of_int (z : Z) : string := pretty z.

End Py.

(** ** [base64.b64encode] *)

Module Base64.

Definition alphabet : string :=
  "ABCDEFGHIJKLMNOPQRSTUVWXYZabcdefghijklmnopqrstuvwxyz0123456789+/".

Definition digit (n : N) : ascii :=
  match String.get (N.to_nat n) alphabet with
  | Some c => c
  | None => "="%char
  end.

Fixpoint b64encode (bs : list N) : string :=
  match bs with
  | [] => EmptyString
  | [a] =>
      String (digit (a / 4)) (String (digit ((a mod 4) * 16))
        (String "=" (String "=" EmptyString)))
  | [a; b] =>
      String (digit (a / 4)) (String (digit ((a mod 4) * 16 + b / 16))
        (String (digit ((b mod 16) * 4)) (String "=" EmptyString)))
  | a :: b :: c :: rest =>
      String (digit (a / 4)) (String (digit ((a mod 4) * 16 + b / 16))
        (String (digit ((b mod 16) * 4 + c / 64)) (String (digit (c mod 64))
          (b64encode rest))))
  end%N.

End Base64.

(** ** Statistical analyzer: [shannon_entropy]

    The floating-point operations of NumPy are read as the exact operations
    on real numbers; [1e-12] is the rational 1/10^12. *)

Module Stats.

Local Open Scope R_scope.

Definition eps : R := / 10 ^ 12.

Definition log2 (x : R) : R := ln x / ln 2.

Definition Rsum (l : list R) : R := fold_right Rplus 0 l.

(** [x > 0] as a boolean mask *)
Definition Rpositive (x : R) : bool := if Rlt_dec 0 x then true else false.

(** [arr.flatten()] of a two-dimensional [uint8] plane *)
Definition flatten (arr : list (list Byte.byte)) : list Byte.byte := concat arr.

(** [np.bincount(a, minlength=256)] for [uint8] samples: bin [k] counts the
    samples of value [k], for [k] from 0 to 255. *)
Definition bincount (a : list Byte.byte) : list nat :=
  map (fun k => length (List.filter (fun b => Nat.eqb (Byte.to_nat b) k) a)) (seq 0 256).

(** the body of [shannon_entropy] from the histogram on *)
Definition entropy_of_hist (hist : list nat) : R :=
  let histf := map INR hist in
  let total := Rsum histf + eps in
  let probs := map (fun c => c / total) histf in
  let probs := List.filter Rpositive probs in
  - Rsum (map (fun p => p * log2 (p + eps)) probs).

Definition shannon_entropy (arr : list (list Byte.byte)) : R :=
  entropy_of_hist (bincount (flatten arr)).

(** the probabilities computed from a histogram *)
Definition probs_of (hist : list nat) : list R :=
  map (fun c => c / (Rsum (map INR hist) + eps)) (map INR hist).

(** the sum of [shannon_entropy], in nats *)
Definition entropy_nats (probs : list R) : R :=
  Rsum (map (fun p => p * ln (p + eps)) (List.filter Rpositive probs)).

End Stats.

(** ** The single-bin case of [shannon_entropy] in binary64

    For a constant plane of [n] samples one bin holds all of them.  These
    are the two floating-point values the function computes for that bin,
    with the IEEE 754 binary64 operations of the language: the probability
    [n / (n + 1e-12)] and the argument of [np.log2]. *)

Module Binary64.

Import PrimFloat.

(** the double nearest to [1e-12] *)
Definition eps : float := 0x1.19799812dea11p-40%float.

Definition single_bin_prob (n : float) : float := (n / (n + eps))%float.

Definition log2_argument (n : float) : float := (single_bin_prob n + eps)%float.

End Binary64.

(** ** Metadata suspicion scanner: [metadata_flags] *)

Module Metadata.

Definition METADATA_SUSPICION_KEYS : list string :=
  ["comment"; "UserComment"; "XPComment"; "ImageDescription"].

(** values found in EXIF tables and in [img.info] *)
Inductive value : Type :=
| VStr (s : string)
| VBytes (b : list N)
| VInt (z : Z)
| VOther.

(** [ExifTags.TAGS.get(tag_id, tag_id)]: the tag's name, or the numeric
    identifier itself when the table does not know it. *)
Inductive tag : Type :=
| TagName (s : string)
| TagId (z : Z).

Definition resolve (TAGS : Z -> option string) (tag_id : Z) : tag :=
  match TAGS tag_id with
  | Some name => TagName name
  | None => TagId tag_id
  end.

(** [tag in METADATA_SUSPICION_KEYS] *)
Definition watched (t : tag) : bool :=
  match t with
  | TagName s => Py.str_in s METADATA_SUSPICION_KEYS
  | TagId _ => false
  end.

(** [f"{tag}"] *)
Definition fmt (t : tag) : string :=
  match t with
  | TagName s => s
  | TagId z => Py.str_of_int z
  end.

Definition is_bytes (v : value) : bool :=
  match v with VBytes _ => true | _ => false end.

(** [isinstance(value, str) and len(value) > 512] *)
Definition is_long_str (v : value) : bool :=
  match v with VStr s => Nat.ltb 512 (String.length s) | _ => false end.

(** one iteration of the loop over [exif.items()] *)
Definition exif_entry_flags (t : tag) (v : value) : list string :=
  (if watched t then ["meta_field:" +:+ fmt t] else []) ++
  (if is_bytes v then ["meta_raw_bytes:" +:+ fmt t] else []) ++
  (if is_long_str v then ["meta_long:" +:+ fmt t] else []).

(** one iteration of the loop over [info.items()] *)
Definition info_entry_flags (k : string) (v : value) : list string :=
  if Py.str_in (Py.lower k) METADATA_SUSPICION_KEYS || is_long_str v
  then ["png_info:" +:+ k] else [].

(** [flags], in append order, before [list(set(flags))].
    [exif] is [None] when [img.getexif()] raises (the first [try] then
    contributes nothing); an empty table is falsy and skipped as well. *)
Definition flag_list (TAGS : Z -> option string)
    (exif : option (list (Z * value))) (info : list (string * value))
  : list string :=
  (match exif with
   | Some entries =>
       flat_map (fun e => exif_entry_flags (resolve TAGS (fst e)) (snd e)) entries
   | None => []
   end) ++
  flat_map (fun e => info_entry_flags (fst e) (snd e)) info.

(** [list(set(flags))]: the elements of the set, in an order the language
    does not fix. *)
Definition metadata_flags (TAGS : Z -> option string)
    (exif : option (list (Z * value))) (info : list (string * value))
  : list string :=
  elements (list_to_set (flag_list TAGS exif info) : gset string).

End Metadata.

(** ** Text and keyword extractor: [ocr_with_boxes] *)

Module Ocr.

Definition SUSPICIOUS_KEYWORDS : list string :=
  ["ignore"; "download"; "secret"; "password"; "execute"; "run"; "open";
   "leak"; "exfiltrate"].

(** [any(k in txt.lower() for k in SUSPICIOUS_KEYWORDS)] *)
Definition suspicious (txt : string) : bool :=
  existsb (fun k => Py.contains k (Py.lower txt)) SUSPICIOUS_KEYWORDS.

(** one row of [pytesseract.image_to_data]: text, left, top, width, height *)
Record region : Type := { r_text : string; r_left : Z; r_top : Z; r_width : Z; r_height : Z }.

Definition box : Type := (Z * Z * Z * Z * string)%type.

Definition box_text (b : box) : string := snd b.

Fixpoint ocr_with_boxes (data : list region)
  : list string * list box * list box :=
  match data with
  | [] => ([], [], [])
  | r :: rest =>
      let '(texts, boxes, susp) := ocr_with_boxes rest in
      let txt := Py.strip (r_text r) in
      if Py.nonempty txt then
        let b := (r_left r, r_top r, r_width r, r_height r, txt) in
        (txt :: texts, b :: boxes, if suspicious txt then b :: susp else susp)
      else (texts, boxes, susp)
  end.

End Ocr.

(** ** Resample-discrepancy detector: [rdr_inconsistency_score] *)

Module Rdr.

Local Open Scope Q_scope.

(** What one pass of the loop body observes: [_random_resample] raised, or
    returned the stripped text recognised on the resampled image. *)
Inductive trial : Type :=
| Raised
| Returned (t : string).

(** the [for] loop: texts that are non-empty, in trial order *)
Fixpoint collect (outcomes : list trial) : list string :=
  match outcomes with
  | [] => []
  | Raised :: rest => collect rest
  | Returned t :: rest =>
      if Py.nonempty t then t :: collect rest else collect rest
  end.

Definition Qltb (x y : Q) : bool := negb (Qle_bool y x).

Definition rdr_inconsistency_score (outcomes : list trial) : Q * list string :=
  let texts := collect outcomes in
  match texts with
  | [] => (0, [])
  | _ =>
      let count_susp := length (List.filter Ocr.suspicious texts) in
      let frac := inject_Z (Z.of_nat count_susp)
                  / inject_Z (Z.of_nat (Nat.max 1 (length texts))) in
      let inconsistency :=
        if Nat.ltb 0 count_susp && Qltb frac 0.7 then 0.5 + 0.5 * (1 - frac)
        else if Nat.ltb 0 count_susp then 0.4 * frac
        else 0 in
      (inconsistency, List.filter Ocr.suspicious texts)
  end.

End Rdr.

(** ** Decision policy (the scoring part of [analyze]) *)

Module Policy.

Local Open Scope Q_scope.

Inductive decision : Type := ALLOW | SUSPICIOUS | BLOCK.

Definition decision_eqb (a b : decision) : bool :=
  match a, b with
  | ALLOW, ALLOW | SUSPICIOUS, SUSPICIOUS | BLOCK, BLOCK => true
  | _, _ => false
  end.

Definition decision_str (d : decision) : string :=
  match d with
  | ALLOW => "ALLOW"
  | SUSPICIOUS => "SUSPICIOUS"
  | BLOCK => "BLOCK"
  end.

(** the order ALLOW < SUSPICIOUS < BLOCK *)
Definition severity (d : decision) : nat :=
  match d with ALLOW => 0 | SUSPICIOUS => 1 | BLOCK => 2 end.

Definition SCORE_BLOCK : Q := 0.85.
Definition SCORE_QUARANTINE : Q := 0.55.

(** Python's two-argument [min] and [max]: the first argument is kept
    unless the second is strictly smaller (larger). *)
Definition py_min (a b : Q) : Q := if Rdr.Qltb b a then b else a.
Definition py_max (a b : Q) : Q := if Rdr.Qltb a b then b else a.

Definition raw_score (lsb_entropy global_entropy blockiness : Q)
    (flags : list string) : Q :=
  0.35 * lsb_entropy + 0.15 * (global_entropy / 8) + 0.25 * blockiness
  + (match flags with [] => 0 | _ => 0.6 end).

Definition stego_score (lsb_entropy global_entropy blockiness : Q)
    (flags : list string) : Q :=
  py_max 0 (py_min 1 (raw_score lsb_entropy global_entropy blockiness flags)).

Definition base_decision (score : Q) : decision :=
  if Qle_bool SCORE_BLOCK score then BLOCK
  else if Qle_bool SCORE_QUARANTINE score then SUSPICIOUS
  else ALLOW.

(** [if rdr_score >= 0.5: ...] *)
Definition escalate_rdr (rdr_score : Q) (d : decision) : decision :=
  if Qle_bool 0.5 rdr_score
  then (if decision_eqb d ALLOW then SUSPICIOUS else BLOCK)
  else d.

(** [if suspicious_boxes and decision != "BLOCK": ...] *)
Definition escalate_ocr (suspicious_boxes : list Ocr.box) (d : decision) : decision :=
  match suspicious_boxes with
  | [] => d
  | _ => if negb (decision_eqb d BLOCK) then SUSPICIOUS else d
  end.

Definition final_decision (score rdr_score : Q)
    (suspicious_boxes : list Ocr.box) : decision :=
  escalate_ocr suspicious_boxes (escalate_rdr rdr_score (base_decision score)).

End Policy.

(** ** Watermark embedder: [embed_watermark_dct_bytes] *)

Module Watermark.

Local Open Scope nat_scope.

(** The OpenCV and NumPy array operations the embedder calls.  [sample]
    is a [float32] array element. *)
Class Transform : Type := {
  sample : Type;
  zero : sample;
  (** [cv2.dct] and [cv2.idct] *)
  dct : list (list sample) -> list (list sample);
  idct : list (list sample) -> list (list sample);
  (** [int(np.round(x))] *)
  round_int : sample -> Z;
  (** storing a Python [int] into the array *)
  of_int : Z -> sample
}.

(** Decoding and encoding of the image container. *)
Class Codec {Tr : Transform} : Type := {
  (** [cv2.imdecode] followed by [cvtColor(.., COLOR_BGR2YCrCb)] and
      [astype(np.float32)]: rows of (Y, Cr, Cb) pixels, or [None] when
      [imdecode] returns [None] *)
  imdecode_ycrcb : list N -> option (list (list (sample * sample * sample)));
  (** [astype(np.uint8)], [cvtColor(.., COLOR_YCrCb2BGR)],
      [imencode('.png', ..)] and [tobytes()] *)
  imencode_png : list (list (sample * sample * sample)) -> list N
}.

(** a two-dimensional array of samples, and a (Y, Cr, Cb) pixel *)
Abbreviation plane := (list (list sample)).
Abbreviation pixel := (sample * sample * sample)%type.

Section Embed.
Context {Tr : Transform}.

Definition luma (p : pixel) : sample := fst (fst p).
Definition chroma (p : pixel) : sample * sample := (snd (fst p), snd p).

(** [a.shape] of a two-dimensional array *)
Definition shape {A} (a : list (list A)) : nat * nat :=
  (length a, match a with [] => 0 | r :: _ => length r end).

(** all rows have the width the shape announces *)
Definition rectangular {A} (a : list (list A)) : Prop :=
  Forall (fun r => length r = snd (shape a)) a.

(** [a[r, c]] *)
Definition get2 (a : plane) (r c : nat) : sample :=
  default zero (a !! r ≫= (.!! c)).

(** [a[r, c] = v] *)
Definition set2 (a : plane) (r c : nat) (v : sample) : plane :=
  alter (fun row => <[c := v]> row) r a.

(** [(8 - (n % 8)) % 8] *)
Definition pad_amount (n : nat) : nat := (8 - n mod 8) mod 8.

(** [np.pad(.., mode='reflect')] after the end of one axis of length
    [n]: padded position [n + k] repeats the entry at
    [reflect_index n k] (the edge entry when the axis has length 1). *)
Definition reflect_index (n k : nat) : nat :=
  if n <=? 1 then 0
  else let m := (n + k) mod (2 * (n - 1)) in
       if m <? n then m else 2 * (n - 1) - m.

Definition pad_reflect_after {A} (l : list A) (p : nat) : list A :=
  l ++ omap (fun k => l !! reflect_index (length l) k) (seq 0 p).

(** [np.pad(y, ((0, ph), (0, pw)), mode='reflect')] *)
Definition pad_reflect (y : plane) (ph pw : nat) : plane :=
  pad_reflect_after (map (fun row => pad_reflect_after row pw) y) ph.

(** [''.join(format(b, '08b') for b in msg_b64.encode('ascii'))] *)
Definition bits_of (msg_b64 : string) : list bool :=
  flat_map (fun c => Py.format_08b (Py.code c)) (list_ascii_of_string msg_b64).

(** [y_p[i*8:(i+1)*8, j*8:(j+1)*8]] *)
Definition get_block (y_p : plane) (i j : nat) : plane :=
  map (fun row => take 8 (drop (j * 8) row)) (take 8 (drop (i * 8) y_p)).

(** [y_p[i*8:(i+1)*8, j*8:(j+1)*8] = b] *)
Definition set_block (y_p : plane) (i j : nat) (b : plane) : plane :=
  imap (fun r row =>
    if (i * 8 <=? r) && (r <? (i + 1) * 8) then
      imap (fun c x =>
        if (j * 8 <=? c) && (c <? (j + 1) * 8)
        then default x (b !! (r - i * 8) ≫= (.!! (c - j * 8)))
        else x) row
    else row) y_p.

(** Loop state.  [written] is a ghost log, not a variable of the
    program: the coefficient [d[1, 0]] of each processed block as it is
    handed to [cv2.idct], in processing order. *)
Record state : Type := {
  y_p : plane;
  bit_idx : nat;
  written : list sample
}.

(** the (row 1, column 0) coefficient after the parity step *)
Definition nudge (alpha coeff_int : Z) : Z :=
  if (0 <=? coeff_int)%Z then (coeff_int + alpha)%Z else (coeff_int - alpha)%Z.

(** body of the inner loop, once the [break] test has passed *)
Definition embed_block (alpha : Z) (bits : list bool) (i j : nat)
    (st : state) : state :=
  let block := get_block (y_p st) i j in
  let d := dct block in
  let coeff_int := round_int (get2 d 1 0) in
  let bit := Z.b2z (default false (bits !! bit_idx st)) in
  let d :=
    if negb (coeff_int mod 2 =? bit)%Z
    then set2 d 1 0 (of_int (nudge alpha coeff_int))
    else d in
  {| y_p := set_block (y_p st) i j (idct d);
     bit_idx := S (bit_idx st);
     written := written st ++ [get2 d 1 0] |}.

(** [for j in range(bw)] with its [break] *)
Fixpoint inner_loop (alpha : Z) (bits : list bool) (i : nat)
    (js : list nat) (st : state) : state :=
  match js with
  | [] => st
  | j :: js' =>
      if length bits <=? bit_idx st then st
      else inner_loop alpha bits i js' (embed_block alpha bits i j st)
  end.

(** [for i in range(bh)] with its [break] *)
Fixpoint outer_loop (alpha : Z) (bits : list bool) (bw : nat)
    (rows : list nat) (st : state) : state :=
  match rows with
  | [] => st
  | i :: rows' =>
      let st' := inner_loop alpha bits i (seq 0 bw) st in
      if length bits <=? bit_idx st' then st'
      else outer_loop alpha bits bw rows' st'
  end.

(** [ycbcr[:, :, 0] = y_wm] *)
Definition set_luma (ycbcr : list (list pixel)) (y_wm : plane)
  : list (list pixel) :=
  zip_with (zip_with (fun v p => (v, snd (fst p), snd p))) y_wm ycbcr.

(** the embedder between decoding and encoding: the recombined
    (Y, Cr, Cb) array, the final loop state and the base64 text *)
Definition embed_ycrcb (ycbcr : list (list pixel)) (message : string)
    (alpha : Z) : result (list (list pixel) * state * string) :=
  let y := map (map luma) ycbcr in
  let '(h, w) := shape y in
  let ph := pad_amount h in
  let pw := pad_amount w in
  let y_p0 := pad_reflect y ph pw in
  let bh := fst (shape y_p0) / 8 in
  let bw := snd (shape y_p0) / 8 in
  let msg_b64 := Base64.b64encode (Py.encode_utf8 message) in
  let bits := take (bh * bw) (bits_of msg_b64) in
  match bits with
  | [] => Raise (ValueError "Message empty or host too small")
  | _ =>
      let st := outer_loop alpha bits bw (seq 0 bh)
                  {| y_p := y_p0; bit_idx := 0; written := [] |} in
      let y_wm := map (take w) (take h (y_p st)) in
      Ok (set_luma ycbcr y_wm, st, msg_b64)
  end.

(** the default [alpha = 4] *)
Definition default_alpha : Z := 4.

(** what an extractor reads back from the coefficients handed to
    [cv2.idct]: the parity of each rounded coefficient *)
Definition read_back (st : state) : list bool :=
  map (fun v => Z.odd (round_int v)) (written st).

(** the value of [d[1, 0]] that [embed_block] hands to [cv2.idct], as a
    function of the transformed block [d] and of the bit *)
Definition step_coeff (alpha : Z) (d : plane) (bit : bool) : sample :=
  let coeff_int := round_int (get2 d 1 0) in
  get2 (if negb (coeff_int mod 2 =? Z.b2z bit)%Z
        then set2 d 1 0 (of_int (nudge alpha coeff_int))
        else d) 1 0.

(** an array of [h] rows of [w] copies of [v] *)
Definition constant_plane {A} (h w : nat) (v : A) : list (list A) :=
  repeat (repeat v w) h.

(** the loop invariant: the padded plane keeps its row lengths, and the
    ghost log has one entry per consumed bit *)
Definition loop_inv (st0 st : state) : Prop :=
  map length (y_p st) = map length (y_p st0)
  /\ length (written st) = length (written st0) + (bit_idx st - bit_idx st0)
  /\ bit_idx st0 <= bit_idx st.

End Embed.

Section Bytes.
Context {Tr : Transform} {Cd : Codec}.

Definition embed_watermark_dct_bytes (img_bytes : list N) (message : string)
    (alpha : Z) : result (list N * string) :=
  match imdecode_ycrcb img_bytes with
  | None => Raise (ValueError "Cannot decode image")
  | Some ycbcr =>
      match embed_ycrcb ycbcr message alpha with
      | Raise e => Raise e
      | Ok (out, _, msg_b64) => Ok (imencode_png out, msg_b64)
      end
  end.

End Bytes.

End Watermark.

(** ** Capacities named by the specification of the embedder *)

Module WatermarkSpec.

Local Open Scope nat_scope.

(** [floor(h/8) * floor(w/8)] for a host of height [h] and width [w] *)
Definition floor_blocks {A} (host : list (list A)) : nat :=
  (fst (Watermark.shape host) / 8) * (snd (Watermark.shape host) / 8).

(** [ceil(h/8) * ceil(w/8)]: the 8x8 blocks of the reflect-padded plane *)
Definition padded_blocks {A} (host : list (list A)) : nat :=
  ((fst (Watermark.shape host) + 7) / 8) * ((snd (Watermark.shape host) + 7) / 8).

(** the bit string of the message's base64 text *)
Definition message_bits (message : string) : list bool :=
  Watermark.bits_of (Base64.b64encode (Py.encode_utf8 message)).

(** the 32 bits of "aGk=", the base64 text of "hi" *)
Definition hi_bits : list bool :=
  [false; true; true; false; false; false; false; true;
   false; true; false; false; false; true; true; true;
   false; true; true; false; true; false; true; true;
   false; false; true; true; true; true; false; true].

End WatermarkSpec.

(** ** The block transform over the reals

    An instance of [Transform] in which a sample is a real number: the
    orthonormal 8x8 DCT-II that [cv2.dct] computes and its inverse, written
    with exact real arithmetic, and NumPy's round-half-to-even. *)

Module RealCv.

Local Open Scope R_scope.

Definition c_norm (u : nat) : R :=
  match u with O => / sqrt 2 | _ => 1 end.

Definition basis (x u : nat) : R :=
  cos ((2 * INR x + 1) * INR u * PI / 16).

Definition at2 (b : list (list R)) (x y : nat) : R :=
  default 0 (b !! x ≫= (.!! y)).

Definition sum8 (f : nat -> R) : R := Stats.Rsum (map f (seq 0 8)).

Definition dct8 (b : list (list R)) : list (list R) :=
  map (fun u => map (fun v =>
    / 4 * c_norm u * c_norm v *
    sum8 (fun x => sum8 (fun y => at2 b x y * basis x u * basis y v)))
    (seq 0 8)) (seq 0 8).

Definition idct8 (d : list (list R)) : list (list R) :=
  map (fun x => map (fun y =>
    / 4 * sum8 (fun u => sum8 (fun v =>
            c_norm u * c_norm v * at2 d u v * basis x u * basis y v)))
    (seq 0 8)) (seq 0 8).

(** [int(np.round(x))]: the nearest integer, ties to the even one *)
Definition np_round (x : R) : Z :=
  let f := Zfloor x in
  let r := x - IZR f in
  if Rlt_dec r (/ 2) then f
  else if Rlt_dec (/ 2) r then (f + 1)%Z
  else if Z.even f then f else (f + 1)%Z.

#[export] Instance real_transform : Watermark.Transform := {|
  Watermark.sample := R;
  Watermark.zero := 0;
  Watermark.dct := dct8;
  Watermark.idct := idct8;
  Watermark.round_int := np_round;
  Watermark.of_int := IZR
|}.

(** a decoder that recognises no container: [cv2.imdecode] returns [None] *)
Definition undecodable : Watermark.Codec := {|
  Watermark.imdecode_ycrcb := fun _ => None;
  Watermark.imencode_png := fun _ => []
|}.

(** a decoder stub that answers every byte string with the raster [img] *)
Definition fixed_codec (img : list (list (R * R * R))) : Watermark.Codec := {|
  Watermark.imdecode_ycrcb := fun _ => Some img;
  Watermark.imencode_png := fun _ => []
|}.

(** a solid image: [h] rows of [w] pixels (Y, Cr, Cb) = (y, 128, 128) *)
Definition solid (h w : nat) (y : R) : list (list (R * R * R)) :=
  Watermark.constant_plane h w (y, 128, 128).

End RealCv.

(** ** The request handler: [analyze] *)

Module Service.

(** values stored in the result dictionary *)
Inductive json : Type :=
| JStr (s : string)
| JNum (q : Q)
| JList (l : list string).

(** [JSONResponse(res)] or [JSONResponse({"error": ..}, status_code=400)] *)
Inductive response : Type :=
| Json200 (res : gmap string json)
| Json400 (error : string).

(** What the handler obtains from PIL, hashlib, pytesseract and from the
    analyzers that are not modelled here; scores are rationals. *)
Class Collaborators : Type := {
  image : Type;
  (** [Image.open(io.BytesIO(raw)).convert('RGB')] *)
  open_rgb : list N -> result image;
  file_sha256_bytes : list N -> string;
  TAGS : Z -> option string;
  getexif : image -> option (list (Z * Metadata.value));
  info : image -> list (string * Metadata.value);
  lsb_entropy_score : image -> Q;
  (** [shannon_entropy(np.array(img.convert("L")))] *)
  global_entropy : image -> Q;
  jpeg_blockiness_score : image -> Q;
  (** [pytesseract.image_to_data(img, ..)], row by row *)
  image_to_data : image -> result (list Ocr.region);
  (** the outcomes of the five resample trials *)
  resample_trials : image -> list Rdr.trial
}.

Section Analyze.
Context {Tr : Watermark.Transform} {Cd : Watermark.Codec} {Env : Collaborators}.

(** [watermark_msg or "stegoshield-demo"] *)
Definition message_or_default (watermark_msg : option string) : string :=
  match watermark_msg with
  | Some (String c s) => String c s
  | _ => "stegoshield-demo"
  end.

Definition stego_score_of (img : image) : Q :=
  Policy.stego_score (lsb_entropy_score img) (global_entropy img)
    (jpeg_blockiness_score img)
    (Metadata.metadata_flags TAGS (getexif img) (info img)).

Definition decision_of (img : image) (data : list Ocr.region) : Policy.decision :=
  let '(_, _, suspicious_boxes) := Ocr.ocr_with_boxes data in
  Policy.final_decision (stego_score_of img)
    (fst (Rdr.rdr_inconsistency_score (resample_trials img)))
    suspicious_boxes.

(** [res] when [res["decision"]] has been stored *)
Definition analysis (filename : string) (raw : list N) (img : image)
    (data : list Ocr.region) : gmap string json :=
  let res : gmap string json :=
    <["sha256" := JStr (file_sha256_bytes raw)]> (<["path" := JStr filename]> ∅) in
  let flags := Metadata.metadata_flags TAGS (getexif img) (info img) in
  let res := <["metadata_flags" := JList flags]> res in
  let res := <["lsb_entropy" := JNum (lsb_entropy_score img)]> res in
  let res := <["global_entropy" := JNum (global_entropy img)]> res in
  let res := <["blockiness" := JNum (jpeg_blockiness_score img)]> res in
  let '(texts, _, suspicious_boxes) := Ocr.ocr_with_boxes data in
  let res := <["ocr_texts" := JList texts]> res in
  let res := <["ocr_suspicious" := JList (map Ocr.box_text suspicious_boxes)]> res in
  let '(rdr_score, rdr_sus) := Rdr.rdr_inconsistency_score (resample_trials img) in
  let res := <["rdr_score" := JNum rdr_score]> res in
  let res := <["rdr_examples" := JList rdr_sus]> res in
  let res := <["stego_score" := JNum (stego_score_of img)]> res in
  <["decision" := JStr (Policy.decision_str (decision_of img data))]> res.

(** the watermarking step, with its own [try]/[except] *)
Definition watermark_step (raw : list N) (watermark_msg : option string)
    (res : gmap string json) : gmap string json :=
  match Watermark.embed_watermark_dct_bytes raw
          (message_or_default watermark_msg) Watermark.default_alpha with
  | Ok (wm_bytes, msg_b64) =>
      <["watermark_message" := JStr msg_b64]>
        (<["watermarked_base64" := JStr (Base64.b64encode wm_bytes)]> res)
  | Raise e => <["watermark_error" := JStr (str_of_exn e)]> res
  end.

Definition analyze (filename : string) (raw : list N)
    (watermark_enabled : bool) (watermark_msg : option string) : response :=
  match open_rgb raw with
  | Raise e => Json400 (str_of_exn e)
  | Ok img =>
      match image_to_data img with
      | Raise e => Json400 (str_of_exn e)
      | Ok data =>
          let res := analysis filename raw img data in
          if watermark_enabled
             && Policy.decision_eqb (decision_of img data) Policy.ALLOW
          then Json200 (watermark_step raw watermark_msg res)
          else Json200 res
      end
  end.

(** the keys of a complete analysis *)
Definition analysis_keys : list string :=
  ["path"; "sha256"; "metadata_flags"; "lsb_entropy"; "global_entropy";
   "blockiness"; "ocr_texts"; "ocr_suspicious"; "rdr_score";
   "rdr_examples"; "stego_score"; "decision"].

End Analyze.

End Service.

(** ** A handler environment for examples

    One upload: an image that PIL opens, with no metadata, no recognised
    text and all analyzer scores 0. *)

Module Example.

Definition quiet : Service.Collaborators := {|
  Service.image := unit;
  Service.open_rgb := fun _ => Ok tt;
  Service.file_sha256_bytes := fun _ => "e3b0c442";
  Service.TAGS := fun _ => None;
  Service.getexif := fun _ => None;
  Service.info := fun _ => [];
  Service.lsb_entropy_score := fun _ => 0%Q;
  Service.global_entropy := fun _ => 0%Q;
  Service.jpeg_blockiness_score := fun _ => 0%Q;
  Service.image_to_data := fun _ => Ok [];
  Service.resample_trials := fun _ =>
    [Rdr.Returned EmptyString; Rdr.Raised; Rdr.Returned EmptyString; Rdr.Returned EmptyString; Rdr.Returned EmptyString]
|}.

End Example.

(** ** The quantities the specification names for the RDR score

    These follow the words of the specification, not the code: the trials
    that returned non-empty text, those among them whose text contains a
    suspicious keyword, and their ratio [frac]. *)

Module RdrSpec.

Local Open Scope Q_scope.

Definition returned_text (o : Rdr.trial) : bool :=
  match o with
  | Rdr.Returned t => Py.nonempty t
  | Rdr.Raised => false
  end.

Definition has_keyword (o : Rdr.trial) : bool :=
  match o with
  | Rdr.Returned t => Ocr.suspicious t
  | Rdr.Raised => false
  end.

Definition trials_with_text (outcomes : list Rdr.trial) : nat :=
  length (List.filter returned_text outcomes).

Definition trials_with_keyword (outcomes : list Rdr.trial) : nat :=
  length (List.filter has_keyword outcomes).

(** [c / n] for two counters *)
Definition ratio (c n : nat) : Q := inject_Z (Z.of_nat c) / inject_Z (Z.of_nat n).

(** (trials whose text contains a suspicious keyword) / (trials that
    returned non-empty text) *)
Definition frac (outcomes : list Rdr.trial) : Q :=
  ratio (trials_with_keyword outcomes) (trials_with_text outcomes).

End RdrSpec.

(** ** The label forms the specification names for the metadata scanner *)

Module MetadataSpec.

(** [meta_field:<name>], [meta_raw_bytes:<name>] or [meta_long:<name>] *)
Definition three_forms (label : string) : Prop :=
  exists name, label = "meta_field:" +:+ name
               \/ label = "meta_raw_bytes:" +:+ name
               \/ label = "meta_long:" +:+ name.

(** the three forms, or [png_info:<key>] *)
Definition four_forms (label : string) : Prop :=
  three_forms label \/ exists key, label = "png_info:" +:+ key.

(** the entries of the EXIF table that the first loop visits *)
Definition exif_entries (TAGS : Z -> option string)
    (exif : option (list (Z * Metadata.value)))
  : list (Metadata.tag * Metadata.value) :=
  match exif with
  | Some entries => map (fun e => (Metadata.resolve TAGS (fst e), snd e)) entries
  | None => []
  end.

End MetadataSpec.

(** ** One iteration of [ocr_with_boxes] *)

Module OcrAux.
Import Ocr.

(** the box of a region, when its stripped text is not empty *)
Definition box_of (r : region) : option box :=
  let txt := Py.strip (r_text r) in
  if Py.nonempty txt then Some (r_left r, r_top r, r_width r, r_height r, txt)
  else None.

End OcrAux.

(** ** Reading the embedded bits back *)

Module ReadBack.

(** the log read back so far is the prefix of the bits consumed so far *)
Definition prefix_inv {Tr : Watermark.Transform} (bits : list bool)
    (st : Watermark.state) : Prop :=
  Watermark.read_back st = take (Watermark.bit_idx st) bits
  /\ (Watermark.bit_idx st <= length bits)%nat.

End ReadBack.

(** ** Statistical analyzer: [lsb_entropy_score]

    As for [shannon_entropy], the floating-point operations are read as the
    exact operations on real numbers.  On an empty plane NumPy's mean is
    NaN; the model is meant for planes with at least one sample. *)

Module Lsb.

Local Open Scope R_scope.

(** [(g & 1).flatten()] *)
Definition lsb_plane (g : list (list Byte.byte)) : list nat :=
  map (fun b => Nat.land (Byte.to_nat b) 1) (Stats.flatten g).

(** [a.mean()] *)
Definition mean (a : list nat) : R :=
  Stats.Rsum (map INR a) / INR (length a).

(** [x in (0.0, 1.0)] *)
Definition is_0_or_1 (x : R) : bool :=
  if Req_dec_T x 0 then true else if Req_dec_T x 1 then true else false.

Definition lsb_entropy_score (g : list (list Byte.byte)) : R :=
  let p1 := mean (lsb_plane g) in
  if is_0_or_1 p1 then 0
  else - (p1 * Stats.log2 p1 + (1 - p1) * Stats.log2 (1 - p1)).

End Lsb.

(** ** Statistical analyzer: [jpeg_blockiness_score]

    The [float32] operations are read as exact operations on rationals;
    [1e-6] is the rational 1/10^6. *)

Module Blockiness.

Local Open Scope Q_scope.

Definition Qsum (l : list Q) : Q := fold_right Qplus 0 l.

(** [np.mean] of a one-dimensional array or list *)
Definition mean (l : list Q) : Q := Qsum l / inject_Z (Z.of_nat (length l)).

(** a [uint8] sample as a [float32] *)
Definition of_byte (b : Byte.byte) : Q := inject_Z (Z.of_nat (Byte.to_nat b)).

(** [np.array(img.convert("L"), dtype=np.float32)] *)
Definition to_float (g : list (list Byte.byte)) : list (list Q) :=
  map (map of_byte) g.

(** [range(8, n, 8)] *)
Definition boundaries (n : nat) : list nat :=
  map (fun k => 8 * (k + 1))%nat (seq 0 ((n - 1) / 8)).

(** [np.mean(np.abs(arr[:, x] - arr[:, x - 1]))] *)
Definition column_diff (arr : list (list Q)) (x : nat) : Q :=
  mean (map (fun row => Qabs (nth x row 0 - nth (x - 1) row 0)) arr).

(** [np.mean(np.abs(arr[y, :] - arr[y - 1, :]))] *)
Definition row_diff (arr : list (list Q)) (y : nat) : Q :=
  mean (zip_with (fun a b => Qabs (a - b)) (nth y arr []) (nth (y - 1) arr [])).

(** [np.mean(np.abs(arr - arr.mean())) + 1e-6] *)
Definition norm (arr : list (list Q)) : Q :=
  let m := mean (concat arr) in
  mean (map (fun v => Qabs (v - m)) (concat arr)) + (1 # 1000000).

(** the list [diffs] after the two loops *)
Definition boundary_diffs (arr : list (list Q)) : list Q :=
  let '(h, w) := Watermark.shape arr in
  map (column_diff arr) (boundaries w) ++ map (row_diff arr) (boundaries h).

Definition jpeg_blockiness_score (g : list (list Byte.byte)) : Q :=
  let arr := to_float g in
  let '(h, w) := Watermark.shape arr in
  if ((h <? 16) || (w <? 16))%nat then 0
  else
    let diffs := boundary_diffs arr in
    match diffs with
    | [] => 0
    | _ => mean diffs / norm arr
    end.

End Blockiness.

(** ** Which bit goes to which block *)

Module BitOrder.

(** the invariant of the two loops, for a padded plane [y0] with [bw]
    blocks in a row: the log has one entry per consumed bit, entry [k] is
    the coefficient computed from block [k] of [y0] (in row-major order) and
    from bit [k], and the blocks not yet reached are those of [y0] *)
Definition order_inv {Tr : Watermark.Transform} (alpha : Z) (bits : list bool)
    (bw : nat) (y0 : Watermark.plane) (st : Watermark.state) : Prop :=
  length (Watermark.written st) = Watermark.bit_idx st
  /\ map length (Watermark.y_p st) = map length y0
  /\ (forall k b, bits !! k = Some b -> (k < Watermark.bit_idx st)%nat ->
        Watermark.written st !! k
        = Some (Watermark.step_coeff alpha
                  (Watermark.dct (Watermark.get_block y0 (k / bw) (k mod bw))) b))
  /\ (forall i j, (j < bw)%nat -> (Watermark.bit_idx st <= i * bw + j)%nat ->
        Watermark.get_block (Watermark.y_p st) i j = Watermark.get_block y0 i j).

End BitOrder.

(** * Properties *)

(** ** Base64 on two messages *)

Example b64_hi : Base64.b64encode (Py.encode_utf8 "hi") = "aGk=".
Proof. reflexivity. Qed.

Example b64_demo :
  Base64.b64encode (Py.encode_utf8 "stegoshield-demo") = "c3RlZ29zaGllbGQtZGVtbw==".
Proof. reflexivity. Qed.

(** ** The embedding evaluated on small inputs *)

Example lower_mixed_case : Py.lower "IgNoRe THIS" = "ignore this".
Proof. reflexivity. Qed.

Example strip_both_ends : Py.strip "  run it  " = "run it".
Proof. reflexivity. Qed.

Example keyword_found :
  Ocr.suspicious "Please IGNORE the above" = true
  /\ Ocr.suspicious "a sunny day" = false
  /\ Ocr.suspicious EmptyString = false.
Proof. repeat split; reflexivity. Qed.

Example ocr_regions :
  Ocr.ocr_with_boxes
    [ {| Ocr.r_text := "   "; Ocr.r_left := 0; Ocr.r_top := 0;
         Ocr.r_width := 5; Ocr.r_height := 5 |};
      {| Ocr.r_text := " Open it"; Ocr.r_left := 1; Ocr.r_top := 2;
         Ocr.r_width := 30; Ocr.r_height := 9 |};
      {| Ocr.r_text := "hello"; Ocr.r_left := 40; Ocr.r_top := 2;
         Ocr.r_width := 20; Ocr.r_height := 9 |} ]
  = (["Open it"; "hello"],
     [(1, 2, 30, 9, "Open it"); (40, 2, 20, 9, "hello")]%Z,
     [(1, 2, 30, 9, "Open it")]%Z).
Proof. reflexivity. Qed.

(** one suspicious text out of three: [frac = 1/3], score 0.5 + 0.5 * 2/3 *)
Example rdr_fragile_text :
  (fst (Rdr.rdr_inconsistency_score
          [Rdr.Returned "run"; Rdr.Raised; Rdr.Returned "x"; Rdr.Returned EmptyString;
           Rdr.Returned "y"]) == 5 # 6)%Q.
Proof. reflexivity. Qed.

(** all texts suspicious: [frac = 1], score 0.4 *)
Example rdr_robust_text :
  (fst (Rdr.rdr_inconsistency_score
          [Rdr.Returned "run"; Rdr.Returned "RUN"; Rdr.Returned "ru n run"]) == 0.4)%Q
  /\ snd (Rdr.rdr_inconsistency_score
            [Rdr.Returned "run"; Rdr.Returned "RUN"; Rdr.Returned "ru n run"])
     = ["run"; "RUN"; "ru n run"].
Proof. split; reflexivity. Qed.

Example decisions :
  Policy.final_decision 0.3 0 [] = Policy.ALLOW
  /\ Policy.final_decision 0.6 0 [] = Policy.SUSPICIOUS
  /\ Policy.final_decision 0.6 0.5 [] = Policy.BLOCK
  /\ Policy.final_decision 0.3 0.5 [] = Policy.SUSPICIOUS
  /\ Policy.final_decision 0.3 0 [(0, 0, 1, 1, "open")%Z] = Policy.SUSPICIOUS
  /\ Policy.final_decision 0.85 0 [] = Policy.BLOCK.
Proof. repeat split; reflexivity. Qed.

Example reflect_padding :
  Watermark.pad_reflect_after [1; 2; 3]%nat 5 = [1; 2; 3; 2; 1; 2; 3; 2]%nat
  /\ Watermark.pad_reflect_after [7]%nat 3 = [7; 7; 7; 7]%nat
  /\ Watermark.pad_amount 64 = 0%nat /\ Watermark.pad_amount 9 = 7%nat.
Proof. repeat split; reflexivity. Qed.

(** ** Statistical analyzer *)

Module StatsFacts.
Import Stats.
Local Open Scope R_scope.

Lemma eps_pos : 0 < eps.
Proof. unfold eps. apply Rinv_0_lt_compat. apply pow_lt. Lra.lra. Qed.

Lemma ln2_half : / 2 < ln 2.
Proof. exact ln_lt_2. Qed.

Lemma ln_256 : ln 256 = 8 * ln 2.
Proof.
  replace 256 with (2 ^ 8) by Lra.lra. rewrite ln_pow by Lra.lra. simpl INR. Lra.lra.
Qed.

Lemma ln_le (x y : R) : 0 < x -> x <= y -> ln x <= ln y.
Proof.
  intros Hx [Hlt | ->]; [| apply Rle_refl].
  apply Rlt_le. by apply ln_increasing.
Qed.

(** the tangent bound of the logarithm *)
Lemma ln_le_sub1 (x : R) : 0 < x -> ln x <= x - 1.
Proof.
  intros Hx. pose proof (exp_ineq1_le (x - 1)) as He.
  rewrite <- (ln_exp (x - 1)). apply ln_le; [exact Hx | Lra.lra].
Qed.

Lemma xlnx_lower (q : R) : 0 < q -> q - 1 <= q * ln q.
Proof.
  intros Hq.
  pose proof (ln_le_sub1 (/ q) (Rinv_0_lt_compat _ Hq)) as H.
  rewrite ln_Rinv in H by exact Hq.
  assert (Hm : q * (1 - / q) <= q * ln q).
  { apply Rmult_le_compat_l; Lra.lra. }
  replace (q * (1 - / q)) with (q - 1) in Hm by (field; Lra.lra). exact Hm.
Qed.

(** one term of the sum, in nats, against a uniform 256-bin reference *)
Lemma term_lower (p : R) :
  0 < p -> - / 256 - p * (ln 256 - 1) <= p * ln (p + eps).
Proof.
  intros Hp. pose proof eps_pos as He.
  pose proof (xlnx_lower (256 * p) ltac:(Lra.lra)) as Hq.
  rewrite ln_mult in Hq by Lra.lra.
  assert (Hmono : ln p <= ln (p + eps)) by (apply ln_le; Lra.lra).
  assert (Hpm : p * ln p <= p * ln (p + eps)).
  { apply Rmult_le_compat_l; Lra.lra. }
  Lra.lra.
Qed.

Lemma term_upper (p : R) : 0 < p -> p <= 1 -> p * ln (p + eps) <= p * eps.
Proof.
  intros Hp H1. pose proof eps_pos as He.
  apply Rmult_le_compat_l; [Lra.lra |].
  transitivity (ln (1 + eps)); [apply ln_le; Lra.lra |].
  pose proof (ln_le_sub1 (1 + eps) ltac:(Lra.lra)). Lra.lra.
Qed.


Lemma div_le_l (a b c : R) : 0 < b -> a <= c * b -> a / b <= c.
Proof.
  intros Hb H. replace c with (c * b * / b) by (field; Lra.lra).
  unfold Rdiv. apply Rmult_le_compat_r; [| exact H].
  apply Rlt_le. by apply Rinv_0_lt_compat.
Qed.

Lemma div_le_r (a b c : R) : 0 < b -> c * b <= a -> c <= a / b.
Proof.
  intros Hb H. replace c with (c * b * / b) by (field; Lra.lra).
  unfold Rdiv. apply Rmult_le_compat_r; [| exact H].
  apply Rlt_le. by apply Rinv_0_lt_compat.
Qed.

Lemma Rpositive_true (x : R) : Rpositive x = true <-> 0 < x.
Proof. unfold Rpositive. destruct (Rlt_dec 0 x); split; intros; (assumption || discriminate || reflexivity || contradiction). Qed.

Lemma Rpositive_false (x : R) : Rpositive x = false <-> x <= 0.
Proof.
  unfold Rpositive. destruct (Rlt_dec 0 x); split; intros; try discriminate;
    try reflexivity; Lra.lra.
Qed.

Lemma bits_sum (probs : list R) :
  Rsum (map (fun p => p * log2 (p + eps)) (List.filter Rpositive probs))
  = entropy_nats probs / ln 2.
Proof.
  unfold entropy_nats, log2.
  induction (List.filter Rpositive probs) as [|p l IH]; simpl.
  - unfold Rdiv. ring.
  - rewrite IH. unfold Rdiv. ring.
Qed.

Lemma entropy_nats_lower (probs : list R) :
  Forall (fun p => 0 <= p) probs ->
  - INR (length probs) / 256 - (ln 256 - 1) * Rsum probs <= entropy_nats probs.
Proof.
  unfold entropy_nats. induction 1 as [|p l Hp _ IH].
  - simpl. Lra.lra.
  - change (length (p :: l)) with (S (length l)). rewrite S_INR.
    cbn [List.filter Rsum fold_right]. fold (Rsum l).
    destruct (Rpositive p) eqn:E.
    + apply Rpositive_true in E. pose proof (term_lower p E).
      cbn [map Rsum fold_right].
      fold (Rsum (map (fun p0 => p0 * ln (p0 + eps)) (List.filter Rpositive l))).
      Lra.lra.
    + apply Rpositive_false in E. assert (p = 0) by Lra.lra. subst p. Lra.lra.
Qed.

Lemma entropy_nats_upper (probs : list R) :
  Forall (fun p => 0 <= p <= 1) probs -> entropy_nats probs <= eps * Rsum probs.
Proof.
  unfold entropy_nats. induction 1 as [|p l Hp _ IH].
  - simpl. Lra.lra.
  - cbn [List.filter Rsum fold_right]. fold (Rsum l).
    destruct (Rpositive p) eqn:E.
    + apply Rpositive_true in E. pose proof (term_upper p E ltac:(Lra.lra)).
      cbn [map Rsum fold_right].
      fold (Rsum (map (fun p0 => p0 * ln (p0 + eps)) (List.filter Rpositive l))).
      Lra.lra.
    + apply Rpositive_false in E. pose proof eps_pos.
      assert (p = 0) by Lra.lra. subst p. Lra.lra.
Qed.

Lemma Rsum_INR_nonneg (hist : list nat) : 0 <= Rsum (map INR hist).
Proof.
  induction hist as [|c hist IH]; simpl; [Lra.lra |].
  pose proof (pos_INR c). fold (Rsum (map INR hist)). Lra.lra.
Qed.

Lemma Rsum_scale (l : list R) (t : R) :
  Rsum (map (fun c => c / t) l) = Rsum l / t.
Proof.
  induction l as [|c l IH]; simpl; unfold Rdiv in *; [ring |].
  fold (Rsum (map (fun c0 => c0 * / t) l)). rewrite IH. fold (Rsum l). ring.
Qed.

Lemma probs_sum (hist : list nat) :
  0 <= Rsum (probs_of hist) <= 1.
Proof.
  unfold probs_of. rewrite Rsum_scale.
  pose proof (Rsum_INR_nonneg hist) as Hn. pose proof eps_pos as He.
  set (n := Rsum (map INR hist)) in *.
  assert (Hinv : 0 < / (n + eps)) by (apply Rinv_0_lt_compat; Lra.lra).
  split.
  - unfold Rdiv. apply Rmult_le_pos; Lra.lra.
  - apply div_le_l; Lra.lra.
Qed.

Lemma probs_nonneg (hist : list nat) : Forall (fun p => 0 <= p) (probs_of hist).
Proof.
  unfold probs_of.
  pose proof (Rsum_INR_nonneg hist) as Hn. pose proof eps_pos as He.
  assert (Hinv : 0 < / (Rsum (map INR hist) + eps))
    by (apply Rinv_0_lt_compat; Lra.lra).
  set (t := Rsum (map INR hist) + eps) in *.
  apply Forall_map, Forall_map. apply Forall_forall. intros c _.
  unfold Rdiv. apply Rmult_le_pos; [apply pos_INR | Lra.lra].
Qed.

Lemma le_Rsum (l : list R) :
  Forall (fun p => 0 <= p) l -> Forall (fun p => p <= Rsum l) l.
Proof.
  induction 1 as [|p l Hp Hl IH]; constructor; simpl; fold (Rsum l).
  - assert (0 <= Rsum l); [| Lra.lra].
    clear IH. induction Hl; simpl; [Lra.lra |]. fold (Rsum l). Lra.lra.
  - eapply Forall_impl; [exact IH |]. simpl. intros q Hq. Lra.lra.
Qed.

Lemma probs_unit (hist : list nat) : Forall (fun p => 0 <= p <= 1) (probs_of hist).
Proof.
  pose proof (probs_nonneg hist) as Hn. pose proof (le_Rsum _ Hn) as Hs.
  pose proof (probs_sum hist) as [_ H1].
  rewrite Forall_forall in *. intros p Hp. split; [by apply Hn |].
  specialize (Hs p Hp). simpl in Hs. Lra.lra.
Qed.

Lemma entropy_probs (hist : list nat) :
  entropy_of_hist hist = - (entropy_nats (probs_of hist) / ln 2).
Proof. unfold entropy_of_hist. cbv zeta. fold (probs_of hist). by rewrite bits_sum. Qed.

Lemma length_bincount (a : list Byte.byte) : length (bincount a) = 256%nat.
Proof. unfold bincount. rewrite length_map. apply length_seq. Qed.

(** the entropy of a histogram of at most 256 bins *)
Lemma entropy_of_hist_range (hist : list nat) :
  (length hist <= 256)%nat -> - (2 * eps) <= entropy_of_hist hist <= 8.
Proof.
  intros Hlen. rewrite entropy_probs.
  pose proof (entropy_nats_lower _ (probs_nonneg hist)) as Hlo.
  pose proof (entropy_nats_upper _ (probs_unit hist)) as Hup.
  pose proof (probs_sum hist) as [Hs0 Hs1].
  pose proof ln2_half as H2. pose proof ln_256 as H256. pose proof eps_pos as He.
  assert (Hl : INR (length (probs_of hist)) <= 256).
  { unfold probs_of. rewrite !length_map. apply le_INR in Hlen.
    replace (INR 256) with 256 in Hlen by (simpl; Lra.lra). exact Hlen. }
  set (s := Rsum (probs_of hist)) in *. set (A := entropy_nats (probs_of hist)) in *.
  set (n := INR (length (probs_of hist))) in *.
  assert (Hlow : - (8 * ln 2) <= A).
  { assert ((ln 256 - 1) * s <= (ln 256 - 1) * 1).
    { apply Rmult_le_compat_l; Lra.lra. }
    Lra.lra. }
  assert (Hupp : A <= eps).
  { assert (eps * s <= eps * 1) by (apply Rmult_le_compat_l; Lra.lra). Lra.lra. }
  assert (Hln : 0 < ln 2) by Lra.lra.
  split.
  - apply Ropp_le_contravar. apply div_le_l; [exact Hln |].
    assert (eps * / 2 <= eps * ln 2) by (apply Rmult_le_compat_l; Lra.lra).
    Lra.lra.
  - apply Ropp_le_cancel. rewrite Ropp_involutive.
    apply div_le_r; [exact Hln |]. Lra.lra.
Qed.


Lemma Rsum_zeros (k : nat) : Rsum (map INR (repeat 0%nat k)) = 0.
Proof. induction k as [|k IH]; simpl; [reflexivity |]. fold (Rsum (map INR (repeat 0%nat k))). rewrite IH. Lra.lra. Qed.

Lemma filter_zero_bins (t : R) (k : nat) :
  List.filter Rpositive (map (fun c => c / t) (map INR (repeat 0%nat k))) = [].
Proof.
  induction k as [|k IH]; simpl; [reflexivity |].
  assert (E : Rpositive (0 / t) = false).
  { apply Rpositive_false. unfold Rdiv. rewrite Rmult_0_l. apply Rle_refl. }
  rewrite E. exact IH.
Qed.

(** a histogram with a single occupied bin: the value is negative *)
Lemma entropy_single_bin (n k : nat) :
  (0 < n)%nat -> entropy_of_hist (n :: repeat 0%nat k) < 0.
Proof.
  intros Hn. rewrite entropy_probs. unfold entropy_nats, probs_of.
  cbn [map Rsum fold_right]. fold (Rsum (map INR (repeat 0%nat k))).
  rewrite Rsum_zeros, Rplus_0_r.
  assert (HN : 1 <= INR n).
  { apply (le_INR 1) in Hn. simpl in Hn. exact Hn. }
  pose proof eps_pos as He. pose proof ln2_half as H2.
  set (N := INR n) in *.
  assert (Ht : 0 < N + eps) by Lra.lra.
  assert (Hinv : 0 < / (N + eps)) by (by apply Rinv_0_lt_compat).
  set (p := N / (N + eps)).
  assert (Hp : 0 < p) by (unfold p, Rdiv; apply Rmult_lt_0_compat; Lra.lra).
  assert (Hp1 : 1 < p + eps).
  { assert (Hfrac : p = 1 - eps / (N + eps)) by (unfold p; field; Lra.lra).
    assert (Hlt : eps / (N + eps) < eps).
    { assert (H1 : eps * / (N + eps) < eps * 1); [| unfold Rdiv; Lra.lra].
      apply Rmult_lt_compat_l; [exact He |].
      rewrite <- Rinv_1. apply Rinv_lt_contravar; Lra.lra. }
    Lra.lra. }
  cbn [List.filter].
  assert (E : Rpositive p = true) by (by apply Rpositive_true).
  rewrite E, filter_zero_bins. cbn [map Rsum fold_right].
  assert (Hln : 0 < ln (p + eps)).
  { rewrite <- ln_1. apply ln_increasing; Lra.lra. }
  assert (Hprod : 0 < p * ln (p + eps)) by (by apply Rmult_lt_0_compat).
  assert (Hq : 0 < (p * ln (p + eps) + 0) / ln 2).
  { unfold Rdiv. apply Rmult_lt_0_compat; [Lra.lra |].
    apply Rinv_0_lt_compat. Lra.lra. }
  Lra.lra.
Qed.

End StatsFacts.

Module Binary64Facts.
Import PrimFloat.

(** In binary64 as well, the argument of the logarithm exceeds 1 for the
    constant 8x8 plane (64 samples), and the probability is positive. *)
Example binary64_single_bin :
  ltb 1%float (Binary64.log2_argument 64%float) = true
  /\ ltb 0%float (Binary64.single_bin_prob 64%float) = true.
Proof. split; reflexivity. Qed.

(** the same for a constant 64x64 plane (4096 samples) *)
Example binary64_single_bin_4096 :
  ltb 1%float (Binary64.log2_argument 4096%float) = true
  /\ ltb 0%float (Binary64.single_bin_prob 4096%float) = true.
Proof. split; reflexivity. Qed.

End Binary64Facts.

(** C6, the statement of the specification refuted: for a constant 8x8
    plane (all 64 samples 0) the value returned is negative.  The single
    occupied bin has probability [p = 64 / (64 + 1e-12)], and
    [p + 1e-12 > 1], so [- p * log2 (p + 1e-12) < 0]. *)
Lemma C6_constant_plane_negative :
  (Stats.shannon_entropy (repeat (repeat Byte.x00 8) 8) < 0)%R.
Proof.
  unfold Stats.shannon_entropy.
  change (Stats.bincount (Stats.flatten (repeat (repeat Byte.x00 8) 8)))
    with (64%nat :: repeat 0%nat 255).
  apply StatsFacts.entropy_single_bin. lia.
Qed.

(** C6, amended. For every grayscale plane of 8-bit samples,
    [shannon_entropy] returns a value between [-2e-12] and 8: it is at most
    8, and it can be negative, but never below [-2 * 1e-12]. *)
Theorem C6_entropy_range (arr : list (list Byte.byte)) :
  (- (2 * Stats.eps) <= Stats.shannon_entropy arr <= 8)%R.
Proof.
  unfold Stats.shannon_entropy. apply StatsFacts.entropy_of_hist_range.
  rewrite StatsFacts.length_bincount. lia.
Qed.

(** ** Decision policy *)

Module PolicyFacts.
Import Policy.
Local Open Scope Q_scope.

Lemma Qltb_true (x y : Q) : Rdr.Qltb x y = true <-> x < y.
Proof.
  unfold Rdr.Qltb. rewrite negb_true_iff, <- not_true_iff_false, Qle_bool_iff.
  split; [apply Qnot_le_lt | apply Qlt_not_le].
Qed.

Lemma Qltb_false (x y : Q) : Rdr.Qltb x y = false <-> y <= x.
Proof.
  unfold Rdr.Qltb. rewrite negb_false_iff. apply Qle_bool_iff.
Qed.

Lemma py_min_le_l (a b : Q) : py_min a b <= a.
Proof.
  unfold py_min. destruct (Rdr.Qltb b a) eqn:E.
  - apply Qltb_true in E. lra.
  - lra.
Qed.

Lemma py_max_ge_l (a b : Q) : a <= py_max a b.
Proof.
  unfold py_max. destruct (Rdr.Qltb a b) eqn:E.
  - apply Qltb_true in E. lra.
  - lra.
Qed.

Lemma py_max_le (a b c : Q) : a <= c -> b <= c -> py_max a b <= c.
Proof. unfold py_max. destruct (Rdr.Qltb a b); auto. Qed.

Lemma escalate_rdr_mono (r : Q) (d : decision) :
  (severity d <= severity (escalate_rdr r d))%nat.
Proof. unfold escalate_rdr. destruct (Qle_bool 0.5 r), d; simpl; lia. Qed.

Lemma escalate_ocr_mono (boxes : list Ocr.box) (d : decision) :
  (severity d <= severity (escalate_ocr boxes d))%nat.
Proof. destruct boxes, d; simpl; lia. Qed.

Lemma escalate_rdr_block (r : Q) : escalate_rdr r BLOCK = BLOCK.
Proof. unfold escalate_rdr. destruct (Qle_bool 0.5 r); reflexivity. Qed.

Lemma escalate_ocr_block (boxes : list Ocr.box) : escalate_ocr boxes BLOCK = BLOCK.
Proof. destruct boxes; reflexivity. Qed.

End PolicyFacts.

(** C8. Whatever the four component scores are, the composite
    [stego_score] computed by [analyze] lies between 0 and 1. *)
Theorem C8_stego_score_in_unit_interval
    (lsb_entropy global_entropy blockiness : Q) (flags : list string) :
  (0 <= Policy.stego_score lsb_entropy global_entropy blockiness flags <= 1)%Q.
Proof.
  unfold Policy.stego_score. split.
  - apply PolicyFacts.py_max_ge_l.
  - apply PolicyFacts.py_max_le; [lra | apply PolicyFacts.py_min_le_l].
Qed.

(** C3. The decision is monotonic under escalation: for every stego score,
    every RDR score and every list of suspicious OCR regions, each escalation
    step yields a decision at least as severe as the one before it
    (ALLOW < SUSPICIOUS < BLOCK), so the final decision is at least as severe
    as the base decision, and a decision that is BLOCK before a step is
    BLOCK after it. *)
Theorem C3_decision_monotonic
    (score rdr_score : Q) (suspicious_boxes : list Ocr.box) :
  let base := Policy.base_decision score in
  let after_rdr := Policy.escalate_rdr rdr_score base in
  let final := Policy.final_decision score rdr_score suspicious_boxes in
  (Policy.severity base <= Policy.severity after_rdr <= Policy.severity final)%nat
  /\ (base = Policy.BLOCK -> final = Policy.BLOCK)
  /\ (after_rdr = Policy.BLOCK -> final = Policy.BLOCK)
  /\ Policy.escalate_rdr rdr_score Policy.BLOCK = Policy.BLOCK
  /\ Policy.escalate_ocr suspicious_boxes Policy.BLOCK = Policy.BLOCK
  /\ (forall d : Policy.decision,
        (Policy.severity d
         <= Policy.severity (Policy.escalate_rdr rdr_score d)
         <= Policy.severity
              (Policy.escalate_ocr suspicious_boxes
                 (Policy.escalate_rdr rdr_score d)))%nat).
Proof.
  intros base after_rdr final. subst final after_rdr. unfold Policy.final_decision.
  fold base.
  split; [split |].
  - apply PolicyFacts.escalate_rdr_mono.
  - apply PolicyFacts.escalate_ocr_mono.
  - split; [| split; [| split; [| split]]].
    + intros ->. rewrite PolicyFacts.escalate_rdr_block.
      apply PolicyFacts.escalate_ocr_block.
    + intros ->. apply PolicyFacts.escalate_ocr_block.
    + apply PolicyFacts.escalate_rdr_block.
    + apply PolicyFacts.escalate_ocr_block.
    + intros d. split.
      * apply PolicyFacts.escalate_rdr_mono.
      * apply PolicyFacts.escalate_ocr_mono.
Qed.

(** ** Resample-discrepancy detector *)

Module RdrFacts.
Import Rdr RdrSpec.
Local Open Scope Q_scope.

Lemma suspicious_nonempty (t : string) :
  Ocr.suspicious t = true -> Py.nonempty t = true.
Proof. destruct t; [discriminate | reflexivity]. Qed.

Lemma collect_length (outcomes : list trial) :
  length (collect outcomes) = trials_with_text outcomes.
Proof.
  unfold trials_with_text.
  induction outcomes as [|[|t] rest IH]; simpl; auto.
  destruct (Py.nonempty t); simpl; auto.
Qed.

Lemma collect_suspicious (outcomes : list trial) :
  length (List.filter Ocr.suspicious (collect outcomes)) = trials_with_keyword outcomes.
Proof.
  unfold trials_with_keyword.
  induction outcomes as [|[|t] rest IH]; simpl; auto.
  destruct (Py.nonempty t) eqn:Et; simpl.
  - destruct (Ocr.suspicious t); simpl; auto.
  - destruct (Ocr.suspicious t) eqn:Es; auto.
    apply suspicious_nonempty in Es. congruence.
Qed.

Lemma keyword_le_text (outcomes : list trial) :
  (trials_with_keyword outcomes <= trials_with_text outcomes)%nat.
Proof.
  unfold trials_with_keyword, trials_with_text.
  induction outcomes as [|[|t] rest IH]; simpl; auto.
  destruct (Ocr.suspicious t) eqn:Es.
  - rewrite (suspicious_nonempty _ Es). simpl. lia.
  - destruct (Py.nonempty t); simpl; lia.
Qed.

Lemma ratio_pos (c n : nat) : (0 < n)%nat -> (0 < c)%nat -> 0 < ratio c n.
Proof.
  intros Hn Hc. unfold ratio. apply Qlt_shift_div_l.
  - change 0 with (inject_Z 0). rewrite <- Zlt_Qlt. lia.
  - rewrite Qmult_0_l. change 0 with (inject_Z 0). rewrite <- Zlt_Qlt. lia.
Qed.

Lemma ratio_zero (n : nat) : ratio 0 n == 0.
Proof. unfold ratio. simpl. unfold Qdiv. apply Qmult_0_l. Qed.

Lemma ratio_le_1 (c n : nat) : (0 < n)%nat -> (c <= n)%nat -> ratio c n <= 1.
Proof.
  intros Hn Hc. unfold ratio. apply Qle_shift_div_r.
  - change 0 with (inject_Z 0). rewrite <- Zlt_Qlt. lia.
  - rewrite Qmult_1_l. rewrite <- Zle_Qle. lia.
Qed.

(** the score written with the specification's counters *)
Lemma score_unfold (outcomes : list trial) :
  let n := trials_with_text outcomes in
  let c := trials_with_keyword outcomes in
  fst (rdr_inconsistency_score outcomes) =
  match n with
  | O => 0
  | _ => if Nat.ltb 0 c && Qltb (ratio c n) 0.7 then 0.5 + 0.5 * (1 - ratio c n)
         else if Nat.ltb 0 c then 0.4 * ratio c n
         else 0
  end.
Proof.
  intros n c. subst n c.
  rewrite <- collect_length, <- collect_suspicious.
  unfold rdr_inconsistency_score.
  destruct (collect outcomes) as [|t ts] eqn:E; [reflexivity |].
  cbv zeta. unfold ratio.
  replace (Nat.max 1 (length (t :: ts))) with (length (t :: ts)) by (simpl; lia).
  reflexivity.
Qed.

End RdrFacts.

(** C4. For every sequence of resample-trial outcomes the RDR score is 0
    when no trial returned non-empty text (a trial that raised is not
    counted); otherwise, with [frac] the number of trials whose text contains
    a suspicious keyword over the number of trials that returned non-empty
    text, the score is [0.5 + 0.5 * (1 - frac)] when [0 < frac < 0.7],
    [0.4 * frac] when [frac >= 0.7], and 0 when [frac = 0]. *)
Theorem C4_rdr_score_cases (outcomes : list Rdr.trial) :
  let score := fst (Rdr.rdr_inconsistency_score outcomes) in
  let frac := RdrSpec.frac outcomes in
  (RdrSpec.trials_with_text outcomes = 0%nat -> score == 0)%Q
  /\ (RdrSpec.trials_with_text outcomes <> 0%nat ->
      (0 < frac /\ frac < 0.7 -> score == 0.5 + 0.5 * (1 - frac))
      /\ (0.7 <= frac -> score == 0.4 * frac)
      /\ (frac == 0 -> score == 0))%Q.
Proof.
  intros score frac. subst score frac.
  rewrite RdrFacts.score_unfold. unfold RdrSpec.frac.
  set (n := RdrSpec.trials_with_text outcomes).
  set (c := RdrSpec.trials_with_keyword outcomes).
  split; [intros ->; reflexivity |].
  intros Hn. destruct n as [|n']; [congruence |].
  set (f := RdrSpec.ratio c (S n')).
  destruct c as [|c'].
  - assert (Hf : (f == 0)%Q) by apply RdrFacts.ratio_zero.
    simpl. split; [| split].
    + intros [H0 _]. rewrite Hf in H0. lra.
    + intros H7. rewrite Hf in H7. lra.
    + reflexivity.
  - assert (Hf : (0 < f)%Q) by (apply RdrFacts.ratio_pos; lia).
    change (Nat.ltb 0 (S c')) with true. cbv iota beta. simpl andb.
    destruct (Rdr.Qltb f 0.7) eqn:E.
    + apply PolicyFacts.Qltb_true in E. split; [| split].
      * reflexivity.
      * intros H7. lra.
      * intros H0. lra.
    + apply PolicyFacts.Qltb_false in E. split; [| split].
      * intros [_ H7]. lra.
      * reflexivity.
      * intros H0. lra.
Qed.

(** C10. Whenever at least 70% of the text-returning trials contain a
    suspicious keyword ([frac >= 0.7]), the RDR score is at most 0.4, hence
    strictly below the escalation threshold 0.5, and the RDR escalation step
    of the decision policy leaves every decision as it was. *)
Theorem C10_consistent_text_never_escalates (outcomes : list Rdr.trial) :
  (0.7 <= RdrSpec.frac outcomes)%Q ->
  let score := fst (Rdr.rdr_inconsistency_score outcomes) in
  (score <= 0.4)%Q /\ (score < 0.5)%Q
  /\ forall d, Policy.escalate_rdr score d = d.
Proof.
  intros H7 score.
  assert (Hle : (score <= 0.4)%Q).
  { subst score. rewrite RdrFacts.score_unfold. revert H7. unfold RdrSpec.frac.
    pose proof (RdrFacts.keyword_le_text outcomes) as Hcn.
    destruct (RdrSpec.trials_with_text outcomes) as [|n'];
      [intros _; lra |].
    intros H7.
    pose proof (RdrFacts.ratio_le_1 _ (S n') ltac:(lia) Hcn) as H1.
    set (f := RdrSpec.ratio _ _) in *.
    destruct (Nat.ltb 0 (RdrSpec.trials_with_keyword outcomes)); simpl andb;
      [| cbv iota; lra].
    destruct (Rdr.Qltb f 0.7) eqn:E; cbv iota.
    - apply PolicyFacts.Qltb_true in E. lra.
    - lra. }
  split; [exact Hle |]. split; [lra |].
  intros d. unfold Policy.escalate_rdr.
  destruct (Qle_bool 0.5 score) eqn:E; [| reflexivity].
  apply Qle_bool_iff in E. lra.
Qed.

(** C10 at four trials, two of which return suspicious text, one raises and
    one returns nothing: [frac = 1]. *)
Lemma C10_consistent_text_never_escalates_witness :
  let outcomes := [Rdr.Returned "download now"; Rdr.Raised; Rdr.Returned "RUN it";
                   Rdr.Returned EmptyString] in
  (fst (Rdr.rdr_inconsistency_score outcomes) <= 0.4)%Q
  /\ (fst (Rdr.rdr_inconsistency_score outcomes) < 0.5)%Q
  /\ forall d, Policy.escalate_rdr (fst (Rdr.rdr_inconsistency_score outcomes)) d = d.
Proof.
  intros outcomes.
  apply (C10_consistent_text_never_escalates outcomes).
  vm_compute. discriminate.
Defined.

(** ** Metadata suspicion scanner *)

Module MetadataFacts.
Import Metadata MetadataSpec.

(** a label determines its prefix and its name *)
Ltac label_eq :=
  repeat match goal with
  | H : _ +:+ _ = _ +:+ _ |- _ =>
      cbv [String.append] in H;
      first [discriminate H | injection H as H; subst | subst]
  | H : False |- _ => destruct H
  end.

Lemma in_exif_entry_flags (t : tag) (v : value) (label : string) :
  In label (exif_entry_flags t v) <->
  (label = "meta_field:" +:+ fmt t /\ watched t = true)
  \/ (label = "meta_raw_bytes:" +:+ fmt t /\ is_bytes v = true)
  \/ (label = "meta_long:" +:+ fmt t /\ is_long_str v = true).
Proof.
  unfold exif_entry_flags. rewrite !in_app_iff.
  destruct (watched t), (is_bytes v), (is_long_str v); simpl; intuition congruence.
Qed.

Lemma in_info_entry_flags (k : string) (v : value) (label : string) :
  In label (info_entry_flags k v) <->
  label = "png_info:" +:+ k
  /\ Py.str_in (Py.lower k) METADATA_SUSPICION_KEYS || is_long_str v = true.
Proof.
  unfold info_entry_flags.
  destruct (Py.str_in (Py.lower k) METADATA_SUSPICION_KEYS || is_long_str v);
    simpl; intuition congruence.
Qed.

Lemma in_flag_list TAGS exif info (label : string) :
  In label (flag_list TAGS exif info) <->
  (exists t v, In (t, v) (exif_entries TAGS exif) /\ In label (exif_entry_flags t v))
  \/ (exists k v, In (k, v) info /\ In label (info_entry_flags k v)).
Proof.
  unfold flag_list. rewrite in_app_iff.
  match goal with |- ?A \/ ?B <-> ?C \/ ?D =>
    enough ((A <-> C) /\ (B <-> D)) by tauto end.
  split.
  - destruct exif as [entries|]; simpl.
    + rewrite in_flat_map. split.
      * intros [[id v] [Hin Hl]]. exists (resolve TAGS id), v. split; [| exact Hl].
        apply in_map_iff. exists (id, v). auto.
      * intros (t & v & Hin & Hl). apply in_map_iff in Hin as [[id v'] [Heq Hin]].
        simpl in Heq. injection Heq as <- <-. exists (id, v'). auto.
    + split; [tauto | intros (? & ? & [] & _)].
  - rewrite in_flat_map. split.
    + intros [[k v] [Hin Hl]]. eauto.
    + intros (k & v & Hin & Hl). exists (k, v). auto.
Qed.

Lemma elem_of_metadata_flags TAGS exif info (label : string) :
  label ∈ metadata_flags TAGS exif info <-> In label (flag_list TAGS exif info).
Proof.
  unfold metadata_flags.
  rewrite elem_of_elements, elem_of_list_to_set. apply list_elem_of_In.
Qed.

End MetadataFacts.

(** a comment field of 600 characters: both the field and its length are
    flagged, and the metadata term alone gives a score of 0.6 *)
Example long_user_comment :
  let TAGS := fun id : Z => if (id =? 37510)%Z then Some "UserComment" else None in
  let exif := Some [(37510%Z, Metadata.VStr (string_of_list_ascii (repeat "a"%char 600)))] in
  let flags := Metadata.metadata_flags TAGS exif [] in
  "meta_field:UserComment" ∈ flags /\ "meta_long:UserComment" ∈ flags
  /\ length flags = 2%nat
  /\ (Policy.stego_score 0 0 0 flags == 0.6)%Q.
Proof.
  intros TAGS exif flags. subst flags.
  split; [apply MetadataFacts.elem_of_metadata_flags; vm_compute; tauto |].
  split; [apply MetadataFacts.elem_of_metadata_flags; vm_compute; tauto |].
  split; vm_compute; reflexivity.
Qed.

(** an unknown tag identifier is rendered in decimal *)
Example raw_bytes_unknown_tag :
  Metadata.flag_list (fun _ => None) (Some [(42%Z, Metadata.VBytes [1; 2]%N)]) []
  = ["meta_raw_bytes:42"].
Proof. reflexivity. Qed.

(** C7, the statement of the specification refuted: an info dictionary with
    a [comment] key makes the scanner emit [png_info:comment], which is none
    of [meta_field:<name>], [meta_raw_bytes:<name>], [meta_long:<name>]. *)
Lemma C7_other_label_form_appears :
  "png_info:comment" ∈
    Metadata.metadata_flags (fun _ => None) None [("comment", Metadata.VStr "x")]
  /\ ~ MetadataSpec.three_forms "png_info:comment".
Proof.
  split.
  - apply MetadataFacts.elem_of_metadata_flags. simpl. auto.
  - intros [name [H | [H | H]]]; simpl in H; discriminate H.
Qed.

(** C7, amended. For every EXIF table and info dictionary the output of
    [metadata_flags] is duplicate-free and each label has one of four forms:
    [meta_field:<name>], [meta_raw_bytes:<name>], [meta_long:<name>] for
    EXIF entries, and [png_info:<key>] for entries of the info dictionary.
    [meta_field:<name>] is present exactly when an EXIF entry named <name>
    is on the watch-list, [meta_raw_bytes:<name>] exactly when an EXIF entry
    named <name> holds raw bytes, [meta_long:<name>] exactly when an EXIF
    entry named <name> holds a string longer than 512 characters, and
    [png_info:<key>] exactly when the info dictionary has an entry <key>
    whose lower-cased key is on the watch-list or whose value is a string
    longer than 512 characters. *)
Theorem C7_metadata_flag_forms
    (TAGS : Z -> option string) (exif : option (list (Z * Metadata.value)))
    (info : list (string * Metadata.value)) :
  let out := Metadata.metadata_flags TAGS exif info in
  let entries := MetadataSpec.exif_entries TAGS exif in
  NoDup out
  /\ (forall label, label ∈ out -> MetadataSpec.four_forms label)
  /\ (forall name, "meta_field:" +:+ name ∈ out <->
        exists t v, In (t, v) entries /\ Metadata.fmt t = name
                    /\ Metadata.watched t = true)
  /\ (forall name, "meta_raw_bytes:" +:+ name ∈ out <->
        exists t v, In (t, v) entries /\ Metadata.fmt t = name
                    /\ Metadata.is_bytes v = true)
  /\ (forall name, "meta_long:" +:+ name ∈ out <->
        exists t v, In (t, v) entries /\ Metadata.fmt t = name
                    /\ Metadata.is_long_str v = true)
  /\ (forall key, "png_info:" +:+ key ∈ out <->
        exists v, In (key, v) info
                  /\ Py.str_in (Py.lower key) Metadata.METADATA_SUSPICION_KEYS
                     || Metadata.is_long_str v = true).
Proof.
  intros out entries. subst out entries.
  split; [apply NoDup_elements |].
  split.
  { intros label Hl. apply MetadataFacts.elem_of_metadata_flags in Hl.
    apply MetadataFacts.in_flag_list in Hl as [(t & v & _ & Hl) | (k & v & _ & Hl)].
    - left. exists (Metadata.fmt t).
      apply MetadataFacts.in_exif_entry_flags in Hl. tauto.
    - right. exists k. apply MetadataFacts.in_info_entry_flags in Hl. tauto. }
  repeat split.
  all: rewrite MetadataFacts.elem_of_metadata_flags, MetadataFacts.in_flag_list.
  all: try (intros [(t & v & Hin & Hl) | (k & v & Hin & Hl)];
            [apply MetadataFacts.in_exif_entry_flags in Hl;
             destruct Hl as [[He Hc] | [[He Hc] | [He Hc]]]
            | apply MetadataFacts.in_info_entry_flags in Hl; destruct Hl as [He Hc]];
            MetadataFacts.label_eq; eauto 6).
  all: try (intros (t & v & Hin & <- & Hc); left; exists t, v; split; [exact Hin |];
            apply MetadataFacts.in_exif_entry_flags; tauto).
  intros (v & Hin & Hc). right. exists key, v. split; [exact Hin |].
  apply MetadataFacts.in_info_entry_flags. tauto.
Qed.

(** ** The request handler *)

Module ServiceFacts.
Import Service.

Section Handler.
Context {Tr : Watermark.Transform} {Cd : Watermark.Codec} {Env : Collaborators}.

Lemma analysis_lookup_error filename raw img data (msg : string) (k : string) :
  k ∈ analysis_keys ->
  <["watermark_error" := JStr msg]> (analysis filename raw img data) !! k
  = analysis filename raw img data !! k.
Proof.
  intros Hk. apply lookup_insert_ne. intros <-.
  unfold analysis_keys in Hk.
  repeat (apply elem_of_cons in Hk as [Hk | Hk]; [discriminate Hk |]).
  by apply elem_of_nil in Hk.
Qed.

Lemma analysis_complete filename raw img data :
  let res := analysis filename raw img data in
  res !! "path" = Some (JStr filename)
  /\ res !! "sha256" = Some (JStr (file_sha256_bytes raw))
  /\ res !! "metadata_flags"
     = Some (JList (Metadata.metadata_flags TAGS (getexif img) (info img)))
  /\ res !! "lsb_entropy" = Some (JNum (lsb_entropy_score img))
  /\ res !! "global_entropy" = Some (JNum (global_entropy img))
  /\ res !! "blockiness" = Some (JNum (jpeg_blockiness_score img))
  /\ res !! "ocr_texts" = Some (JList (fst (fst (Ocr.ocr_with_boxes data))))
  /\ res !! "ocr_suspicious"
     = Some (JList (map Ocr.box_text (snd (Ocr.ocr_with_boxes data))))
  /\ res !! "rdr_score"
     = Some (JNum (fst (Rdr.rdr_inconsistency_score (resample_trials img))))
  /\ res !! "rdr_examples"
     = Some (JList (snd (Rdr.rdr_inconsistency_score (resample_trials img))))
  /\ res !! "stego_score" = Some (JNum (stego_score_of img))
  /\ res !! "decision"
     = Some (JStr (Policy.decision_str (decision_of img data))).
Proof.
  unfold analysis.
  destruct (Ocr.ocr_with_boxes data) as [[texts boxes] susp].
  destruct (Rdr.rdr_inconsistency_score (resample_trials img)) as [score sus].
  cbv zeta. simpl fst. simpl snd.
  repeat split; by simplify_map_eq.
Qed.

End Handler.

End ServiceFacts.

(** C5. When the watermarking step is reached (watermarking enabled, decision
    ALLOW) and [embed_watermark_dct_bytes] raises, for whatever reason, the
    handler still answers with the result dictionary (status 200): it is the
    complete analysis, with the identifier, the metadata flags, the numeric
    scores, the OCR lists, the RDR fields, [stego_score] and [decision] all
    present and with the values the analysis gave them, plus
    [watermark_error] holding the text of the exception. *)
Theorem C5_embedding_failure_keeps_analysis
    {Tr : Watermark.Transform} {Cd : Watermark.Codec} {Env : Service.Collaborators}
    (filename : string) (raw : list N) (watermark_msg : option string)
    (img : Service.image) (data : list Ocr.region) (e : exn) :
  Service.open_rgb raw = Ok img ->
  Service.image_to_data img = Ok data ->
  Service.decision_of img data = Policy.ALLOW ->
  Watermark.embed_watermark_dct_bytes raw
    (Service.message_or_default watermark_msg) Watermark.default_alpha = Raise e ->
  let res := Service.analysis filename raw img data in
  Service.analyze filename raw true watermark_msg
  = Service.Json200 (<["watermark_error" := Service.JStr (str_of_exn e)]> res)
  /\ Service.analyze filename raw false watermark_msg = Service.Json200 res
  /\ (forall k, k ∈ Service.analysis_keys ->
        is_Some (res !! k)
        /\ <["watermark_error" := Service.JStr (str_of_exn e)]> res !! k = res !! k)
  /\ <["watermark_error" := Service.JStr (str_of_exn e)]> res !! "watermark_error"
     = Some (Service.JStr (str_of_exn e)).
Proof.
  intros Hopen Hdata Hdec Hembed res.
  split; [| split; [| split]].
  - unfold Service.analyze, Service.watermark_step.
    rewrite Hopen, Hdata, Hdec, Hembed. reflexivity.
  - unfold Service.analyze. rewrite Hopen, Hdata. reflexivity.
  - intros k Hk. split.
    + pose proof (ServiceFacts.analysis_complete filename raw img data) as Hc.
      cbv zeta in Hc. fold res in Hc.
      unfold Service.analysis_keys in Hk.
      repeat (apply elem_of_cons in Hk as [-> | Hk]; [eexists; apply Hc |]).
      by apply elem_of_nil in Hk.
    + by apply ServiceFacts.analysis_lookup_error.
  - apply lookup_insert_eq.
Qed.

(** C5 at an upload that PIL opens and OpenCV cannot decode. *)
Lemma C5_embedding_failure_keeps_analysis_witness :
  let res := Service.analysis (Env := Example.quiet)
               "upload.gif" [71; 73; 70]%N tt [] in
  Service.analyze (Cd := RealCv.undecodable) (Env := Example.quiet)
    "upload.gif" [71; 73; 70]%N true None
  = Service.Json200
      (<["watermark_error" := Service.JStr "Cannot decode image"]> res)
  /\ res !! "decision" = Some (Service.JStr "ALLOW").
Proof.
  intros res.
  destruct (C5_embedding_failure_keeps_analysis
              (Cd := RealCv.undecodable) (Env := Example.quiet)
              "upload.gif" [71; 73; 70]%N None tt []
              (ValueError "Cannot decode image")
              eq_refl eq_refl eq_refl eq_refl) as (Ha & _ & Hk & _).
  split; [exact Ha |].
  vm_compute. reflexivity.
Defined.

(** ** Watermark embedder *)

Module WatermarkFacts.
Import Watermark.
Local Open Scope nat_scope.

Ltac div_lia := zify; Z.to_euclidean_division_equations; lia.

Lemma pad_amount_zero : pad_amount 0 = 0.
Proof. reflexivity. Qed.

Lemma pad_amount_div (n : nat) : (n + pad_amount n) / 8 = (n + 7) / 8.
Proof. unfold pad_amount. div_lia. Qed.

Lemma reflect_index_lt (n k : nat) : 0 < n -> reflect_index n k < n.
Proof.
  intros Hn. unfold reflect_index.
  destruct (Nat.leb_spec n 1); [lia |].
  cbv zeta. destruct (Nat.ltb_spec ((n + k) mod (2 * (n - 1))) n); [lia |].
  pose proof (Nat.mod_upper_bound (n + k) (2 * (n - 1)) ltac:(lia)). lia.
Qed.

Lemma length_omap_total {A B} (f : A -> option B) (l : list A) :
  (forall x, In x l -> is_Some (f x)) -> length (omap f l) = length l.
Proof.
  induction l as [|x l IH]; intros Hf; simpl; [reflexivity |].
  destruct (Hf x (or_introl eq_refl)) as [y Hy]. rewrite Hy. simpl. f_equal.
  apply IH. intros z Hz. apply Hf. right. exact Hz.
Qed.

Lemma length_pad_reflect_after {A} (l : list A) (p : nat) :
  l <> [] -> length (pad_reflect_after l p) = length l + p.
Proof.
  intros Hl. unfold pad_reflect_after.
  rewrite length_app, length_omap_total, length_seq; [reflexivity |].
  intros k _. apply lookup_lt_is_Some. apply reflect_index_lt.
  destruct l; [congruence | simpl; lia].
Qed.

Lemma pad_reflect_after_nil {A} (p : nat) : pad_reflect_after (@nil A) p = [].
Proof.
  unfold pad_reflect_after. simpl. induction (seq 0 p) as [|k ks IH]; [reflexivity |].
  exact IH.
Qed.

Lemma length_pad_amount {A} (l : list A) :
  length (pad_reflect_after l (pad_amount (length l)))
  = length l + pad_amount (length l).
Proof.
  destruct l as [|x l]; [rewrite pad_reflect_after_nil; reflexivity |].
  apply length_pad_reflect_after. discriminate.
Qed.

Lemma Forall_pad_reflect_after {A} (P : A -> Prop) (l : list A) (p : nat) :
  Forall P l -> Forall P (pad_reflect_after l p).
Proof.
  intros Hl. unfold pad_reflect_after. apply Forall_app. split; [exact Hl |].
  apply Forall_forall. intros x Hx.
  apply list_elem_of_omap in Hx as (k & _ & Hk).
  rewrite Forall_forall in Hl. apply Hl. eapply list_elem_of_lookup_2. exact Hk.
Qed.


Section Loops.
Context {Tr : Transform}.

Lemma shape_luma (ycbcr : list (list pixel)) :
  shape (map (map luma) ycbcr) = shape ycbcr.
Proof.
  destruct ycbcr as [|r rest]; unfold shape; simpl; [reflexivity |].
  by rewrite !length_map.
Qed.

Lemma shape_pad_reflect (y : plane) :
  shape (pad_reflect y (pad_amount (fst (shape y))) (pad_amount (snd (shape y))))
  = (fst (shape y) + pad_amount (fst (shape y)),
     snd (shape y) + pad_amount (snd (shape y))).
Proof.
  destruct y as [|r rest]; [reflexivity |].
  unfold pad_reflect, shape at 1. f_equal.
  - rewrite length_pad_reflect_after by discriminate.
    simpl. by rewrite length_map.
  - simpl. apply length_pad_amount.
Qed.

(** rows and their lengths *)
Lemma lengths_imap {A} (f : nat -> list A -> list A) (a : list (list A)) :
  (forall r row, length (f r row) = length row) ->
  map length (imap f a) = map length a.
Proof.
  revert f. induction a as [|row a IH]; intros f Hf; simpl; [reflexivity |].
  rewrite Hf. f_equal. apply IH. intros r row'. apply Hf.
Qed.

Lemma lengths_set_block (y : plane) (i j : nat) (b : plane) :
  map length (set_block y i j b) = map length y.
Proof.
  unfold set_block. apply lengths_imap. intros r row.
  destruct ((i * 8 <=? r) && (r <? (i + 1) * 8)); [apply length_imap | reflexivity].
Qed.

Lemma loop_inv_refl (st : state) : loop_inv st st.
Proof. unfold loop_inv. repeat split; lia. Qed.

Lemma loop_inv_trans (a b c : state) : loop_inv a b -> loop_inv b c -> loop_inv a c.
Proof. unfold loop_inv. intros (? & ? & ?) (? & ? & ?). repeat split; [congruence | lia | lia]. Qed.

Lemma embed_block_inv alpha bits i j (st : state) :
  loop_inv st (embed_block alpha bits i j st).
Proof.
  unfold loop_inv, embed_block. simpl. split; [apply lengths_set_block |].
  rewrite length_app. simpl. lia.
Qed.

Lemma inner_loop_inv alpha bits i js (st : state) :
  loop_inv st (inner_loop alpha bits i js st).
Proof.
  revert st. induction js as [|j js IH]; intros st; simpl; [apply loop_inv_refl |].
  destruct (length bits <=? bit_idx st); [apply loop_inv_refl |].
  eapply loop_inv_trans; [apply embed_block_inv | apply IH].
Qed.

Lemma outer_loop_inv alpha bits bw rows (st : state) :
  loop_inv st (outer_loop alpha bits bw rows st).
Proof.
  revert st. induction rows as [|i rows IH]; intros st; simpl; [apply loop_inv_refl |].
  destruct (length bits <=? bit_idx (inner_loop alpha bits i (seq 0 bw) st)).
  - apply inner_loop_inv.
  - eapply loop_inv_trans; [apply inner_loop_inv | apply IH].
Qed.

(** how many bits the loops consume *)
Lemma inner_loop_idx alpha bits i js (st : state) :
  bit_idx (inner_loop alpha bits i js st)
  = Nat.max (bit_idx st) (Nat.min (bit_idx st + length js) (length bits)).
Proof.
  revert st. induction js as [|j js IH]; intros st; simpl; [lia |].
  destruct (Nat.leb_spec (length bits) (bit_idx st)); [lia |].
  rewrite IH. change (bit_idx (embed_block alpha bits i j st)) with (S (bit_idx st)). lia.
Qed.

Lemma outer_loop_idx alpha bits bw rows (st : state) :
  bit_idx (outer_loop alpha bits bw rows st)
  = Nat.max (bit_idx st) (Nat.min (bit_idx st + length rows * bw) (length bits)).
Proof.
  revert st. induction rows as [|i rows IH]; intros st; simpl; [lia |].
  pose proof (inner_loop_idx alpha bits i (seq 0 bw) st) as Hin.
  rewrite length_seq in Hin.
  destruct (Nat.leb_spec (length bits) (bit_idx (inner_loop alpha bits i (seq 0 bw) st))).
  - lia.
  - rewrite IH. lia.
Qed.


(** the loops, started on a fresh state, consume every truncated bit *)
Lemma loops_consume_all alpha (bits : list bool) bh bw (y0 : plane) :
  length bits <= bh * bw ->
  let st := outer_loop alpha bits bw (seq 0 bh)
              {| y_p := y0; bit_idx := 0; written := [] |} in
  bit_idx st = length bits /\ length (written st) = length bits
  /\ map length (y_p st) = map length y0.
Proof.
  intros Hlen st.
  pose proof (outer_loop_idx alpha bits bw (seq 0 bh)
                {| y_p := y0; bit_idx := 0; written := [] |}) as Hidx.
  pose proof (outer_loop_inv alpha bits bw (seq 0 bh)
                {| y_p := y0; bit_idx := 0; written := [] |}) as (Hy & Hw & _).
  fold st in Hidx, Hy, Hw. rewrite length_seq in Hidx. simpl in Hidx, Hy, Hw.
  repeat split; [lia | lia | exact Hy].
Qed.

(** [embed_ycrcb] unfolded: it fails exactly when the bits that fit the
    padded plane are none, and otherwise runs the loops on them *)
Lemma embed_ycrcb_cases (ycbcr : list (list pixel)) (message : string) (alpha : Z) :
  let h := fst (shape ycbcr) in
  let w := snd (shape ycbcr) in
  let bits := take (WatermarkSpec.padded_blocks ycbcr) (WatermarkSpec.message_bits message) in
  let y_p0 := pad_reflect (map (map luma) ycbcr) (pad_amount h) (pad_amount w) in
  let st := outer_loop alpha bits ((w + pad_amount w) / 8) (seq 0 ((h + pad_amount h) / 8))
              {| y_p := y_p0; bit_idx := 0; written := [] |} in
  embed_ycrcb ycbcr message alpha =
  match bits with
  | [] => Raise (ValueError "Message empty or host too small")
  | _ => Ok (set_luma ycbcr (map (take w) (take h (y_p st))), st,
             Base64.b64encode (Py.encode_utf8 message))
  end.
Proof.
  intros h w bits y_p0 st. unfold embed_ycrcb.
  pose proof (shape_luma ycbcr) as Hs.
  pose proof (shape_pad_reflect (map (map luma) ycbcr)) as Hp.
  rewrite Hs in Hp. fold h w in Hp. fold y_p0 in Hp.
  destruct (shape (map (map luma) ycbcr)) as [h' w'] eqn:E.
  assert (h' = h /\ w' = w) as [-> ->].
  { subst h w. rewrite <- Hs. simpl. auto. }
  fold y_p0. rewrite Hp. simpl fst. simpl snd.
  assert (Hb : take ((h + pad_amount h) / 8 * ((w + pad_amount w) / 8))
                 (bits_of (Base64.b64encode (Py.encode_utf8 message))) = bits).
  { subst bits. unfold WatermarkSpec.padded_blocks, WatermarkSpec.message_bits.
    fold h w. by rewrite !pad_amount_div. }
  rewrite Hb. destruct bits; reflexivity.
Qed.

End Loops.
End WatermarkFacts.

(** C2, the statement of the specification refuted: for a 4x4 host,
    [floor(4/8) * floor(4/8)] is 0, so the message truncated to that many
    bits is empty and the embedder should fail; it succeeds, and embeds one
    bit. *)
Lemma C2_floor_capacity_refuted :
  let host := RealCv.solid 4 4 128 in
  take (WatermarkSpec.floor_blocks host) (WatermarkSpec.message_bits "hi") = []
  /\ is_ok (Watermark.embed_watermark_dct_bytes (Cd := RealCv.fixed_codec host)
              [] "hi" Watermark.default_alpha) = true
  /\ exists out st,
       Watermark.embed_ycrcb (Tr := RealCv.real_transform) host "hi"
         Watermark.default_alpha = Ok (out, st, "aGk=")
       /\ Watermark.bit_idx st = 1%nat.
Proof.
  intros host. split; [reflexivity |]. split; [reflexivity |].
  pose proof (WatermarkFacts.embed_ycrcb_cases (Tr := RealCv.real_transform) host "hi" Watermark.default_alpha) as Hc.
  cbv zeta in Hc.
  change (take (WatermarkSpec.padded_blocks host) (WatermarkSpec.message_bits "hi"))
    with [false] in Hc.
  cbv iota in Hc. eexists _, _. split; [exact Hc |].
  apply (WatermarkFacts.loops_consume_all (Tr := RealCv.real_transform)
           Watermark.default_alpha [false] 1 1).
  simpl. lia.
Qed.

(** ** The order in which the bits reach the blocks *)

Module BitOrderFacts.
Import Watermark BitOrder.
Local Open Scope nat_scope.

Section Order.
Context {Tr : Transform}.

(** a block assignment leaves the cells of the other blocks alone *)
Lemma lookup_set_block (y : plane) (i j : nat) (b : plane) (r c : nat) :
  r / 8 <> i \/ c / 8 <> j ->
  set_block y i j b !! r ≫= (.!! c) = y !! r ≫= (.!! c).
Proof.
  intros Hne. unfold set_block. rewrite list_lookup_imap.
  destruct (y !! r) as [row|]; [| reflexivity]. cbn [fmap option_fmap option_map mbind option_bind].
  destruct (Nat.leb_spec (i * 8) r); destruct (Nat.ltb_spec r ((i + 1) * 8));
    cbn [andb]; try reflexivity.
  rewrite list_lookup_imap. destruct (row !! c) as [x|]; [| reflexivity].
  cbn [fmap option_fmap option_map].
  destruct (Nat.leb_spec (j * 8) c); destruct (Nat.ltb_spec c ((j + 1) * 8));
    cbn [andb]; try reflexivity.
  exfalso. destruct Hne as [Hne | Hne]; apply Hne; WatermarkFacts.div_lia.
Qed.

(** a block is determined by its cells and by the row lengths *)
Lemma get_block_ext (y y' : plane) (i j : nat) :
  map length y = map length y' ->
  (forall r c, r / 8 = i -> c / 8 = j -> y !! r ≫= (.!! c) = y' !! r ≫= (.!! c)) ->
  get_block y i j = get_block y' i j.
Proof.
  intros Hlen Hcell. unfold get_block. apply list_eq. intros a.
  rewrite !list_lookup_fmap.
  destruct (Nat.lt_ge_cases a 8) as [Ha | Ha].
  2: { rewrite !lookup_take_ge by lia. reflexivity. }
  rewrite !lookup_take_lt, !lookup_drop by lia.
  assert (Hrow : map length y !! (i * 8 + a) = map length y' !! (i * 8 + a))
    by (by rewrite Hlen).
  rewrite !list_lookup_fmap in Hrow.
  specialize (fun c => Hcell (i * 8 + a) c ltac:(WatermarkFacts.div_lia)).
  destruct (y !! (i * 8 + a)) as [row|], (y' !! (i * 8 + a)) as [row'|];
    cbn [fmap option_fmap option_map mbind option_bind] in *; try discriminate;
    [| reflexivity].
  f_equal. apply list_eq. intros b.
  destruct (Nat.lt_ge_cases b 8) as [Hb | Hb].
  2: { rewrite !lookup_take_ge by lia. reflexivity. }
  rewrite !lookup_take_lt, !lookup_drop by lia.
  apply Hcell. WatermarkFacts.div_lia.
Qed.

(** assigning one block leaves the other blocks as they are *)
Lemma get_block_set_block_other (y : plane) (i j i' j' : nat) (b : plane) :
  i' <> i \/ j' <> j ->
  get_block (set_block y i j b) i' j' = get_block y i' j'.
Proof.
  intros Hne. apply get_block_ext; [apply WatermarkFacts.lengths_set_block |].
  intros r c Hr Hc. apply lookup_set_block. lia.
Qed.

Section Loops.
Variable alpha : Z.
Variable bits : list bool.
Variable bw : nat.
Variable y0 : plane.

Lemma embed_block_order i j (st : state) :
  j < bw -> bit_idx st = i * bw + j -> bit_idx st < length bits ->
  order_inv alpha bits bw y0 st ->
  order_inv alpha bits bw y0 (embed_block alpha bits i j st).
Proof.
  intros Hj Hpos Hlt (Hlen & Hrows & Hlog & Hrest).
  assert (Hij : (i * bw + j) / bw = i /\ (i * bw + j) mod bw = j).
  { split; [rewrite Nat.div_add_l by lia; rewrite Nat.div_small by lia; lia |].
    rewrite Nat.add_comm, Nat.Div0.mod_add. apply Nat.mod_small. exact Hj. }
  unfold order_inv.
  change (written (embed_block alpha bits i j st))
    with (written st ++ [step_coeff alpha (dct (get_block (y_p st) i j))
                           (default false (bits !! bit_idx st))]).
  change (bit_idx (embed_block alpha bits i j st)) with (S (bit_idx st)).
  change (y_p (embed_block alpha bits i j st))
    with (set_block (y_p st) i j
            (idct (if negb (round_int (get2 (dct (get_block (y_p st) i j)) 1 0) mod 2
                            =? Z.b2z (default false (bits !! bit_idx st)))%Z
                   then set2 (dct (get_block (y_p st) i j)) 1 0
                          (of_int (nudge alpha
                                     (round_int (get2 (dct (get_block (y_p st) i j)) 1 0))))
                   else dct (get_block (y_p st) i j)))).
  split; [rewrite length_app; simpl; lia |].
  split; [rewrite WatermarkFacts.lengths_set_block; exact Hrows |].
  split.
  - intros k b Hb Hk. destruct (Nat.eq_dec k (bit_idx st)) as [-> | Hne].
    + rewrite lookup_app_r by lia. rewrite Hlen, Nat.sub_diag. cbn [lookup list_lookup].
      rewrite Hb. cbn [default]. rewrite (Hrest i j Hj ltac:(lia)).
      rewrite Hpos. destruct Hij as [-> ->]. reflexivity.
    + rewrite lookup_app_l by lia. apply Hlog; [exact Hb | lia].
  - intros i' j' Hj' Hge.
    rewrite get_block_set_block_other; [apply Hrest; [exact Hj' | lia] |].
    destruct (Nat.eq_dec i' i) as [-> | Hi]; [| by left].
    right. intros ->. lia.
Qed.

Lemma inner_loop_order i n : forall j0 (st : state),
  j0 + n <= bw ->
  bit_idx st = i * bw + j0 \/ length bits <= bit_idx st ->
  order_inv alpha bits bw y0 st ->
  let st' := inner_loop alpha bits i (seq j0 n) st in
  order_inv alpha bits bw y0 st'
  /\ (bit_idx st' = i * bw + j0 + n \/ length bits <= bit_idx st').
Proof.
  induction n as [|n IH]; intros j0 st Hn Hpos Hinv; cbn [seq inner_loop].
  - split; [exact Hinv |]. destruct Hpos; [left | right]; lia.
  - cbv zeta. destruct (Nat.leb_spec (length bits) (bit_idx st)) as [Hdone | Hlt].
    + split; [exact Hinv | by right].
    + destruct Hpos as [Hpos | Hpos]; [| lia].
      destruct (IH (S j0) (embed_block alpha bits i j0 st)) as [Hinv' Hpos'].
      * lia.
      * left. change (bit_idx (embed_block alpha bits i j0 st)) with (S (bit_idx st)). lia.
      * apply embed_block_order; [lia | exact Hpos | exact Hlt | exact Hinv].
      * split; [exact Hinv' |]. destruct Hpos'; [left | right]; lia.
Qed.

Lemma outer_loop_order m : forall i0 (st : state),
  bit_idx st = i0 * bw \/ length bits <= bit_idx st ->
  order_inv alpha bits bw y0 st ->
  order_inv alpha bits bw y0 (outer_loop alpha bits bw (seq i0 m) st).
Proof.
  induction m as [|m IH]; intros i0 st Hpos Hinv; cbn [seq outer_loop]; [exact Hinv |].
  cbv zeta.
  destruct (inner_loop_order i0 bw 0 st) as [Hinv' Hpos'];
    [lia | destruct Hpos; [left | right]; lia | exact Hinv |].
  cbv zeta in Hinv', Hpos'.
  destruct (Nat.leb_spec (length bits)
              (bit_idx (inner_loop alpha bits i0 (seq 0 bw) st))) as [Hdone | Hlt];
    [exact Hinv' |].
  apply IH; [| exact Hinv']. destruct Hpos'; [left | right]; lia.
Qed.

(** the loops, started on a fresh state: bit [k] goes to block [k] *)
Lemma loops_bit_order bh :
  let st := outer_loop alpha bits bw (seq 0 bh)
              {| y_p := y0; bit_idx := 0; written := [] |} in
  forall k b, bits !! k = Some b -> k < bit_idx st ->
    written st !! k
    = Some (step_coeff alpha (dct (get_block y0 (k / bw) (k mod bw))) b).
Proof.
  intros st.
  assert (Hinv : order_inv alpha bits bw y0 st).
  { apply outer_loop_order; [left; reflexivity |].
    split; [reflexivity |]. split; [reflexivity |].
    split; [intros k b _ Hk; cbn [bit_idx] in Hk; lia | reflexivity]. }
  apply Hinv.
Qed.

End Loops.
End Order.
End BitOrderFacts.

(** C2, amended. For every decoded host image of height [h] and width [w]
    and every message, [embed_watermark_dct_bytes] truncates the bit string
    of the message's base64 text to its first [ceil(h/8) * ceil(w/8)] bits
    (the number of 8x8 blocks of the reflect-padded luma plane), and it does
    not raise when the message has more bits than that: it consumes exactly
    the truncated bits, one block each, bit [k] of the bit string in block
    [k] of the padded plane in row-major order (the coefficient handed to
    [cv2.idct] for that block is the one the parity step computes from the
    block's transform and from bit [k]).  It raises
    [ValueError("Message empty or host too small")] exactly when the
    truncated bit string is empty. *)
Theorem C2_truncation_to_padded_blocks
    {Tr : Watermark.Transform} {Cd : Watermark.Codec}
    (img_bytes : list N) (ycbcr : list (list Watermark.pixel))
    (message : string) (alpha : Z) :
  Watermark.imdecode_ycrcb img_bytes = Some ycbcr ->
  let bits := take (WatermarkSpec.padded_blocks ycbcr)
                (WatermarkSpec.message_bits message) in
  let msg_b64 := Base64.b64encode (Py.encode_utf8 message) in
  let h := fst (Watermark.shape ycbcr) in
  let w := snd (Watermark.shape ycbcr) in
  let bw := ((w + 7) / 8)%nat in
  let y_p0 := Watermark.pad_reflect (map (map Watermark.luma) ycbcr)
                (Watermark.pad_amount h) (Watermark.pad_amount w) in
  (bits = [] <->
   Watermark.embed_watermark_dct_bytes img_bytes message alpha
   = Raise (ValueError "Message empty or host too small"))
  /\ (bits <> [] ->
      exists out st,
        Watermark.embed_ycrcb ycbcr message alpha = Ok (out, st, msg_b64)
        /\ Watermark.embed_watermark_dct_bytes img_bytes message alpha
           = Ok (Watermark.imencode_png out, msg_b64)
        /\ Watermark.bit_idx st = length bits
        /\ length (Watermark.written st) = length bits
        /\ (forall k b,
              (k < WatermarkSpec.padded_blocks ycbcr)%nat ->
              WatermarkSpec.message_bits message !! k = Some b ->
              Watermark.written st !! k
              = Some (Watermark.step_coeff alpha
                        (Watermark.dct
                           (Watermark.get_block y_p0 (k / bw) (k mod bw))) b))).
Proof.
  intros Hdec bits msg_b64 h w bw y_p0.
  pose proof (WatermarkFacts.embed_ycrcb_cases ycbcr message alpha) as Hc.
  cbv zeta in Hc. fold bits h w y_p0 in Hc.
  rewrite (WatermarkFacts.pad_amount_div w) in Hc. fold bw in Hc.
  unfold Watermark.embed_watermark_dct_bytes. rewrite Hdec.
  destruct bits as [|b0 bits'] eqn:Eb.
  - rewrite Hc. split; [tauto | congruence].
  - rewrite Hc. split; [split; discriminate |]. intros _.
    eexists _, _. split; [reflexivity |]. split; [reflexivity |].
    match goal with
    | |- context [Watermark.outer_loop ?a ?bs bw (seq 0 ?bh)
                    {| Watermark.y_p := y_p0; Watermark.bit_idx := 0;
                       Watermark.written := [] |}] =>
        destruct (WatermarkFacts.loops_consume_all a bs bh bw y_p0) as (H1 & H2 & _);
        [| pose proof (BitOrderFacts.loops_bit_order a bs bw y_p0 bh) as Horder ]
    end.
    + rewrite <- Eb. subst bits.
      rewrite length_take. unfold WatermarkSpec.padded_blocks.
      subst bw h w. rewrite !WatermarkFacts.pad_amount_div. lia.
    + split; [exact H1 |]. split; [exact H2 |].
      intros k b Hk Hb. cbv zeta in Horder. apply Horder.
      * rewrite <- Eb. subst bits. rewrite lookup_take_lt by exact Hk. exact Hb.
      * rewrite H1, <- Eb. subst bits. rewrite length_take.
        apply lookup_lt_Some in Hb. lia.
Qed.

Module FrameFacts.
Import Watermark.
Local Open Scope nat_scope.

Section Frame.
Context {Tr : Transform}.

(** writing the luma channel row by row *)
Lemma set_luma_row (row : list pixel) (vs : list sample) :
  length vs = length row ->
  map chroma (zip_with (fun v p => (v, snd (fst p), snd p)) vs row) = map chroma row
  /\ map luma (zip_with (fun v p => (v, snd (fst p), snd p)) vs row) = vs.
Proof.
  revert row. induction vs as [|v vs IH]; intros [|p row] Hlen; simpl in *;
    try discriminate; [auto |].
  destruct (IH row) as [Hc Hl]; [lia |]. rewrite Hc, Hl. auto.
Qed.

Lemma set_luma_planes (ycbcr : list (list pixel)) (y_wm : plane) :
  map length y_wm = map length ycbcr ->
  map (map chroma) (set_luma ycbcr y_wm) = map (map chroma) ycbcr
  /\ map (map luma) (set_luma ycbcr y_wm) = y_wm.
Proof.
  unfold set_luma. revert ycbcr.
  induction y_wm as [|vs y_wm IH]; intros [|row ycbcr] Hlen; simpl in *;
    try discriminate; [auto |].
  injection Hlen as Hrow Hrest.
  destruct (IH ycbcr Hrest) as [Hc Hl].
  destruct (set_luma_row row vs Hrow) as [Hc' Hl'].
  rewrite Hc, Hl, Hc', Hl'. auto.
Qed.

Lemma lengths_map_map {A B} (f : A -> B) (a : list (list A)) :
  map length (map (map f) a) = map length a.
Proof. rewrite map_map. apply map_ext. intros row. apply length_map. Qed.

(** cropping a plane that is large enough gives exactly [h] rows of [w] *)
Lemma lengths_crop {A} (a : list (list A)) (h w : nat) :
  h <= length a -> Forall (fun n => w <= n) (map length a) ->
  map length (map (take w) (take h a)) = repeat w h.
Proof.
  revert a. induction h as [|h IH]; intros a Hh Hw; [reflexivity |].
  destruct a as [|r a]; simpl in *; [lia |].
  inversion Hw as [|? ? Hr Hrest]; subst.
  rewrite length_take, IH by (assumption || lia). f_equal. lia.
Qed.

Lemma lengths_rectangular {A} (a : list (list A)) :
  rectangular a -> map length a = repeat (snd (shape a)) (fst (shape a)).
Proof.
  unfold rectangular. generalize (snd (shape a)) as w. intros w Hr. simpl.
  induction Hr as [|r a Hr _ IH]; simpl; [reflexivity |]. by rewrite Hr, IH.
Qed.

(** every row of the padded luma plane is at least as wide as the image,
    and the plane at least as high *)
Lemma pad_reflect_covers (ycbcr : list (list pixel)) :
  rectangular ycbcr ->
  let h := fst (shape ycbcr) in
  let w := snd (shape ycbcr) in
  let y_p0 := pad_reflect (map (map luma) ycbcr) (pad_amount h) (pad_amount w) in
  h <= length y_p0 /\ Forall (fun n => w <= n) (map length y_p0).
Proof.
  intros Hr h w y_p0. split.
  - subst y_p0. unfold pad_reflect, pad_reflect_after.
    rewrite length_app, !length_map. subst h. simpl. lia.
  - apply Forall_map. subst y_p0. unfold pad_reflect.
    apply WatermarkFacts.Forall_pad_reflect_after.
    apply Forall_map. apply Forall_map.
    eapply Forall_impl; [exact Hr |]. intros r Hlen. simpl.
    unfold pad_reflect_after. rewrite length_app, length_map. fold w in Hlen. simpl in Hlen. lia.
Qed.

End Frame.
End FrameFacts.

(** C9. Watermark embedding modifies only the luma plane: for every decoded
    (rectangular) host image and every message the embedder accepts, the
    (Y, Cr, Cb) array handed to the encoder has the two chroma planes of the
    decoded input, unchanged, and its luma plane is the padded, processed
    luma plane cropped back to the [h] rows and [w] columns of the input. *)
Theorem C9_only_luma_modified
    {Tr : Watermark.Transform} {Cd : Watermark.Codec}
    (img_bytes : list N) (ycbcr : list (list Watermark.pixel))
    (message : string) (alpha : Z) :
  Watermark.imdecode_ycrcb img_bytes = Some ycbcr ->
  Watermark.rectangular ycbcr ->
  is_ok (Watermark.embed_watermark_dct_bytes img_bytes message alpha) = true ->
  let h := fst (Watermark.shape ycbcr) in
  let w := snd (Watermark.shape ycbcr) in
  exists out st msg_b64,
    Watermark.embed_ycrcb ycbcr message alpha = Ok (out, st, msg_b64)
    /\ Watermark.embed_watermark_dct_bytes img_bytes message alpha
       = Ok (Watermark.imencode_png out, msg_b64)
    /\ map (map Watermark.chroma) out = map (map Watermark.chroma) ycbcr
    /\ map (map Watermark.luma) out = map (take w) (take h (Watermark.y_p st))
    /\ map length (map (map Watermark.luma) out) = repeat w h
    /\ map length out = map length ycbcr.
Proof.
  intros Hdec Hrect Hok h w.
  unfold Watermark.embed_watermark_dct_bytes in *. rewrite Hdec in *.
  pose proof (WatermarkFacts.embed_ycrcb_cases ycbcr message alpha) as Hc.
  cbv zeta in Hc. fold h w in Hc.
  destruct (take (WatermarkSpec.padded_blocks ycbcr)
              (WatermarkSpec.message_bits message)) as [|b bits] eqn:Eb.
  { rewrite Hc in Hok. discriminate Hok. }
  rewrite Hc. clear Hok.
  match goal with
  | |- context [Watermark.outer_loop ?a ?bs ?bw ?rows ?s] =>
      pose proof (WatermarkFacts.outer_loop_inv a bs bw rows s) as (Hy & _);
      set (st := Watermark.outer_loop a bs bw rows s) in *
  end.
  simpl in Hy.
  destruct (FrameFacts.pad_reflect_covers ycbcr Hrect) as [Hh Hw].
  fold h w in Hh, Hw.
  assert (Hcrop : map length (map (take w) (take h (Watermark.y_p st))) = repeat w h).
  { apply FrameFacts.lengths_crop.
    - rewrite <- (length_map length), Hy, length_map. exact Hh.
    - rewrite Hy. exact Hw. }
  assert (Hsame : map length (map (take w) (take h (Watermark.y_p st)))
                  = map length ycbcr).
  { rewrite Hcrop. symmetry. apply FrameFacts.lengths_rectangular. exact Hrect. }
  destruct (FrameFacts.set_luma_planes ycbcr _ Hsame) as [Hchroma Hluma].
  eexists _, st, _. split; [reflexivity |]. split; [reflexivity |].
  split; [exact Hchroma |]. split; [exact Hluma |].
  split; [rewrite Hluma; exact Hcrop |].
  rewrite <- (FrameFacts.lengths_map_map Watermark.chroma), Hchroma.
  apply FrameFacts.lengths_map_map.
Qed.

(** C9 at a solid 8x16 host and the message "hi". *)
Lemma C9_only_luma_modified_witness :
  let host := RealCv.solid 8 16 200 in
  exists (out : list (list (R * R * R))) (st : @Watermark.state RealCv.real_transform),
    Watermark.embed_ycrcb (Tr := RealCv.real_transform) host "hi"
      Watermark.default_alpha = Ok (out, st, "aGk=")
    /\ map (map (Watermark.chroma (Tr := RealCv.real_transform))) out
       = Watermark.constant_plane 8 16 (128, 128)%R
    /\ map length (map (map (Watermark.luma (Tr := RealCv.real_transform))) out)
       = repeat 16%nat 8%nat.
Proof.
  intros host.
  assert (Hrect : Watermark.rectangular (A := R * R * R) host) by (repeat constructor).
  destruct (C9_only_luma_modified
              (Tr := RealCv.real_transform) (Cd := RealCv.fixed_codec host)
              [] host "hi" Watermark.default_alpha eq_refl Hrect eq_refl)
    as (out & st & b64 & He & _ & Hc & _ & Hl & _).
  exists out, st. split; [| split].
  - rewrite He. f_equal. f_equal.
    pose proof (WatermarkFacts.embed_ycrcb_cases (Tr := RealCv.real_transform)
                  host "hi" Watermark.default_alpha) as Hcases.
    rewrite He in Hcases. cbv zeta in Hcases.
    change (take (WatermarkSpec.padded_blocks host) (WatermarkSpec.message_bits "hi"))
      with [false; true] in Hcases.
    cbv iota in Hcases.
    apply (f_equal (fun r => match r with Ok (_, _, b) => b | Raise _ => b64 end))
      in Hcases.
    exact Hcases.
  - rewrite Hc. reflexivity.
  - exact Hl.
Defined.

(** ** The real block transform and the parity step *)

Module RealCvFacts.
Import Watermark RealCv.
Local Open Scope R_scope.

Lemma np_round_IZR (z : Z) : np_round (IZR z) = z.
Proof.
  unfold np_round.
  assert (Hf : Zfloor (IZR z) = z) by (apply Zfloor_eq; Lra.lra).
  rewrite Hf. cbv zeta.
  destruct (Rlt_dec (IZR z - IZR z) (/ 2)) as [_ | Hn]; [reflexivity |].
  exfalso. apply Hn. Lra.lra.
Qed.

Lemma basis_dc (y : nat) : basis y 0 = 1.
Proof.
  unfold basis. simpl INR.
  replace ((2 * INR y + 1) * 0 * PI / 16) with 0 by Lra.lra. apply cos_0.
Qed.

(** the first vertical basis function is odd about the middle of the block *)
Lemma basis_mirror (x : nat) : (x <= 7)%nat -> basis (7 - x) 1 = - basis x 1.
Proof.
  intros Hx. unfold basis. rewrite minus_INR by exact Hx.
  rewrite <- Rtrigo_facts.cos_pi_minus. f_equal. simpl INR. Lra.lra.
Qed.

Lemma sum_basis_1 : sum8 (fun x => basis x 1) = 0.
Proof.
  unfold sum8, Stats.Rsum. cbn [seq map fold_right].
  change 7%nat with (7 - 0)%nat at 1. change 6%nat with (7 - 1)%nat at 1.
  change 5%nat with (7 - 2)%nat at 1. change 4%nat with (7 - 3)%nat at 1.
  rewrite !basis_mirror by lia. Lra.lra.
Qed.

Lemma coefficient_10 (b : list (list R)) :
  get2 (Tr := real_transform) (dct8 b) 1 0
  = / 4 * c_norm 1 * c_norm 0
    * sum8 (fun x => sum8 (fun y => at2 b x y * basis x 1 * basis y 0)).
Proof. reflexivity. Qed.

Lemma get2_set2_dct8 (b : list (list R)) (x : R) :
  get2 (Tr := real_transform) (set2 (Tr := real_transform) (dct8 b) 1 0 x) 1 0 = x.
Proof. reflexivity. Qed.

Lemma at2_constant (v : R) (x y : nat) :
  (x < 8)%nat -> (y < 8)%nat -> at2 (constant_plane 8 8 v) x y = v.
Proof.
  intros Hx Hy.
  do 8 (destruct x as [|x];
        [do 8 (destruct y as [|y]; [reflexivity |]); lia |]).
  lia.
Qed.

(** a constant block has no (row 1, column 0) component *)
Lemma dct8_constant_10 (v : R) :
  get2 (Tr := real_transform) (dct8 (constant_plane 8 8 v)) 1 0 = 0.
Proof.
  rewrite coefficient_10.
  assert (Hs : sum8 (fun x => sum8 (fun y =>
                 at2 (constant_plane 8 8 v) x y * basis x 1 * basis y 0))
               = 8 * v * sum8 (fun x => basis x 1)).
  { unfold sum8, Stats.Rsum. cbn [seq map fold_right].
    rewrite !basis_dc, !at2_constant by lia. Lra.lra. }
  rewrite Hs, sum_basis_1. Lra.lra.
Qed.


(** on a constant block the coefficient rounds to 0, and the parity step
    with [alpha = 4] leaves 0 (bit 0) or stores 4 (bit 1) *)
Lemma step_coeff_constant (v : R) (bit : bool) :
  np_round (step_coeff (Tr := real_transform) 4 (dct8 (constant_plane 8 8 v)) bit)
  = if bit then 4%Z else 0%Z.
Proof.
  unfold step_coeff. cbn [round_int real_transform of_int].
  rewrite dct8_constant_10, np_round_IZR.
  destruct bit; cbn [Z.b2z Z.modulo Z.eqb negb nudge Z.leb Z.compare Z.add].
  - change (0 mod 2 =? 1)%Z with false. cbn [negb].
    rewrite get2_set2_dct8. apply np_round_IZR.
  - change (0 mod 2 =? 0)%Z with true. cbn [negb].
    rewrite dct8_constant_10. apply np_round_IZR.
Qed.

End RealCvFacts.

(** C2 at a 4x4 host and the message "hi": one padded block, one bit, and
    it is the first bit of "aGk=", 0, that reaches the block: the
    coefficient stays 0 (the last bit, 1, would have stored 4). *)
Lemma C2_truncation_to_padded_blocks_witness :
  let host := RealCv.solid 4 4 128 in
  exists (out : list (list (R * R * R))) (st : @Watermark.state RealCv.real_transform),
    Watermark.embed_watermark_dct_bytes (Cd := RealCv.fixed_codec host)
      [] "hi" Watermark.default_alpha
    = Ok (Watermark.imencode_png (Codec := RealCv.fixed_codec host) out, "aGk=")
    /\ Watermark.bit_idx st = 1%nat
    /\ map RealCv.np_round (Watermark.written st) = [0%Z].
Proof.
  intros host.
  destruct (C2_truncation_to_padded_blocks
              (Tr := RealCv.real_transform) (Cd := RealCv.fixed_codec host)
              [] host "hi" Watermark.default_alpha eq_refl) as [_ H].
  destruct H as (out & st & _ & He & Hi & Hlen & Hbit); [discriminate |].
  exists out, st. split; [exact He |]. split; [exact Hi |].
  specialize (Hbit 0%nat false ltac:(vm_compute; lia) eq_refl).
  change (Watermark.get_block _ _ _) with (Watermark.constant_plane 8 8 128%R) in Hbit.
  change (length (take (WatermarkSpec.padded_blocks host)
                    (WatermarkSpec.message_bits "hi"))) with 1%nat in Hlen.
  destruct (Watermark.written st) as [|v [|v' vs]]; try discriminate Hlen.
  cbn [lookup list_lookup] in Hbit. injection Hbit as ->.
  cbn [map]. f_equal.
  apply (RealCvFacts.step_coeff_constant 128 false).
Defined.

Module ParityFacts.
Import Watermark.

Section Parity.
Context {Tr : Transform}.

Lemma get2_set2 (d : plane) (x : sample) :
  is_Some (d !! 1%nat ≫= (.!! 0%nat)) -> get2 (set2 d 1 0 x) 1 0 = x.
Proof.
  intros [c Hc]. unfold get2, set2.
  destruct (d !! 1%nat) as [row|] eqn:Hrow; [| discriminate].
  rewrite list_lookup_alter_eq, Hrow. simpl in *.
  rewrite list_lookup_insert_eq; [reflexivity |].
  apply lookup_lt_Some in Hc. exact Hc.
Qed.

Lemma odd_mod2 (z : Z) (bit : bool) :
  (z mod 2 =? Z.b2z bit)%Z = Bool.eqb (Z.odd z) bit.
Proof.
  rewrite Zmod_odd. destruct (Z.odd z), bit; reflexivity.
Qed.

(** with an even [alpha] the parity step never changes the parity *)
Lemma nudge_even (alpha c : Z) : Z.even alpha = true -> Z.odd (nudge alpha c) = Z.odd c.
Proof.
  intros Ha. unfold nudge.
  destruct (0 <=? c)%Z; [rewrite Z.odd_add | rewrite Z.odd_sub];
    rewrite <- (Z.negb_even alpha), Ha; apply xorb_false_r.
Qed.

(** with an odd [alpha] it always flips it *)
Lemma nudge_odd (alpha c : Z) : Z.odd alpha = true -> Z.odd (nudge alpha c) = negb (Z.odd c).
Proof.
  intros Ha. unfold nudge.
  destruct (0 <=? c)%Z; [rewrite Z.odd_add | rewrite Z.odd_sub];
    rewrite Ha; apply xorb_true_r.
Qed.

Lemma step_coeff_even_alpha (alpha : Z) (d : plane) (bit : bool) :
  Z.even alpha = true ->
  (forall z, round_int (of_int z) = z) ->
  is_Some (d !! 1%nat ≫= (.!! 0%nat)) ->
  Z.odd (round_int (step_coeff alpha d bit)) = Z.odd (round_int (get2 d 1 0)).
Proof.
  intros Ha Hround Hd. unfold step_coeff.
  destruct (negb _); [| reflexivity].
  rewrite get2_set2 by exact Hd. rewrite Hround. by apply nudge_even.
Qed.

Lemma step_coeff_odd_alpha (alpha : Z) (d : plane) (bit : bool) :
  Z.odd alpha = true ->
  (forall z, round_int (of_int z) = z) ->
  is_Some (d !! 1%nat ≫= (.!! 0%nat)) ->
  Z.odd (round_int (step_coeff alpha d bit)) = bit.
Proof.
  intros Ha Hround Hd. unfold step_coeff. rewrite odd_mod2.
  destruct (Bool.eqb _ bit) eqn:E; simpl.
  - by apply Bool.eqb_prop in E.
  - rewrite get2_set2 by exact Hd. rewrite Hround, nudge_odd by exact Ha.
    destruct (Z.odd (round_int (get2 d 1 0))), bit; simpl in *; congruence.
Qed.

(** every block appends [step_coeff] of its transform to the log *)
Lemma written_embed_block alpha bits i j (st : state) :
  written (embed_block alpha bits i j st)
  = written st ++ [step_coeff alpha (dct (get_block (y_p st) i j))
                     (default false (bits !! bit_idx st))].
Proof. reflexivity. Qed.

(** a solid 64x64 plane and the 32 bits of "hi": every block is still
    constant when the loops reach it, so each log entry is [step_coeff] of
    the transform of a constant block *)
Lemma solid64_written (v : sample) (alpha : Z) :
  written (outer_loop alpha WatermarkSpec.hi_bits 8 (seq 0 8)
             {| y_p := constant_plane 64 64 v; bit_idx := 0; written := [] |})
  = map (step_coeff alpha (dct (constant_plane 8 8 v))) WatermarkSpec.hi_bits.
Proof. vm_compute. reflexivity. Qed.

End Parity.
End ParityFacts.

(** The bits of "hi". *)
Example hi_bits_correct : WatermarkSpec.message_bits "hi" = WatermarkSpec.hi_bits.
Proof. reflexivity. Qed.

(** C1, evaluated at a failing input.  Host: a solid 64x64 image (64 luma
    blocks); message "hi", whose base64 text "aGk=" has 32 bits, fewer than
    the blocks available; default [alpha = 4].  Every block has a
    (row 1, column 0) coefficient that rounds to 0.  Where the bit is 0
    nothing is changed; where it is 1 the embedder stores 0 + 4 = 4, which
    is even again.  The parities read back from the 32 written coefficients
    are all 0: they are not the embedded bit string. *)
Theorem C1_parity_not_embedded_for_even_alpha :
  let host := RealCv.solid 64 64 128 in
  exists (out : list (list (R * R * R))) (st : @Watermark.state RealCv.real_transform),
    Watermark.embed_ycrcb (Tr := RealCv.real_transform) host "hi"
      Watermark.default_alpha = Ok (out, st, "aGk=")
    /\ WatermarkSpec.message_bits "hi" = WatermarkSpec.hi_bits
    /\ (length WatermarkSpec.hi_bits <= WatermarkSpec.padded_blocks host)%nat
    /\ Watermark.read_back st = repeat false 32
    /\ Watermark.read_back st <> WatermarkSpec.hi_bits.
Proof.
  intros host.
  pose proof (WatermarkFacts.embed_ycrcb_cases (Tr := RealCv.real_transform)
                host "hi" Watermark.default_alpha) as Hcases.
  cbv zeta in Hcases.
  change (take (WatermarkSpec.padded_blocks host) (WatermarkSpec.message_bits "hi"))
    with WatermarkSpec.hi_bits in Hcases.
  change (((Watermark.shape host).2 + Watermark.pad_amount (Watermark.shape host).2) `div` 8)%nat
    with 8%nat in Hcases.
  change (((Watermark.shape host).1 + Watermark.pad_amount (Watermark.shape host).1) `div` 8)%nat
    with 8%nat in Hcases.
  change (Watermark.pad_reflect (Tr := RealCv.real_transform)
            (map (map (Watermark.luma (Tr := RealCv.real_transform))) host) _ _)
    with (Watermark.constant_plane 64 64 128%R) in Hcases.
  unfold WatermarkSpec.hi_bits at 1 in Hcases. cbv iota in Hcases. fold WatermarkSpec.hi_bits in Hcases.
  eexists _, _. split; [exact Hcases |]. split; [reflexivity |].
  split; [vm_compute; lia |].
  assert (Hrb : Watermark.read_back (Tr := RealCv.real_transform)
                  (Watermark.outer_loop Watermark.default_alpha WatermarkSpec.hi_bits 8 (seq 0 8)
                     (@Watermark.Build_state RealCv.real_transform
                        (Watermark.constant_plane 64 64 128%R) 0 []))
                = repeat false 32).
  { unfold Watermark.read_back.
    rewrite (ParityFacts.solid64_written (Tr := RealCv.real_transform)).
    rewrite map_map. unfold Watermark.default_alpha.
    cbn [Watermark.round_int RealCv.real_transform Watermark.dct].
    unfold WatermarkSpec.hi_bits. cbn [map].
    rewrite !RealCvFacts.step_coeff_constant. reflexivity. }
  split; [exact Hrb |]. rewrite Hrb. discriminate.
Qed.

(** * Further properties of the code *)

(** ** Decision policy and resample detector *)

Module PolicyMore.
Import Policy.
Local Open Scope Q_scope.

Lemma Qle_bool_false (x y : Q) : Qle_bool x y = false <-> y < x.
Proof.
  rewrite <- not_true_iff_false, Qle_bool_iff. split; [apply Qnot_le_lt | apply Qlt_not_le].
Qed.

Lemma base_decision_cases (score : Q) :
  (base_decision score = BLOCK <-> 0.85 <= score)
  /\ (base_decision score = SUSPICIOUS <-> 0.55 <= score /\ score < 0.85)
  /\ (base_decision score = ALLOW <-> score < 0.55).
Proof.
  unfold base_decision, SCORE_BLOCK, SCORE_QUARANTINE.
  destruct (Qle_bool 0.85 score) eqn:Eb; [apply Qle_bool_iff in Eb | apply Qle_bool_false in Eb];
    (destruct (Qle_bool 0.55 score) eqn:Eq; [apply Qle_bool_iff in Eq | apply Qle_bool_false in Eq]);
    repeat split; intros; try discriminate; try lra; try reflexivity.
Qed.

Lemma allow_iff (score rdr_score : Q) (suspicious_boxes : list Ocr.box) :
  Policy.final_decision score rdr_score suspicious_boxes = Policy.ALLOW
  <-> (score < 0.55)%Q /\ (rdr_score < 0.5)%Q /\ suspicious_boxes = [].
Proof.
  unfold Policy.final_decision, Policy.escalate_ocr, Policy.escalate_rdr.
  pose proof (base_decision_cases score) as (Hb & Hs & Ha).
  destruct (Qle_bool 0.5 rdr_score) eqn:Er;
    [apply Qle_bool_iff in Er | apply Qle_bool_false in Er];
    destruct (Policy.base_decision score) eqn:Ed; destruct suspicious_boxes as [|b bs];
    simpl; split; try discriminate; try (intros (H1 & H2 & H3)); try discriminate;
    try (intros _; repeat split; try tauto; try lra);
    try (exfalso; lra); try reflexivity;
    try (destruct Ha as [_ Ha]; specialize (Ha H1); discriminate).
Qed.

End PolicyMore.

(** X1. The final decision is ALLOW exactly when nothing triggers: the
    stego score is below 0.55, the RDR score is below 0.5 and no OCR region
    matched a keyword. *)
Theorem X1_allow_iff_no_trigger
    (score rdr_score : Q) (suspicious_boxes : list Ocr.box) :
  Policy.final_decision score rdr_score suspicious_boxes = Policy.ALLOW
  <-> (score < 0.55)%Q /\ (rdr_score < 0.5)%Q /\ suspicious_boxes = [].
Proof. apply PolicyMore.allow_iff. Qed.

(** X2. The final decision is BLOCK exactly when the stego score is at
    least 0.85, or it is at least 0.55 and the RDR score is at least 0.5.
    Matched keywords play no part: they never turn a decision into BLOCK. *)
Theorem X2_block_iff
    (score rdr_score : Q) (suspicious_boxes : list Ocr.box) :
  Policy.final_decision score rdr_score suspicious_boxes = Policy.BLOCK
  <-> (0.85 <= score)%Q \/ ((0.55 <= score)%Q /\ (0.5 <= rdr_score)%Q).
Proof.
  unfold Policy.final_decision, Policy.escalate_ocr, Policy.escalate_rdr.
  pose proof (PolicyMore.base_decision_cases score) as (Hb & Hs & Ha).
  destruct (Qle_bool 0.5 rdr_score) eqn:Er;
    [apply Qle_bool_iff in Er | apply PolicyMore.Qle_bool_false in Er];
    destruct (Policy.base_decision score) eqn:Ed; destruct suspicious_boxes as [|b bs];
    simpl; split; try discriminate; try reflexivity; intros H.
  all: try (destruct Ha as [Ha _]; specialize (Ha eq_refl)).
  all: try (destruct Hs as [Hs _]; specialize (Hs eq_refl)).
  all: try (destruct Hb as [Hb _]; specialize (Hb eq_refl)).
  all: try (right; split; lra); try (left; lra); try (exfalso; lra).
Qed.

(** X3. Whenever the metadata scanner raises a flag and the analyzer scores
    are in their ranges (LSB entropy and blockiness non-negative, global
    entropy not below -2e-12), the stego score is above 0.59, so the
    decision is never ALLOW, whatever the RDR score and the OCR regions. *)
Theorem X3_metadata_flag_excludes_allow
    (lsb_entropy global_entropy blockiness rdr_score : Q)
    (flags : list string) (suspicious_boxes : list Ocr.box) :
  (0 <= lsb_entropy)%Q -> (- (2 # 1000000000000) <= global_entropy)%Q ->
  (0 <= blockiness)%Q -> flags <> [] ->
  let score := Policy.stego_score lsb_entropy global_entropy blockiness flags in
  (0.59 < score)%Q
  /\ Policy.final_decision score rdr_score suspicious_boxes <> Policy.ALLOW.
Proof.
  intros Hl Hg Hb Hf score.
  assert (Hs : (0.59 < score)%Q).
  { subst score. unfold Policy.stego_score, Policy.py_max, Policy.py_min, Policy.raw_score.
    destruct flags as [|f fs]; [congruence |].
    set (r := (0.35 * lsb_entropy + 0.15 * (global_entropy / 8) + 0.25 * blockiness + 0.6)%Q).
    assert (Hd : (global_entropy / 8 == global_entropy * (1 # 8))%Q) by (unfold Qdiv; reflexivity).
    assert (Hr : (0.59 < r)%Q) by (subst r; rewrite Hd; lra).
    destruct (Rdr.Qltb r 1) eqn:E1.
    - destruct (Rdr.Qltb 0 r) eqn:E0; [exact Hr |].
      apply PolicyFacts.Qltb_false in E0. lra.
    - destruct (Rdr.Qltb 0 1) eqn:E0; [lra |].
      apply PolicyFacts.Qltb_false in E0. lra. }
  split; [exact Hs |].
  intros Ha. apply PolicyMore.allow_iff in Ha. lra.
Qed.

Lemma X3_metadata_flag_excludes_allow_witness :
  (0.59 < Policy.stego_score 0 0 0 ["png_info:comment"])%Q
  /\ Policy.final_decision (Policy.stego_score 0 0 0 ["png_info:comment"]) 0 []
     <> Policy.ALLOW.
Proof.
  apply (X3_metadata_flag_excludes_allow 0 0 0 0 ["png_info:comment"] []);
    [vm_compute; discriminate | vm_compute; discriminate | vm_compute; discriminate
    | discriminate].
Defined.

Module RdrMore.
Import Rdr RdrSpec.
Local Open Scope Q_scope.

Lemma ratio_div0 (c : nat) : ratio c 0 == 0.
Proof. unfold ratio. simpl. unfold Qdiv, Qinv. simpl. ring. Qed.

(** the score against the threshold 0.5 and its range *)
Lemma score_threshold (outcomes : list trial) :
  let score := fst (rdr_inconsistency_score outcomes) in
  (0.5 <= score <-> 0 < frac outcomes /\ frac outcomes < 0.7)
  /\ 0 <= score <= 1.
Proof.
  intros score. subst score. rewrite RdrFacts.score_unfold. unfold frac.
  pose proof (RdrFacts.keyword_le_text outcomes) as Hcn.
  set (n := trials_with_text outcomes) in *.
  set (c := trials_with_keyword outcomes) in *.
  destruct n as [|n'].
  - assert (c = 0)%nat by lia. subst c. rewrite H.
    pose proof (ratio_div0 0) as H0. split; [| lra].
    split; [lra | intros [Hp _]; rewrite H0 in Hp; lra].
  - pose proof (RdrFacts.ratio_le_1 c (S n') ltac:(lia) Hcn) as H1.
    destruct c as [|c'].
    + pose proof (RdrFacts.ratio_zero (S n')) as H0. simpl andb. cbv iota.
      change (Nat.ltb 0 0) with false. cbv iota.
      split; [| lra]. split; [lra | intros [Hp _]; rewrite H0 in Hp; lra].
    + pose proof (RdrFacts.ratio_pos (S c') (S n') ltac:(lia) ltac:(lia)) as Hp.
      set (f := ratio (S c') (S n')) in *.
      change (Nat.ltb 0 (S c')) with true. simpl andb.
      destruct (Qltb f 0.7) eqn:E; cbv iota.
      * apply PolicyFacts.Qltb_true in E. split; [| lra]. split; [lra | lra].
      * apply PolicyFacts.Qltb_false in E. split; [| lra].
        split; [lra | intros [_ H7]; lra].
Qed.

Lemma filter_length_perm {A} (f : A -> bool) (l1 l2 : list A) :
  Permutation l1 l2 -> length (List.filter f l1) = length (List.filter f l2).
Proof.
  induction 1 as [| x l l' _ IH | x y l | l l' l'' _ IH1 _ IH2]; simpl.
  - reflexivity.
  - destruct (f x); simpl; congruence.
  - destruct (f x), (f y); reflexivity.
  - congruence.
Qed.

Lemma filter_perm {A} (f : A -> bool) (l1 l2 : list A) :
  Permutation l1 l2 -> Permutation (List.filter f l1) (List.filter f l2).
Proof.
  induction 1 as [| x l l' _ IH | x y l | l l' l'' _ IH1 _ IH2]; simpl.
  - constructor.
  - destruct (f x); [constructor |]; exact IH.
  - destruct (f x), (f y); try reflexivity. apply perm_swap.
  - etransitivity; eassumption.
Qed.

Lemma collect_filter (outcomes : list trial) :
  collect outcomes
  = omap (fun o => match o with Returned t => Some t | Raised => None end)
      (List.filter returned_text outcomes).
Proof.
  induction outcomes as [|[|t] rest IH]; simpl; [reflexivity | exact IH |].
  destruct (Py.nonempty t); simpl; [f_equal |]; exact IH.
Qed.

Lemma collect_perm (o1 o2 : list trial) :
  Permutation o1 o2 -> Permutation (collect o1) (collect o2).
Proof.
  intros Hp. rewrite !collect_filter.
  apply omap_Permutation. by apply filter_perm.
Qed.

Lemma examples_unfold (outcomes : list trial) :
  snd (rdr_inconsistency_score outcomes) = List.filter Ocr.suspicious (collect outcomes).
Proof.
  unfold rdr_inconsistency_score. destruct (collect outcomes); reflexivity.
Qed.

Lemma In_collect (outcomes : list trial) (t : string) :
  In t (collect outcomes) <-> In (Returned t) outcomes /\ Py.nonempty t = true.
Proof.
  induction outcomes as [|[|u] rest IH]; simpl.
  - tauto.
  - rewrite IH. intuition discriminate.
  - destruct (Py.nonempty u) eqn:E; simpl; rewrite IH; split.
    + intros [-> | [H1 H2]]; auto.
    + intros [[H | H] H2]; [injection H as ->; auto | auto].
    + intros [H1 H2]; auto.
    + intros [[H | H] H2]; [injection H as ->; congruence | auto].
Qed.

End RdrMore.

(** X4. The RDR score reaches the escalation threshold 0.5 exactly when
    some, but fewer than 70%, of the text-returning trials contain a
    suspicious keyword; and the score always lies between 0 and 1. *)
Theorem X4_rdr_escalation_iff_fragile (outcomes : list Rdr.trial) :
  let score := fst (Rdr.rdr_inconsistency_score outcomes) in
  ((0.5 <= score)%Q <->
   (0 < RdrSpec.frac outcomes)%Q /\ (RdrSpec.frac outcomes < 0.7)%Q)
  /\ (0 <= score <= 1)%Q.
Proof. apply RdrMore.score_threshold. Qed.

(** X5. The result does not depend on the order of the trials: permuting
    the trial outcomes gives the same score, and the same suspicious texts
    up to order. *)
Theorem X5_rdr_order_insensitive (outcomes1 outcomes2 : list Rdr.trial) :
  Permutation outcomes1 outcomes2 ->
  fst (Rdr.rdr_inconsistency_score outcomes1)
  = fst (Rdr.rdr_inconsistency_score outcomes2)
  /\ Permutation (snd (Rdr.rdr_inconsistency_score outcomes1))
       (snd (Rdr.rdr_inconsistency_score outcomes2)).
Proof.
  intros Hp. split.
  - rewrite !RdrFacts.score_unfold. cbv zeta.
    unfold RdrSpec.trials_with_text, RdrSpec.trials_with_keyword.
    rewrite (RdrMore.filter_length_perm RdrSpec.returned_text _ _ Hp).
    rewrite (RdrMore.filter_length_perm RdrSpec.has_keyword _ _ Hp).
    reflexivity.
  - rewrite !RdrMore.examples_unfold.
    apply RdrMore.filter_perm. by apply RdrMore.collect_perm.
Qed.

Lemma X5_rdr_order_insensitive_witness :
  fst (Rdr.rdr_inconsistency_score [Rdr.Returned "run"; Rdr.Raised; Rdr.Returned "x"])
  = fst (Rdr.rdr_inconsistency_score [Rdr.Raised; Rdr.Returned "run"; Rdr.Returned "x"]).
Proof.
  apply (X5_rdr_order_insensitive
           [Rdr.Returned "run"; Rdr.Raised; Rdr.Returned "x"]
           [Rdr.Raised; Rdr.Returned "run"; Rdr.Returned "x"]).
  apply perm_swap.
Defined.

(** X6. The suspicious texts returned beside the score are exactly the
    non-empty texts of trials that contain a keyword, one per such trial, and
    the list is empty exactly when the score is 0. *)
Theorem X6_rdr_examples (outcomes : list Rdr.trial) :
  let score := fst (Rdr.rdr_inconsistency_score outcomes) in
  let examples := snd (Rdr.rdr_inconsistency_score outcomes) in
  (forall t, In t examples <->
             In (Rdr.Returned t) outcomes /\ Ocr.suspicious t = true)
  /\ length examples = RdrSpec.trials_with_keyword outcomes
  /\ (examples = [] <-> (score == 0)%Q).
Proof.
  intros score examples. subst score examples.
  rewrite RdrMore.examples_unfold.
  split; [| split].
  - intros t. rewrite filter_In, RdrMore.In_collect. split.
    + tauto.
    + intros [H1 H2]. pose proof (RdrFacts.suspicious_nonempty t H2). tauto.
  - apply RdrFacts.collect_suspicious.
  - rewrite <- length_zero_iff_nil, RdrFacts.collect_suspicious.
    pose proof (RdrMore.score_threshold outcomes) as [Hthr Hrange]. cbv zeta in *.
    rewrite RdrFacts.score_unfold in *. cbv zeta in *.
    pose proof (RdrFacts.keyword_le_text outcomes) as Hcn.
    set (n := RdrSpec.trials_with_text outcomes) in *.
    set (c := RdrSpec.trials_with_keyword outcomes) in *.
    destruct n as [|n']; [split; [reflexivity | lia] |].
    destruct c as [|c']; [split; reflexivity |].
    pose proof (RdrFacts.ratio_pos (S c') (S n') ltac:(lia) ltac:(lia)) as Hp.
    change (Nat.ltb 0 (S c')) with true. simpl andb.
    split; [discriminate |].
    destruct (Rdr.Qltb (RdrSpec.ratio (S c') (S n')) 0.7) eqn:E; cbv iota; intros H0.
    + apply PolicyFacts.Qltb_true in E. exfalso. lra.
    + exfalso. lra.
Qed.

(** ** Text and keyword extractor *)

Module OcrMore.
Import Ocr OcrAux.

Lemma ocr_unfold (data : list region) :
  ocr_with_boxes data
  = (map box_text (omap box_of data), omap box_of data,
     List.filter (fun b => suspicious (box_text b)) (omap box_of data)).
Proof.
  induction data as [|r rest IH]; [reflexivity |].
  cbn [ocr_with_boxes]. rewrite IH.
  change (omap box_of (r :: rest))
    with (match box_of r with
          | Some y => y :: omap box_of rest
          | None => omap box_of rest
          end).
  cbv zeta.
  destruct (Py.nonempty (Py.strip (r_text r))) eqn:E.
  - assert (Hb : box_of r = Some (r_left r, r_top r, r_width r, r_height r,
                                  Py.strip (r_text r)))
      by (unfold box_of; rewrite E; reflexivity).
    rewrite Hb. cbn [map List.filter box_text snd].
    destruct (suspicious (Py.strip (r_text r))); reflexivity.
  - assert (Hb : box_of r = None) by (unfold box_of; rewrite E; reflexivity).
    rewrite Hb. reflexivity.
Qed.

Lemma prefix_app (k t : string) :
  String.prefix k t = true <-> exists post, t = k +:+ post.
Proof.
  revert t. induction k as [|c k IH]; intros t.
  - split; [intros _; exists t; reflexivity | intros _; destruct t; reflexivity].
  - destruct t as [|d t].
    + split; [discriminate | intros [post H]; discriminate].
    + cbn [String.prefix]. destruct (Ascii.ascii_dec c d) as [-> | Hne].
      * rewrite IH. split; intros [post H]; exists post.
        -- cbn [String.append]. by rewrite H.
        -- cbn [String.append] in H. by injection H.
      * split; [discriminate |].
        intros [post H]. cbn [String.append] in H. injection H as H1 H2. congruence.
Qed.

Lemma contains_app (k t : string) :
  Py.contains k t = true <-> exists pre post, t = pre +:+ k +:+ post.
Proof.
  induction t as [|d t IH].
  - cbn [Py.contains]. rewrite orb_false_r, prefix_app. split.
    + intros [post H]. exists EmptyString, post. exact H.
    + intros (pre & post & H). destruct pre; [by exists post |]. discriminate.
  - cbn [Py.contains]. rewrite orb_true_iff, prefix_app, IH. split.
    + intros [[post H] | (pre & post & H)].
      * exists EmptyString, post. exact H.
      * exists (String d pre), post. cbn [String.append]. by rewrite H.
    + intros (pre & post & H). destruct pre as [|e pre].
      * left. by exists post.
      * right. cbn [String.append] in H. injection H as _ H. by exists pre, post.
Qed.

Lemma lower_char_idem (c : ascii) : Py.lower_char (Py.lower_char c) = Py.lower_char c.
Proof. destruct c as [[] [] [] [] [] [] [] []]; reflexivity. Qed.

Lemma lower_idem (s : string) : Py.lower (Py.lower s) = Py.lower s.
Proof. induction s as [|c s IH]; simpl; [reflexivity |]. by rewrite lower_char_idem, IH. Qed.

End OcrMore.

(** X7. What [ocr_with_boxes] returns is consistent: the texts are the
    texts of the boxes, in order; every text is non-empty; there is at most
    one box per region; and the suspicious boxes are exactly the boxes whose
    text contains a keyword, in order, so every suspicious text is also among
    the texts. *)
Theorem X7_ocr_results_consistent (data : list Ocr.region) :
  let texts := fst (fst (Ocr.ocr_with_boxes data)) in
  let boxes := snd (fst (Ocr.ocr_with_boxes data)) in
  let suspicious_boxes := snd (Ocr.ocr_with_boxes data) in
  texts = map Ocr.box_text boxes
  /\ Forall (fun t => Py.nonempty t = true) texts
  /\ (length boxes <= length data)%nat
  /\ suspicious_boxes
     = List.filter (fun b => Ocr.suspicious (Ocr.box_text b)) boxes
  /\ (forall t, In t (map Ocr.box_text suspicious_boxes) -> In t texts).
Proof.
  intros texts boxes suspicious_boxes. subst texts boxes suspicious_boxes.
  rewrite OcrMore.ocr_unfold. cbn [fst snd].
  split; [reflexivity |]. split; [| split; [| split; [reflexivity |]]].
  - apply Forall_map. apply Forall_forall. intros b Hb.
    apply list_elem_of_omap in Hb as (r & _ & Hr).
    unfold OcrAux.box_of in Hr.
    destruct (Py.nonempty (Py.strip (Ocr.r_text r))) eqn:E; [| discriminate].
    injection Hr as <-. exact E.
  - induction data as [|r rest IH]; [simpl; lia |].
    change (omap OcrAux.box_of (r :: rest))
      with (match OcrAux.box_of r with
            | Some y => y :: omap OcrAux.box_of rest
            | None => omap OcrAux.box_of rest
            end).
    destruct (OcrAux.box_of r); cbn [length]; lia.
  - intros t Ht. apply in_map_iff in Ht as (b & <- & Hb).
    apply filter_In in Hb as [Hb _]. by apply in_map.
Qed.

(** X8. Keyword matching is a case-insensitive substring test: a text is
    suspicious exactly when its lower-cased form contains one of the nine
    keywords as a contiguous substring, and lower-casing the text first does
    not change the answer. *)
Theorem X8_keyword_match_is_substring (txt : string) :
  (Ocr.suspicious txt = true <->
   exists k pre post, In k Ocr.SUSPICIOUS_KEYWORDS
                      /\ Py.lower txt = pre +:+ k +:+ post)
  /\ Ocr.suspicious (Py.lower txt) = Ocr.suspicious txt.
Proof.
  split.
  - unfold Ocr.suspicious. rewrite existsb_exists. split.
    + intros (k & Hk & Hc). apply OcrMore.contains_app in Hc as (pre & post & H).
      by exists k, pre, post.
    + intros (k & pre & post & Hk & H). exists k. split; [exact Hk |].
      apply OcrMore.contains_app. by exists pre, post.
  - unfold Ocr.suspicious. by rewrite OcrMore.lower_idem.
Qed.

(** ** Metadata scanner *)

Module MetadataMore.
Import Metadata MetadataSpec.

(** of the four watch-list names only "comment" is its own lower-case
    form, so it is the only one the lower-cased key of the info dictionary
    can be equal to *)
Lemma lower_key_watched (k : string) :
  Py.str_in (Py.lower k) METADATA_SUSPICION_KEYS = true <-> Py.lower k = "comment".
Proof.
  unfold Py.str_in, METADATA_SUSPICION_KEYS. cbn [existsb].
  rewrite !orb_true_iff, !String.eqb_eq. split; [| tauto].
  intros [H | [H | [H | [H | H]]]]; [exact H | | | | discriminate H].
  all: pose proof (OcrMore.lower_idem k) as Hi; rewrite H in Hi; discriminate Hi.
Qed.

Lemma no_flags_iff TAGS exif info :
  metadata_flags TAGS exif info = [] <-> flag_list TAGS exif info = [].
Proof.
  split.
  - intros H. destruct (flag_list TAGS exif info) as [|l ls] eqn:E; [reflexivity |].
    assert (Hin : l ∈ metadata_flags TAGS exif info).
    { apply MetadataFacts.elem_of_metadata_flags. rewrite E. left. reflexivity. }
    rewrite H in Hin. by apply elem_of_nil in Hin.
  - intros H. unfold metadata_flags. rewrite H. reflexivity.
Qed.

End MetadataMore.

(** X9. For the info dictionary the name test is made on the lower-cased
    key against the mixed-case watch-list, so it succeeds only for keys that
    spell "comment" in some letter case: [png_info:<key>] is emitted exactly
    when the lower-cased key is "comment" or the value is a string longer
    than 512 characters.  A key [UserComment], [XPComment] or
    [ImageDescription] with a short value raises no flag. *)
Theorem X9_info_key_only_comment
    (TAGS : Z -> option string) (exif : option (list (Z * Metadata.value)))
    (info : list (string * Metadata.value)) :
  (forall key, "png_info:" +:+ key ∈ Metadata.metadata_flags TAGS exif info <->
               exists v, In (key, v) info
                         /\ (Py.lower key = "comment" \/ Metadata.is_long_str v = true))
  /\ (forall key v, In key ["UserComment"; "XPComment"; "ImageDescription"] ->
                    Metadata.is_long_str v = false ->
                    Metadata.metadata_flags TAGS None [(key, v)] = []).
Proof.
  split.
  - intros key.
    rewrite MetadataFacts.elem_of_metadata_flags, MetadataFacts.in_flag_list. split.
    + intros [(t & v & Hin & Hl) | (k & v & Hin & Hl)].
      * apply MetadataFacts.in_exif_entry_flags in Hl.
        destruct Hl as [[He _] | [[He _] | [He _]]];
          cbv [String.append] in He; discriminate He.
      * apply MetadataFacts.in_info_entry_flags in Hl as [He Hc].
        cbv [String.append] in He. injection He as ->.
        exists v. split; [exact Hin |].
        apply orb_true_iff in Hc as [Hc | Hc]; [left | right; exact Hc].
        by apply MetadataMore.lower_key_watched.
    + intros (v & Hin & Hc). right. exists key, v. split; [exact Hin |].
      apply MetadataFacts.in_info_entry_flags. split; [reflexivity |].
      apply orb_true_iff. destruct Hc as [Hc | Hc]; [left | right; exact Hc].
      by apply MetadataMore.lower_key_watched.
  - intros key v Hk Hv. apply MetadataMore.no_flags_iff.
    unfold Metadata.flag_list, Metadata.info_entry_flags. cbn [flat_map fst snd app].
    rewrite Hv.
    destruct Hk as [<- | [<- | [<- | []]]]; reflexivity.
Qed.

(** X10. The scanner reports no flag exactly when no EXIF entry is on the
    watch-list, holds raw bytes or holds a string longer than 512
    characters, and no info-dictionary entry has a key spelling "comment" or
    a string value longer than 512 characters. *)
Theorem X10_no_flags_iff_nothing_triggers
    (TAGS : Z -> option string) (exif : option (list (Z * Metadata.value)))
    (info : list (string * Metadata.value)) :
  Metadata.metadata_flags TAGS exif info = [] <->
  (forall t v, In (t, v) (MetadataSpec.exif_entries TAGS exif) ->
               Metadata.watched t = false /\ Metadata.is_bytes v = false
               /\ Metadata.is_long_str v = false)
  /\ (forall k v, In (k, v) info ->
                  Py.lower k <> "comment" /\ Metadata.is_long_str v = false).
Proof.
  rewrite MetadataMore.no_flags_iff. split.
  - intros Hnil. split.
    + intros t v Hin.
      assert (Hno : forall label, ~ In label (Metadata.exif_entry_flags t v)).
      { intros label Hl.
        assert (Hf : In label (Metadata.flag_list TAGS exif info)).
        { apply MetadataFacts.in_flag_list. left. by exists t, v. }
        rewrite Hnil in Hf. destruct Hf. }
      unfold Metadata.exif_entry_flags in Hno.
      destruct (Metadata.watched t); [exfalso; eapply Hno; left; reflexivity |].
      destruct (Metadata.is_bytes v); [exfalso; eapply Hno; left; reflexivity |].
      destruct (Metadata.is_long_str v); [exfalso; eapply Hno; left; reflexivity |].
      auto.
    + intros k v Hin.
      assert (Hno : forall label, ~ In label (Metadata.info_entry_flags k v)).
      { intros label Hl.
        assert (Hf : In label (Metadata.flag_list TAGS exif info)).
        { apply MetadataFacts.in_flag_list. right. by exists k, v. }
        rewrite Hnil in Hf. destruct Hf. }
      unfold Metadata.info_entry_flags in Hno.
      destruct (Py.str_in (Py.lower k) Metadata.METADATA_SUSPICION_KEYS) eqn:Ew;
        [exfalso; eapply Hno; left; reflexivity |].
      destruct (Metadata.is_long_str v); [exfalso; eapply Hno; left; reflexivity |].
      split; [| reflexivity]. intros Hc.
      apply MetadataMore.lower_key_watched in Hc. congruence.
  - intros [He Hi].
    destruct (Metadata.flag_list TAGS exif info) as [|l ls] eqn:E; [reflexivity |].
    exfalso.
    assert (Hin : In l (Metadata.flag_list TAGS exif info)) by (rewrite E; left; reflexivity).
    apply MetadataFacts.in_flag_list in Hin as [(t & v & Hin & Hl) | (k & v & Hin & Hl)].
    + destruct (He t v Hin) as (Hw & Hb & Hlg).
      apply MetadataFacts.in_exif_entry_flags in Hl.
      destruct Hl as [[_ Hc] | [[_ Hc] | [_ Hc]]]; congruence.
    + destruct (Hi k v Hin) as (Hc & Hlg).
      apply MetadataFacts.in_info_entry_flags in Hl as [_ Hl].
      apply orb_true_iff in Hl as [Hl | Hl]; [| congruence].
      by apply MetadataMore.lower_key_watched in Hl.
Qed.

Module DedupFacts.
Import Metadata.
Local Open Scope nat_scope.

Lemma length_exif_entry_flags (t : tag) (v : value) :
  length (exif_entry_flags t v) <= 3.
Proof.
  unfold exif_entry_flags.
  destruct (watched t), (is_bytes v), (is_long_str v); simpl; lia.
Qed.

Lemma length_info_entry_flags (k : string) (v : value) :
  length (info_entry_flags k v) <= 1.
Proof.
  unfold info_entry_flags.
  destruct (Py.str_in (Py.lower k) METADATA_SUSPICION_KEYS || is_long_str v); simpl; lia.
Qed.

Lemma length_flat_map_le {A B} (f : A -> list B) (n : nat) (l : list A) :
  (forall a, length (f a) <= n) -> length (flat_map f l) <= n * length l.
Proof.
  intros Hf. induction l as [|a l IH]; simpl; [lia |].
  rewrite length_app. specialize (Hf a). lia.
Qed.

Lemma length_flag_list TAGS exif info :
  length (flag_list TAGS exif info)
  <= 3 * length (MetadataSpec.exif_entries TAGS exif) + length info.
Proof.
  unfold flag_list, MetadataSpec.exif_entries. rewrite length_app.
  pose proof (length_flat_map_le (fun e : string * value => info_entry_flags (fst e) (snd e))
                1 info (fun e => length_info_entry_flags _ _)) as Hi.
  destruct exif as [entries|]; [| simpl; lia].
  pose proof (length_flat_map_le
                (fun e : Z * value => exif_entry_flags (resolve TAGS (fst e)) (snd e))
                3 entries (fun e => length_exif_entry_flags _ _)) as He.
  rewrite length_map. lia.
Qed.

End DedupFacts.

(** X20. The flag list has no repetition, whatever the number of entries
    that produce the same label, and it is never longer than three flags for
    each EXIF entry plus one for each entry of the info dictionary. *)
Theorem X20_flags_without_repetition
    (TAGS : Z -> option string) (exif : option (list (Z * Metadata.value)))
    (info : list (string * Metadata.value)) :
  NoDup (Metadata.metadata_flags TAGS exif info)
  /\ (length (Metadata.metadata_flags TAGS exif info)
      <= length (Metadata.flag_list TAGS exif info))%nat
  /\ (length (Metadata.metadata_flags TAGS exif info)
      <= 3 * length (MetadataSpec.exif_entries TAGS exif) + length info)%nat.
Proof.
  assert (Hnd : NoDup (Metadata.metadata_flags TAGS exif info))
    by apply NoDup_elements.
  assert (Hle : (length (Metadata.metadata_flags TAGS exif info)
                 <= length (Metadata.flag_list TAGS exif info))%nat).
  { apply submseteq_length, NoDup_submseteq; [exact Hnd |].
    intros label Hl. apply list_elem_of_In.
    by apply MetadataFacts.elem_of_metadata_flags. }
  split; [exact Hnd |]. split; [exact Hle |].
  pose proof (DedupFacts.length_flag_list TAGS exif info). lia.
Qed.

(** ** Message encoding and capacity *)

Module EncodingFacts.
Local Open Scope nat_scope.

(** lists taken three elements at a time *)
Lemma triple_ind {A} (P : list A -> Prop) :
  P [] -> (forall a, P [a]) -> (forall a b, P [a; b]) ->
  (forall a b c rest, P rest -> P (a :: b :: c :: rest)) ->
  forall l, P l.
Proof.
  intros H0 H1 H2 H3 l.
  enough (P l /\ (forall a, P (a :: l)) /\ (forall a b, P (a :: b :: l))) by tauto.
  induction l as [|x l (IH0 & IH1 & IH2)]; [auto |].
  split; [apply IH1 |]. split; [intros a; apply IH2 |].
  intros a b. apply H3. exact IH0.
Qed.

Lemma b64encode_length (bs : list N) :
  String.length (Base64.b64encode bs) = 4 * ((length bs + 2) / 3).
Proof.
  induction bs as [| a | a b | a b c rest IH] using triple_ind; try reflexivity.
  cbn [Base64.b64encode String.length length]. rewrite IH.
  replace (S (S (S (length rest))) + 2) with (1 * 3 + (length rest + 2)) by lia.
  rewrite Nat.div_add_l by lia. lia.
Qed.

Lemma length_list_ascii (s : string) : length (list_ascii_of_string s) = String.length s.
Proof. induction s as [|c s IH]; simpl; [reflexivity | by rewrite IH]. Qed.

Lemma bits_of_length (s : string) :
  length (Watermark.bits_of s) = 8 * String.length s.
Proof.
  unfold Watermark.bits_of. rewrite <- length_list_ascii.
  induction (list_ascii_of_string s) as [|c l IH]; [reflexivity |].
  cbn [flat_map]. rewrite length_app, IH. cbn [Py.format_08b map length]. lia.
Qed.

Lemma encode_utf8_nil (s : string) : Py.encode_utf8 s = [] <-> s = EmptyString.
Proof.
  destruct s as [|c s]; [tauto |]. split; [| discriminate].
  cbn [Py.encode_utf8]. unfold Py.utf8_char.
  destruct (Py.code c <? 128)%N; discriminate.
Qed.

(** the number of bits of a message: 32 for each started group of three
    UTF-8 bytes *)
Lemma message_bits_length (message : string) :
  length (WatermarkSpec.message_bits message)
  = 32 * ((length (Py.encode_utf8 message) + 2) / 3).
Proof.
  unfold WatermarkSpec.message_bits. rewrite bits_of_length, b64encode_length. lia.
Qed.

Lemma message_bits_nil (message : string) :
  WatermarkSpec.message_bits message = [] <-> message = EmptyString.
Proof.
  rewrite <- length_zero_iff_nil, message_bits_length, <- encode_utf8_nil,
    <- (length_zero_iff_nil (Py.encode_utf8 message)).
  set (n := length (Py.encode_utf8 message)).
  split; intros H; [| rewrite H; reflexivity].
  destruct n as [|n']; [reflexivity | exfalso].
  assert (1 <= (S n' + 2) / 3) by (apply Nat.div_le_lower_bound; lia). lia.
Qed.

Lemma padded_blocks_pos {A} (host : list (list A)) :
  0 < fst (Watermark.shape host) -> 0 < snd (Watermark.shape host) ->
  0 < WatermarkSpec.padded_blocks host.
Proof.
  intros Hh Hw. unfold WatermarkSpec.padded_blocks.
  apply Nat.mul_pos_pos; apply Nat.div_str_pos; lia.
Qed.

End EncodingFacts.

(** X11. For a decoded host with at least one pixel the embedder raises
    exactly when the message is the empty string; every non-empty message is
    embedded (in part, when it is longer than the host has blocks). *)
Theorem X11_embed_fails_iff_message_empty
    {Tr : Watermark.Transform} {Cd : Watermark.Codec}
    (img_bytes : list N) (ycbcr : list (list Watermark.pixel))
    (message : string) (alpha : Z) :
  Watermark.imdecode_ycrcb img_bytes = Some ycbcr ->
  (0 < fst (Watermark.shape ycbcr))%nat -> (0 < snd (Watermark.shape ycbcr))%nat ->
  (Watermark.embed_watermark_dct_bytes img_bytes message alpha
   = Raise (ValueError "Message empty or host too small")
   <-> message = EmptyString)
  /\ (is_ok (Watermark.embed_watermark_dct_bytes img_bytes message alpha) = false
      <-> message = EmptyString).
Proof.
  intros Hdec Hh Hw.
  pose proof (WatermarkFacts.embed_ycrcb_cases ycbcr message alpha) as Hc.
  cbv zeta in Hc.
  pose proof (EncodingFacts.padded_blocks_pos ycbcr Hh Hw) as Hp.
  pose proof (EncodingFacts.message_bits_nil message) as Hnil.
  unfold Watermark.embed_watermark_dct_bytes. rewrite Hdec, Hc.
  destruct (WatermarkSpec.padded_blocks ycbcr) as [|n]; [lia |].
  destruct (WatermarkSpec.message_bits message) as [|b bits]; cbn [take].
  - split; (split; [intros _; by apply Hnil | reflexivity]).
  - split; (split; [discriminate | intros H; apply Hnil in H; discriminate]).
Qed.

(** X11 at a solid 4x4 host: the empty message is refused, "hi" is not. *)
Lemma X11_embed_fails_iff_message_empty_witness :
  is_ok (Watermark.embed_watermark_dct_bytes
           (Cd := RealCv.fixed_codec (RealCv.solid 4 4 128)) [] EmptyString 4) = false
  /\ is_ok (Watermark.embed_watermark_dct_bytes
              (Cd := RealCv.fixed_codec (RealCv.solid 4 4 128)) [] "hi" 4) <> false.
Proof.
  split.
  - destruct (X11_embed_fails_iff_message_empty
                (Tr := RealCv.real_transform)
                (Cd := RealCv.fixed_codec (RealCv.solid 4 4 128))
                [] (RealCv.solid 4 4 128) EmptyString 4 eq_refl) as [_ [_ H]];
      [simpl; lia | simpl; lia |]. by apply H.
  - destruct (X11_embed_fails_iff_message_empty
                (Tr := RealCv.real_transform)
                (Cd := RealCv.fixed_codec (RealCv.solid 4 4 128))
                [] (RealCv.solid 4 4 128) "hi" 4 eq_refl) as [_ [H _]];
      [simpl; lia | simpl; lia |]. intros Hf. apply H in Hf. discriminate Hf.
Defined.

(** X12. The number of blocks the embedder writes is the smaller of the
    message's bit count, 32 for each started group of three UTF-8 bytes, and
    the number of 8x8 blocks of the padded plane; it raises exactly when
    that number is 0. *)
Theorem X12_blocks_written
    {Tr : Watermark.Transform} (ycbcr : list (list Watermark.pixel))
    (message : string) (alpha : Z) :
  let used := Nat.min (32 * ((length (Py.encode_utf8 message) + 2) / 3))
                (WatermarkSpec.padded_blocks ycbcr) in
  match Watermark.embed_ycrcb ycbcr message alpha with
  | Ok (_, st, _) =>
      Watermark.bit_idx st = used /\ length (Watermark.written st) = used
      /\ (0 < used)%nat
  | Raise _ => used = 0%nat
  end.
Proof.
  intros used.
  pose proof (WatermarkFacts.embed_ycrcb_cases ycbcr message alpha) as Hc.
  cbv zeta in Hc. rewrite Hc.
  assert (Hlen : length (take (WatermarkSpec.padded_blocks ycbcr)
                           (WatermarkSpec.message_bits message)) = used).
  { rewrite length_take, EncodingFacts.message_bits_length. subst used. lia. }
  destruct (take (WatermarkSpec.padded_blocks ycbcr)
              (WatermarkSpec.message_bits message)) as [|b bits] eqn:Eb.
  - simpl in Hlen. congruence.
  - match goal with
    | |- context [Watermark.outer_loop ?a ?bs ?bw (seq 0 ?bh)
                    {| Watermark.y_p := ?y0; Watermark.bit_idx := 0;
                       Watermark.written := [] |}] =>
        destruct (WatermarkFacts.loops_consume_all a bs bh bw y0) as (H1 & H2 & _)
    end.
    + rewrite Hlen. subst used. unfold WatermarkSpec.padded_blocks.
      rewrite !WatermarkFacts.pad_amount_div. lia.
    + rewrite H1, H2, Hlen. repeat split. rewrite <- Hlen. simpl. lia.
Qed.

(** ** Reading the bits back with an odd strength *)

Module ReadBackFacts.
Import Watermark ReadBack.
Local Open Scope nat_scope.

Section OddAlpha.
Context {Tr : Transform}.
Variable alpha : Z.
Variable bits : list bool.
Hypothesis alpha_odd : Z.odd alpha = true.
Hypothesis round_of_int : forall z, round_int (of_int z) = z.
Hypothesis dct_has_10 : forall b, is_Some (dct b !! 1 ≫= (.!! 0)).

Lemma embed_block_prefix i j (st : state) :
  bit_idx st < length bits -> prefix_inv bits st -> prefix_inv bits (embed_block alpha bits i j st).
Proof using alpha_odd round_of_int dct_has_10.
  intros Hlt [Hrb Hle]. unfold prefix_inv.
  destruct (lookup_lt_is_Some_2 bits (bit_idx st) Hlt) as [b Hb].
  split; [| simpl; lia].
  unfold read_back. rewrite ParityFacts.written_embed_block, map_app.
  fold (read_back st). rewrite Hrb. cbn [map bit_idx embed_block].
  rewrite (take_S_r bits (bit_idx st) b Hb). f_equal.
  rewrite Hb. cbn [default]. f_equal.
  apply ParityFacts.step_coeff_odd_alpha; auto.
Qed.

Lemma inner_loop_prefix i js (st : state) :
  prefix_inv bits st -> prefix_inv bits (inner_loop alpha bits i js st).
Proof using alpha_odd round_of_int dct_has_10.
  revert st. induction js as [|j js IH]; intros st Hinv; [exact Hinv |].
  cbn [inner_loop]. destruct (Nat.leb_spec (length bits) (bit_idx st)); [exact Hinv |].
  apply IH. by apply embed_block_prefix.
Qed.

Lemma outer_loop_prefix bw rows (st : state) :
  prefix_inv bits st -> prefix_inv bits (outer_loop alpha bits bw rows st).
Proof using alpha_odd round_of_int dct_has_10.
  revert st. induction rows as [|i rows IH]; intros st Hinv; [exact Hinv |].
  cbn [outer_loop]. cbv zeta.
  destruct (length bits <=? bit_idx (inner_loop alpha bits i (seq 0 bw) st)).
  - by apply inner_loop_prefix.
  - apply IH. by apply inner_loop_prefix.
Qed.

End OddAlpha.

Lemma dct8_has_10 (b : list (list R)) :
  is_Some (dct (Transform := RealCv.real_transform) b !! 1 ≫= (.!! 0)).
Proof. eexists. reflexivity. Qed.

End ReadBackFacts.

(** X13. With an odd [alpha] the embedding can be read back: for every host
    and message, the parities of the rounded coefficients handed to
    [cv2.idct] are exactly the truncated bit string that was embedded.
    (The transform must return a block that has a (row 1, column 0) entry,
    and storing an integer and rounding it must give the integer back.) *)
Theorem X13_odd_alpha_reads_back
    {Tr : Watermark.Transform} (ycbcr : list (list Watermark.pixel))
    (message : string) (alpha : Z) :
  Z.odd alpha = true ->
  (forall z, Watermark.round_int (Watermark.of_int z) = z) ->
  (forall b, is_Some (Watermark.dct b !! 1%nat ≫= (.!! 0%nat))) ->
  match Watermark.embed_ycrcb ycbcr message alpha with
  | Ok (_, st, _) =>
      Watermark.read_back st
      = take (WatermarkSpec.padded_blocks ycbcr) (WatermarkSpec.message_bits message)
  | Raise _ =>
      take (WatermarkSpec.padded_blocks ycbcr) (WatermarkSpec.message_bits message) = []
  end.
Proof.
  intros Ha Hr Hd.
  pose proof (WatermarkFacts.embed_ycrcb_cases ycbcr message alpha) as Hc.
  cbv zeta in Hc. rewrite Hc.
  set (bits := take (WatermarkSpec.padded_blocks ycbcr)
                 (WatermarkSpec.message_bits message)) in *.
  destruct bits as [|b bs] eqn:Eb; [reflexivity |]. rewrite <- Eb.
  match goal with
  | |- context [Watermark.outer_loop ?a ?bits' ?bw (seq 0 ?bh)
                  {| Watermark.y_p := ?y0; Watermark.bit_idx := 0;
                     Watermark.written := [] |}] =>
      pose proof (WatermarkFacts.loops_consume_all a bits bh bw y0) as Hl;
      pose proof (ReadBackFacts.outer_loop_prefix a bits Ha Hr Hd bw (seq 0 bh)
                    {| Watermark.y_p := y0; Watermark.bit_idx := 0;
                       Watermark.written := [] |}) as Hp
  end.
  rewrite Eb in *.
  destruct Hl as (Hi & _ & _).
  { rewrite <- Eb. subst bits. rewrite length_take. unfold WatermarkSpec.padded_blocks.
    rewrite !WatermarkFacts.pad_amount_div. lia. }
  destruct Hp as [Hrb _]; [split; [reflexivity | simpl; lia] |].
  rewrite Hrb, Hi. apply firstn_all.
Qed.

Lemma X13_odd_alpha_reads_back_witness :
  match Watermark.embed_ycrcb (Tr := RealCv.real_transform)
          (RealCv.solid 8 16 128) "hi" 5 with
  | Ok (_, st, _) => Watermark.read_back st = [false; true]
  | Raise _ => False
  end.
Proof.
  pose proof (X13_odd_alpha_reads_back (Tr := RealCv.real_transform)
                (RealCv.solid 8 16 128) "hi" 5 eq_refl
                RealCvFacts.np_round_IZR ReadBackFacts.dct8_has_10) as H.
  pose proof (WatermarkFacts.embed_ycrcb_cases (Tr := RealCv.real_transform)
                (RealCv.solid 8 16 128) "hi" 5) as Hc.
  cbv zeta in Hc.
  change (take (WatermarkSpec.padded_blocks (RealCv.solid 8 16 128))
            (WatermarkSpec.message_bits "hi")) with [false; true] in *.
  cbv iota in Hc. rewrite Hc in *. exact H.
Defined.

(** ** Locality of the embedding *)

Module LocalityFacts.
Import Watermark.
Local Open Scope nat_scope.

Section Locality.
Context {Tr : Transform}.

Lemma inner_loop_cell alpha bits i js (st : state) (r c : nat) :
  (forall k j, js !! k = Some j -> bit_idx st + k < length bits ->
               r / 8 <> i \/ c / 8 <> j) ->
  y_p (inner_loop alpha bits i js st) !! r ≫= (.!! c) = y_p st !! r ≫= (.!! c).
Proof.
  revert st. induction js as [|j js IH]; intros st Hv; [reflexivity |].
  cbn [inner_loop]. destruct (Nat.leb_spec (length bits) (bit_idx st)); [reflexivity |].
  rewrite IH.
  - cbn [embed_block y_p]. apply BitOrderFacts.lookup_set_block. apply (Hv 0 j); [reflexivity | lia].
  - intros k j' Hk Hlt. apply (Hv (S k) j'); [exact Hk |].
    cbn [embed_block bit_idx] in Hlt. lia.
Qed.

Lemma outer_loop_cell alpha bits bw rows (st : state) (r c : nat) :
  (forall m i k, rows !! m = Some i -> k < bw ->
                 bit_idx st + m * bw + k < length bits -> r / 8 <> i \/ c / 8 <> k) ->
  y_p (outer_loop alpha bits bw rows st) !! r ≫= (.!! c) = y_p st !! r ≫= (.!! c).
Proof.
  revert st. induction rows as [|i rows IH]; intros st Hv; [reflexivity |].
  cbn [outer_loop]. cbv zeta.
  assert (Hin : y_p (inner_loop alpha bits i (seq 0 bw) st) !! r ≫= (.!! c)
                = y_p st !! r ≫= (.!! c)).
  { apply inner_loop_cell. intros k j Hk Hlt.
    apply lookup_seq in Hk as [-> Hk]. apply (Hv 0 i k); [reflexivity | lia | lia]. }
  pose proof (WatermarkFacts.inner_loop_idx alpha bits i (seq 0 bw) st) as Hidx.
  rewrite length_seq in Hidx.
  destruct (Nat.leb_spec (length bits)
              (bit_idx (inner_loop alpha bits i (seq 0 bw) st))); [exact Hin |].
  rewrite IH; [exact Hin |].
  intros m i' k Hm Hk Hlt. apply (Hv (S m) i' k); [exact Hm | exact Hk |]. lia.
Qed.

(** reflect padding keeps the cells of the original plane *)
Lemma lookup_pad_reflect (y : plane) (ph pw r c : nat) :
  is_Some (y !! r ≫= (.!! c)) ->
  pad_reflect y ph pw !! r ≫= (.!! c) = y !! r ≫= (.!! c).
Proof.
  intros Hs. unfold pad_reflect, pad_reflect_after.
  destruct (y !! r) as [row|] eqn:Er; [| by destruct Hs].
  rewrite lookup_app_l by (rewrite length_map; eapply lookup_lt_Some; exact Er).
  rewrite list_lookup_fmap, Er. cbn [fmap option_fmap option_map mbind option_bind] in *.
  apply lookup_app_l. apply lookup_lt_is_Some. exact Hs.
Qed.

(** cropping keeps the cells inside the crop *)
Lemma lookup_crop {A} (a : list (list A)) (h w r c : nat) :
  r < h -> c < w ->
  map (take w) (take h a) !! r ≫= (.!! c) = a !! r ≫= (.!! c).
Proof.
  intros Hr Hc. rewrite list_lookup_fmap, lookup_take_lt by exact Hr.
  destruct (a !! r) as [row|]; [| reflexivity].
  cbn [fmap option_fmap option_map mbind option_bind]. by apply lookup_take_lt.
Qed.

(** a pixel whose luma is written back with its own value is unchanged *)
Lemma lookup_set_luma (ycbcr : list (list pixel)) (y_wm : plane) (r c : nat) :
  y_wm !! r ≫= (.!! c) = map (map luma) ycbcr !! r ≫= (.!! c) ->
  set_luma ycbcr y_wm !! r ≫= (.!! c) = ycbcr !! r ≫= (.!! c).
Proof.
  unfold set_luma. rewrite lookup_zip_with, !list_lookup_fmap.
  destruct (y_wm !! r) as [vs|], (ycbcr !! r) as [row|];
    cbn [fmap option_fmap option_map mbind option_bind]; try reflexivity.
  - rewrite lookup_zip_with, list_lookup_fmap.
    destruct (vs !! c) as [v|], (row !! c) as [[[py pcr] pcb]|];
      cbn [fmap option_fmap option_map mbind option_bind];
      intros H; try reflexivity; try discriminate H.
    injection H as ->. reflexivity.
  - rewrite list_lookup_fmap. destruct (row !! c); [discriminate | reflexivity].
Qed.

End Locality.

End LocalityFacts.

(** X14. The embedder is local: a pixel of the host whose 8x8 block comes,
    in row-major block order, after the last embedded bit is handed to the
    encoder unchanged, luma and chroma alike.  ([h] and [w] are the host's
    height and width; a row of blocks has [ceil(w/8)] blocks.) *)
Theorem X14_pixels_beyond_message_unchanged
    {Tr : Watermark.Transform} (ycbcr : list (list Watermark.pixel))
    (message : string) (alpha : Z) (r c : nat) :
  Watermark.rectangular ycbcr ->
  (r < fst (Watermark.shape ycbcr))%nat ->
  (c < snd (Watermark.shape ycbcr))%nat ->
  (length (WatermarkSpec.message_bits message)
   <= (r / 8) * ((snd (Watermark.shape ycbcr) + 7) / 8) + c / 8)%nat ->
  match Watermark.embed_ycrcb ycbcr message alpha with
  | Ok (out, _, _) => out !! r ≫= (.!! c) = ycbcr !! r ≫= (.!! c)
  | Raise _ => message = EmptyString
  end.
Proof.
  intros Hrect Hr Hc Hlen.
  pose proof (WatermarkFacts.embed_ycrcb_cases ycbcr message alpha) as Hcases.
  cbv zeta in Hcases. rewrite Hcases. clear Hcases.
  set (h := fst (Watermark.shape ycbcr)) in *.
  set (w := snd (Watermark.shape ycbcr)) in *.
  assert (Hcell : is_Some (map (map Watermark.luma) ycbcr !! r ≫= (.!! c))).
  { rewrite list_lookup_fmap.
    destruct (lookup_lt_is_Some_2 ycbcr r Hr) as [row Hrow]. rewrite Hrow.
    cbn [fmap option_fmap option_map mbind option_bind].
    apply lookup_lt_is_Some. rewrite length_map.
    unfold Watermark.rectangular in Hrect. rewrite Forall_forall in Hrect.
    rewrite (Hrect row); [exact Hc |]. eapply list_elem_of_lookup_2. exact Hrow. }
  destruct (take (WatermarkSpec.padded_blocks ycbcr)
              (WatermarkSpec.message_bits message)) as [|b bits] eqn:Eb.
  - apply EncodingFacts.message_bits_nil.
    apply (f_equal length) in Eb. rewrite length_take in Eb. cbn [length] in Eb.
    apply length_zero_iff_nil.
    assert (0 < WatermarkSpec.padded_blocks ycbcr)%nat
      by (apply EncodingFacts.padded_blocks_pos; fold h; fold w; lia).
    lia.
  - rewrite <- Eb.
    apply LocalityFacts.lookup_set_luma.
    rewrite LocalityFacts.lookup_crop by assumption.
    rewrite LocalityFacts.outer_loop_cell.
    + cbn [Watermark.y_p]. by apply LocalityFacts.lookup_pad_reflect.
    + intros m i k Hm Hk Hlt. apply lookup_seq in Hm as [-> Hm].
      cbn [Watermark.bit_idx] in Hlt. rewrite length_take in Hlt.
      rewrite WatermarkFacts.pad_amount_div in *.
      destruct (Nat.eq_dec (r / 8) m) as [<- |]; [| by left].
      destruct (Nat.eq_dec (c / 8) k) as [<- |]; [| by right].
      exfalso. lia.
Qed.

Lemma X14_pixels_beyond_message_unchanged_witness :
  match Watermark.embed_ycrcb (Tr := RealCv.real_transform)
          (RealCv.solid 48 48 128) "hi" Watermark.default_alpha with
  | Ok (out, _, _) => out !! 47%nat ≫= (.!! 47%nat) = Some (128, 128, 128)%R
  | Raise _ => "hi" = EmptyString
  end.
Proof.
  assert (Hrect : Watermark.rectangular (A := R * R * R) (RealCv.solid 48 48 128))
    by (repeat constructor).
  pose proof (X14_pixels_beyond_message_unchanged (Tr := RealCv.real_transform)
                (RealCv.solid 48 48 128) "hi" Watermark.default_alpha 47 47 Hrect
                ltac:(vm_compute; lia) ltac:(vm_compute; lia) ltac:(vm_compute; lia)) as H.
  destruct (Watermark.embed_ycrcb (Tr := RealCv.real_transform)
              (RealCv.solid 48 48 128) "hi" Watermark.default_alpha)
    as [[[out st] b64] | e]; exact H.
Defined.

(** ** The request handler, end to end *)

Module HandlerFacts.
Import Service.

Section Handler.
Context {Tr : Watermark.Transform} {Cd : Watermark.Codec} {Env : Collaborators}.

(** the keys of [res] when the decision has been stored *)
Lemma analysis_dom filename raw img data :
  dom (analysis filename raw img data) = list_to_set analysis_keys.
Proof.
  unfold analysis.
  destruct (Ocr.ocr_with_boxes data) as [[texts boxes] susp].
  destruct (Rdr.rdr_inconsistency_score (resample_trials img)) as [score sus].
  cbv zeta. rewrite !dom_insert_L, dom_empty_L. unfold analysis_keys.
  cbn [list_to_set foldr]. set_solver.
Qed.

Lemma analysis_decision filename raw img data :
  analysis filename raw img data !! "decision"
  = Some (JStr (Policy.decision_str (decision_of img data))).
Proof. apply (ServiceFacts.analysis_complete filename raw img data). Qed.

Lemma decision_eqb_eq (a b : Policy.decision) :
  Policy.decision_eqb a b = true <-> a = b.
Proof. destruct a, b; simpl; split; congruence. Qed.

(** the handler's message is never empty *)
Lemma message_or_default_nonempty (watermark_msg : option string) :
  message_or_default watermark_msg <> EmptyString.
Proof. destruct watermark_msg as [[|c s]|]; discriminate. Qed.

(** a region with a keyword gives a suspicious box *)
Lemma suspicious_region (data : list Ocr.region) (r : Ocr.region) :
  In r data -> Ocr.suspicious (Py.strip (Ocr.r_text r)) = true ->
  In (Py.strip (Ocr.r_text r)) (map Ocr.box_text (snd (Ocr.ocr_with_boxes data))).
Proof.
  intros Hr Hs. rewrite OcrMore.ocr_unfold. cbn [snd].
  apply in_map_iff.
  exists (Ocr.r_left r, Ocr.r_top r, Ocr.r_width r, Ocr.r_height r,
          Py.strip (Ocr.r_text r)).
  split; [reflexivity |]. apply filter_In. split; [| exact Hs].
  apply list_elem_of_In, list_elem_of_omap. exists r.
  split; [by apply list_elem_of_In |].
  unfold OcrAux.box_of.
  destruct (Py.strip (Ocr.r_text r)) as [|c s] eqn:E; [discriminate Hs | reflexivity].
Qed.

End Handler.
End HandlerFacts.

(** X15. The shape of every response, the statistical analyzers and the
    hash being total.  A 400 response arises only when PIL cannot open the
    upload or the OCR engine raises; a failure of the watermarking step
    never gives one.  A 200 response holds the twelve
    analysis keys with the values of the analysis and nothing else, except
    that, when watermarking was requested and the decision is ALLOW, it holds
    in addition either [watermarked_base64] and [watermark_message] or
    [watermark_error], never both.  So a watermark key in the response
    implies that its [decision] is "ALLOW". *)
Theorem X15_response_shape
    {Tr : Watermark.Transform} {Cd : Watermark.Codec} {Env : Service.Collaborators}
    (filename : string) (raw : list N) (watermark_enabled : bool)
    (watermark_msg : option string) :
  let base : gset string := list_to_set Service.analysis_keys in
  match Service.analyze filename raw watermark_enabled watermark_msg with
  | Service.Json400 _ =>
      is_ok (Service.open_rgb raw) = false
      \/ exists img, Service.open_rgb raw = Ok img
                     /\ is_ok (Service.image_to_data img) = false
  | Service.Json200 res =>
      exists img data,
        Service.open_rgb raw = Ok img /\ Service.image_to_data img = Ok data
        /\ (forall k, k ∈ Service.analysis_keys ->
              res !! k = Service.analysis filename raw img data !! k)
        /\ (if watermark_enabled
               && Policy.decision_eqb (Service.decision_of img data) Policy.ALLOW
            then dom res = base ∪ {["watermarked_base64"; "watermark_message"]}
                 \/ dom res = base ∪ {["watermark_error"]}
            else res = Service.analysis filename raw img data /\ dom res = base)
        /\ (dom res <> base ->
            watermark_enabled = true
            /\ res !! "decision" = Some (Service.JStr "ALLOW"))
  end.
Proof.
  intros base. unfold Service.analyze.
  destruct (Service.open_rgb raw) as [img | e]; [| by left].
  destruct (Service.image_to_data img) as [data | e] eqn:Ed;
    [| right; exists img; split; [reflexivity | by rewrite Ed]].
  pose proof (HandlerFacts.analysis_dom filename raw img data) as Hdom.
  pose proof (HandlerFacts.analysis_decision filename raw img data) as Hdec.
  fold base in Hdom. cbv zeta.
  set (res := Service.analysis filename raw img data) in *.
  assert (Hkeys : forall (m : gmap string Service.json) k (v : Service.json),
            k ∉ Service.analysis_keys ->
            forall k', k' ∈ Service.analysis_keys -> <[k := v]> m !! k' = m !! k').
  { intros m k v Hk k' Hk'. apply lookup_insert_ne. intros Heq. subst k'. contradiction. }
  assert (Hnot : forall k, k ∈ ["watermarked_base64"; "watermark_message"; "watermark_error"]
                   -> k ∉ Service.analysis_keys).
  { intros k Hk. unfold Service.analysis_keys.
    assert (Hno : forall s, s ∈ ["watermarked_base64"; "watermark_message"; "watermark_error"]
                    -> s ∉ Service.analysis_keys).
    { clear. intros s Hs Hin. unfold Service.analysis_keys in Hin.
      repeat (apply elem_of_cons in Hs as [-> | Hs];
              [repeat (apply elem_of_cons in Hin as [Hin | Hin]; [discriminate Hin |]);
               by apply elem_of_nil in Hin |]).
      by apply elem_of_nil in Hs. }
    by apply Hno. }
  destruct (watermark_enabled
            && Policy.decision_eqb (Service.decision_of img data) Policy.ALLOW) eqn:Eg.
  - apply andb_true_iff in Eg as [-> Eg]. apply HandlerFacts.decision_eqb_eq in Eg.
    rewrite Eg in Hdec. exists img, data. split; [reflexivity |]. split; [exact Ed |].
    unfold Service.watermark_step. rewrite Eg. cbn [andb Policy.decision_eqb].
    destruct (Watermark.embed_watermark_dct_bytes raw
                (Service.message_or_default watermark_msg) Watermark.default_alpha)
      as [[wm_bytes msg_b64] | e].
    + split; [| split].
      * intros k Hk. rewrite !Hkeys; auto; apply Hnot; clear; set_solver.
      * left. rewrite !dom_insert_L, Hdom. clear. set_solver.
      * intros _. split; [reflexivity |].
        rewrite !Hkeys; [exact Hdec | ..];
          first [apply Hnot; clear; set_solver
                | unfold Service.analysis_keys; clear; set_solver].
    + split; [| split].
      * intros k Hk. rewrite !Hkeys; auto; apply Hnot; clear; set_solver.
      * right. rewrite !dom_insert_L, Hdom. clear. set_solver.
      * intros _. split; [reflexivity |].
        rewrite !Hkeys; [exact Hdec | ..];
          first [apply Hnot; clear; set_solver
                | unfold Service.analysis_keys; clear; set_solver].
  - exists img, data. split; [reflexivity |]. split; [exact Ed |]. rewrite Eg.
    split; [reflexivity |]. split; [by split |]. intros Hne. by destruct Hne.
Qed.

(** X16. Through the handler the embedder never sees an empty message: a
    missing or empty [watermark_msg] is replaced by "stegoshield-demo".  So
    when the watermarking step runs on an upload that OpenCV decodes to an
    image with at least one pixel, it succeeds: the response carries
    [watermarked_base64] and, as [watermark_message], the base64 text of the
    message, and no [watermark_error]. *)
Theorem X16_handler_watermark_succeeds
    {Tr : Watermark.Transform} {Cd : Watermark.Codec} {Env : Service.Collaborators}
    (filename : string) (raw : list N) (watermark_msg : option string)
    (img : Service.image) (data : list Ocr.region)
    (ycbcr : list (list Watermark.pixel)) :
  Service.open_rgb raw = Ok img ->
  Service.image_to_data img = Ok data ->
  Service.decision_of img data = Policy.ALLOW ->
  Watermark.imdecode_ycrcb raw = Some ycbcr ->
  (0 < fst (Watermark.shape ycbcr))%nat -> (0 < snd (Watermark.shape ycbcr))%nat ->
  let message := Service.message_or_default watermark_msg in
  (message = match watermark_msg with
             | None | Some EmptyString => "stegoshield-demo"
             | Some m => m
             end)
  /\ exists wm_bytes res,
      Service.analyze filename raw true watermark_msg = Service.Json200 res
      /\ res !! "watermarked_base64" = Some (Service.JStr (Base64.b64encode wm_bytes))
      /\ res !! "watermark_message"
         = Some (Service.JStr (Base64.b64encode (Py.encode_utf8 message)))
      /\ res !! "watermark_error" = None.
Proof.
  intros Hopen Hdata Hdec Himg Hh Hw message.
  split; [by destruct watermark_msg as [[|c s]|] |].
  pose proof (WatermarkFacts.embed_ycrcb_cases ycbcr message Watermark.default_alpha) as Hc.
  cbv zeta in Hc.
  pose proof (EncodingFacts.padded_blocks_pos ycbcr Hh Hw) as Hp.
  pose proof (EncodingFacts.message_bits_nil message) as Hnil.
  pose proof (HandlerFacts.message_or_default_nonempty watermark_msg) as Hne.
  fold message in Hne.
  unfold Service.analyze, Service.watermark_step, Watermark.embed_watermark_dct_bytes.
  rewrite Hopen, Hdata, Hdec, Himg. fold message. rewrite Hc. clear Hc.
  destruct (WatermarkSpec.padded_blocks ycbcr) as [|n]; [lia |].
  destruct (WatermarkSpec.message_bits message) as [|b bits];
    [by destruct Hnil as [Hnil _]; destruct Hne; apply Hnil |].
  cbn [take andb Policy.decision_eqb].
  eexists _, _. split; [reflexivity |].
  split; [| split].
  - rewrite lookup_insert_ne by discriminate. apply lookup_insert_eq.
  - apply lookup_insert_eq.
  - rewrite !lookup_insert_ne by discriminate.
    apply not_elem_of_dom. rewrite HandlerFacts.analysis_dom, elem_of_list_to_set.
    unfold Service.analysis_keys. intros Hin.
    repeat (apply elem_of_cons in Hin as [Hin | Hin]; [discriminate Hin |]).
    by apply elem_of_nil in Hin.
Qed.

Lemma X16_handler_watermark_succeeds_witness :
  exists wm_bytes res,
    Service.analyze (Tr := RealCv.real_transform)
      (Cd := RealCv.fixed_codec (RealCv.solid 8 8 128)) (Env := Example.quiet)
      "upload.png" [137; 80; 78; 71]%N true (Some EmptyString) = Service.Json200 res
    /\ res !! "watermarked_base64" = Some (Service.JStr (Base64.b64encode wm_bytes))
    /\ res !! "watermark_message" = Some (Service.JStr "c3RlZ29zaGllbGQtZGVtbw==")
    /\ res !! "watermark_error" = None.
Proof.
  apply (X16_handler_watermark_succeeds
           (Tr := RealCv.real_transform)
           (Cd := RealCv.fixed_codec (RealCv.solid 8 8 128)) (Env := Example.quiet)
           "upload.png" [137; 80; 78; 71]%N (Some EmptyString) tt []
           (RealCv.solid 8 8 128) eq_refl eq_refl eq_refl eq_refl);
    simpl; lia.
Defined.

(** X17. A recognised word that contains a keyword is enough to withhold
    the watermark: when some OCR region's stripped text contains a
    suspicious keyword, the response is the plain analysis, its decision is
    "SUSPICIOUS" or "BLOCK", the word is listed under [ocr_suspicious], and
    no watermark key is added even when watermarking is enabled. *)
Theorem X17_keyword_withholds_watermark
    {Tr : Watermark.Transform} {Cd : Watermark.Codec} {Env : Service.Collaborators}
    (filename : string) (raw : list N) (watermark_enabled : bool)
    (watermark_msg : option string)
    (img : Service.image) (data : list Ocr.region) (r : Ocr.region) :
  Service.open_rgb raw = Ok img ->
  Service.image_to_data img = Ok data ->
  In r data ->
  Ocr.suspicious (Py.strip (Ocr.r_text r)) = true ->
  let res := Service.analysis filename raw img data in
  Service.analyze filename raw watermark_enabled watermark_msg = Service.Json200 res
  /\ (res !! "decision" = Some (Service.JStr "SUSPICIOUS")
      \/ res !! "decision" = Some (Service.JStr "BLOCK"))
  /\ (exists l, res !! "ocr_suspicious" = Some (Service.JList l)
                /\ In (Py.strip (Ocr.r_text r)) l)
  /\ dom res = list_to_set Service.analysis_keys.
Proof.
  intros Hopen Hdata Hr Hs res.
  pose proof (HandlerFacts.suspicious_region data r Hr Hs) as Hin.
  assert (Hd : Service.decision_of img data <> Policy.ALLOW).
  { unfold Service.decision_of.
    destruct (Ocr.ocr_with_boxes data) as [[texts boxes] susp]. cbn [snd] in Hin.
    intros Ha. apply PolicyMore.allow_iff in Ha as (_ & _ & ->). destruct Hin. }
  split; [| split; [| split]].
  - unfold Service.analyze. rewrite Hopen, Hdata.
    destruct (Service.decision_of img data); [congruence | |];
      by rewrite andb_false_r.
  - subst res. rewrite HandlerFacts.analysis_decision.
    destruct (Service.decision_of img data); [congruence | by left | by right].
  - eexists. split; [apply (ServiceFacts.analysis_complete filename raw img data) | exact Hin].
  - apply HandlerFacts.analysis_dom.
Qed.

Lemma X17_keyword_withholds_watermark_witness :
  let env : Service.Collaborators := {|
    Service.image := unit;
    Service.open_rgb := fun _ => Ok tt;
    Service.file_sha256_bytes := fun _ => "e3b0c442";
    Service.TAGS := fun _ => None;
    Service.getexif := fun _ => None;
    Service.info := fun _ => [];
    Service.lsb_entropy_score := fun _ => 0%Q;
    Service.global_entropy := fun _ => 0%Q;
    Service.jpeg_blockiness_score := fun _ => 0%Q;
    Service.image_to_data := fun _ =>
      Ok [{| Ocr.r_text := " Password: "; Ocr.r_left := 3; Ocr.r_top := 4;
             Ocr.r_width := 80; Ocr.r_height := 12 |}];
    Service.resample_trials := fun _ => []
  |} in
  exists res,
    Service.analyze (Tr := RealCv.real_transform)
      (Cd := RealCv.fixed_codec (RealCv.solid 8 8 128)) (Env := env)
      "upload.png" [137; 80; 78; 71]%N true None = Service.Json200 res
    /\ res !! "decision" = Some (Service.JStr "SUSPICIOUS")
    /\ res !! "ocr_suspicious" = Some (Service.JList ["Password:"])
    /\ res !! "watermark_message" = None.
Proof.
  intros env.
  destruct (X17_keyword_withholds_watermark
              (Tr := RealCv.real_transform)
              (Cd := RealCv.fixed_codec (RealCv.solid 8 8 128)) (Env := env)
              "upload.png" [137; 80; 78; 71]%N true None tt
              [{| Ocr.r_text := " Password: "; Ocr.r_left := 3; Ocr.r_top := 4;
                  Ocr.r_width := 80; Ocr.r_height := 12 |}]
              {| Ocr.r_text := " Password: "; Ocr.r_left := 3; Ocr.r_top := 4;
                 Ocr.r_width := 80; Ocr.r_height := 12 |}
              eq_refl eq_refl (or_introl eq_refl) eq_refl) as (Ha & _ & _ & _).
  eexists. split; [exact Ha |]. vm_compute. auto.
Defined.

(** ** LSB entropy *)

Module LsbFacts.
Import Lsb.
Local Open Scope R_scope.

Lemma land_1_odd (b : Byte.byte) :
  Nat.land (Byte.to_nat b) 1 = if Nat.odd (Byte.to_nat b) then 1%nat else 0%nat.
Proof. destruct b; reflexivity. Qed.

(** the sum of the LSBs counts the odd samples *)
Lemma sum_lsb (a : list Byte.byte) :
  Stats.Rsum (map INR (map (fun b => Nat.land (Byte.to_nat b) 1) a))
  = INR (length (List.filter (fun b => Nat.odd (Byte.to_nat b)) a)).
Proof.
  induction a as [|b a IH]; [reflexivity |].
  cbn [map Stats.Rsum fold_right List.filter]. fold (Stats.Rsum (map INR (map (fun b => Nat.land (Byte.to_nat b) 1) a))).
  rewrite IH, land_1_odd.
  destruct (Nat.odd (Byte.to_nat b)); cbn [length]; rewrite ?S_INR;
    change (INR 1) with 1; change (INR 0) with 0; Lra.lra.
Qed.

Lemma filter_length_le {A} (f : A -> bool) (l : list A) :
  (length (List.filter f l) <= length l)%nat.
Proof. induction l as [|x l IH]; simpl; [lia |]. destruct (f x); simpl; lia. Qed.

Lemma filter_none {A} (f : A -> bool) (l : list A) :
  length (List.filter f l) = 0%nat <-> Forall (fun x => f x = false) l.
Proof.
  induction l as [|x l IH]; simpl.
  - split; [constructor | reflexivity].
  - destruct (f x) eqn:E; simpl.
    + split; [discriminate |]. intros H. inversion H; congruence.
    + rewrite IH. split; [by constructor | intros H; by inversion H].
Qed.

Lemma filter_all {A} (f : A -> bool) (l : list A) :
  length (List.filter f l) = length l <-> Forall (fun x => f x = true) l.
Proof.
  induction l as [|x l IH]; simpl.
  - split; [constructor | reflexivity].
  - pose proof (filter_length_le f l). destruct (f x) eqn:E; simpl.
    + split; intros H'.
      * constructor; [exact E | apply IH; lia].
      * inversion H'; subst. f_equal. by apply IH.
    + split; [lia |]. intros H'. inversion H'; congruence.
Qed.

(** the mean of the LSB plane is the fraction of odd samples *)
Lemma mean_lsb (g : list (list Byte.byte)) :
  mean (lsb_plane g)
  = INR (length (List.filter (fun b => Nat.odd (Byte.to_nat b)) (Stats.flatten g)))
    / INR (length (Stats.flatten g)).
Proof. unfold mean, lsb_plane. by rewrite sum_lsb, length_map. Qed.

(** binary entropy, in nats, strictly between 0 and [ln 2] inside (0, 1) *)
Lemma binary_entropy_bounds (p : R) :
  0 < p < 1 ->
  0 < - (p * ln p + (1 - p) * ln (1 - p)) <= ln 2.
Proof.
  intros [H0 H1]. split.
  - assert (Hp : ln p < 0) by (rewrite <- ln_1; apply ln_increasing; Lra.lra).
    assert (Hq : ln (1 - p) < 0) by (rewrite <- ln_1; apply ln_increasing; Lra.lra).
    assert (p * ln p < 0) by Lra.nra. assert ((1 - p) * ln (1 - p) < 0) by Lra.nra. Lra.lra.
  - pose proof (StatsFacts.xlnx_lower (2 * p) ltac:(Lra.lra)) as Ha.
    pose proof (StatsFacts.xlnx_lower (2 * (1 - p)) ltac:(Lra.lra)) as Hb.
    rewrite ln_mult in Ha, Hb by Lra.lra. Lra.lra.
Qed.

Lemma log2_half : Stats.log2 (/ 2) = -1.
Proof.
  unfold Stats.log2. rewrite ln_Rinv by Lra.lra.
  pose proof StatsFacts.ln2_half. field. Lra.lra.
Qed.

End LsbFacts.

(** X18. The LSB entropy of a plane with at least one sample lies in
    [0, 1]; it is 0 exactly when all samples have the same least significant
    bit (all even or all odd), and 1 when exactly half of them are odd.
    (Over the reals.) *)
Theorem X18_lsb_entropy_range (g : list (list Byte.byte)) :
  Stats.flatten g <> [] ->
  let odd := fun b => Nat.odd (Byte.to_nat b) in
  (0 <= Lsb.lsb_entropy_score g <= 1)%R
  /\ (Lsb.lsb_entropy_score g = 0%R <->
      Forall (fun b => odd b = false) (Stats.flatten g)
      \/ Forall (fun b => odd b = true) (Stats.flatten g))
  /\ ((2 * length (List.filter odd (Stats.flatten g)) = length (Stats.flatten g))%nat ->
      Lsb.lsb_entropy_score g = 1%R).
Proof.
  intros Hne odd.
  pose proof (LsbFacts.mean_lsb g) as Hm. fold odd in Hm.
  pose proof (LsbFacts.filter_length_le odd (Stats.flatten g)) as Hle.
  pose proof (LsbFacts.filter_none odd (Stats.flatten g)) as Hnone.
  pose proof (LsbFacts.filter_all odd (Stats.flatten g)) as Hall.
  set (k := length (List.filter odd (Stats.flatten g))) in *.
  set (n := length (Stats.flatten g)) in *.
  assert (Hn : (0 < n)%nat) by (subst n; destruct (Stats.flatten g); [congruence | simpl; lia]).
  assert (HnR : (0 < INR n)%R) by (apply lt_0_INR; exact Hn).
  assert (HkR : (0 <= INR k <= INR n)%R) by (split; [apply pos_INR | apply le_INR; exact Hle]).
  assert (Hp0 : Lsb.mean (Lsb.lsb_plane g) = 0%R <-> k = 0%nat).
  { rewrite Hm. split.
    - intros H. apply INR_eq. simpl INR.
      apply (Rmult_eq_compat_r (INR n)) in H. unfold Rdiv in H.
      rewrite Rmult_assoc, Rinv_l, Rmult_1_r, Rmult_0_l in H by Lra.lra. exact H.
    - intros ->. simpl INR. unfold Rdiv. apply Rmult_0_l. }
  assert (Hp1 : Lsb.mean (Lsb.lsb_plane g) = 1%R <-> k = n).
  { rewrite Hm. split.
    - intros H. apply INR_eq.
      apply (Rmult_eq_compat_r (INR n)) in H. unfold Rdiv in H.
      rewrite Rmult_assoc, Rinv_l, Rmult_1_r, Rmult_1_l in H by Lra.lra. exact H.
    - intros ->. unfold Rdiv. apply Rinv_r. Lra.lra. }
  assert (Hrange : (0 <= Lsb.mean (Lsb.lsb_plane g) <= 1)%R).
  { rewrite Hm. split.
    - apply StatsFacts.div_le_r; [exact HnR | Lra.lra].
    - apply StatsFacts.div_le_l; [exact HnR | Lra.lra]. }
  unfold Lsb.lsb_entropy_score, Lsb.is_0_or_1. cbv zeta.
  set (p := Lsb.mean (Lsb.lsb_plane g)) in *.
  pose proof StatsFacts.ln2_half as Hln2.
  destruct (Req_dec_T p 0) as [E0 | N0]; [| destruct (Req_dec_T p 1) as [E1 | N1]].
  - split; [Lra.lra |]. split.
    + split; [intros _; left; apply Hnone, Hp0, E0 | reflexivity].
    + intros Hhalf. apply Hp0 in E0. lia.
  - split; [Lra.lra |]. split.
    + split; [intros _; right; apply Hall, Hp1, E1 | reflexivity].
    + intros Hhalf. apply Hp1 in E1. lia.
  - assert (Hin : (0 < p < 1)%R) by Lra.lra.
    pose proof (LsbFacts.binary_entropy_bounds p Hin) as [Hpos Hup].
    assert (Hscore : (- (p * Stats.log2 p + (1 - p) * Stats.log2 (1 - p))
                      = - (p * ln p + (1 - p) * ln (1 - p)) / ln 2)%R).
    { unfold Stats.log2. field. Lra.lra. }
    rewrite Hscore. split; [| split].
    + split.
      * apply StatsFacts.div_le_r; Lra.lra.
      * apply StatsFacts.div_le_l; Lra.lra.
    + split.
      * intros H. exfalso.
        apply (Rmult_eq_compat_r (ln 2)) in H. unfold Rdiv in H.
        rewrite Rmult_assoc, Rinv_l, Rmult_1_r, Rmult_0_l in H by Lra.lra. Lra.lra.
      * intros [H | H]; exfalso.
        -- apply N0, Hp0, Hnone, H.
        -- apply N1, Hp1, Hall, H.
    + intros Hhalf.
      assert (Hp : p = (/ 2)%R).
      { subst p. rewrite Hm. rewrite <- Hhalf. rewrite mult_INR. simpl INR.
        field. intros Hk. rewrite <- Hhalf, mult_INR in HnR. simpl INR in HnR. Lra.lra. }
      rewrite <- Hscore, Hp.
      replace (1 - / 2)%R with (/ 2)%R by Lra.lra.
      rewrite LsbFacts.log2_half. Lra.lra.
Qed.

Lemma X18_lsb_entropy_range_witness :
  Lsb.lsb_entropy_score [[Byte.x00; Byte.x01]; [Byte.xfe; Byte.xff]] = 1%R.
Proof.
  apply (X18_lsb_entropy_range [[Byte.x00; Byte.x01]; [Byte.xfe; Byte.xff]]);
    [discriminate | reflexivity].
Defined.

(** ** Blockiness *)

Module BlockinessFacts.
Import Blockiness.
Local Open Scope Q_scope.

Lemma Qsum_nonneg (l : list Q) : Forall (fun q => 0 <= q) l -> 0 <= Qsum l.
Proof.
  induction 1 as [|q l Hq _ IH]; simpl; [apply Qle_refl |].
  replace 0 with (0 + 0) by reflexivity. by apply Qplus_le_compat.
Qed.

Lemma Qsum_zero (l : list Q) : Forall (fun q => q == 0) l -> Qsum l == 0.
Proof.
  induction 1 as [|q l Hq _ IH]; simpl; [reflexivity |]. rewrite Hq, IH. reflexivity.
Qed.

Lemma count_nonneg (n : nat) : 0 <= inject_Z (Z.of_nat n).
Proof. unfold Qle. simpl. lia. Qed.

Lemma div_nonneg (a b : Q) : 0 <= a -> 0 <= b -> 0 <= a / b.
Proof.
  intros Ha Hb. unfold Qdiv. apply Qmult_le_0_compat; [exact Ha |].
  apply Qinv_le_0_compat. exact Hb.
Qed.

Lemma mean_nonneg (l : list Q) : Forall (fun q => 0 <= q) l -> 0 <= mean l.
Proof. intros H. apply div_nonneg; [by apply Qsum_nonneg | apply count_nonneg]. Qed.

Lemma mean_zero (l : list Q) : Forall (fun q => q == 0) l -> mean l == 0.
Proof. intros H. unfold mean. rewrite (Qsum_zero l H). unfold Qdiv. ring. Qed.

Lemma column_diff_nonneg arr x : 0 <= column_diff arr x.
Proof.
  apply mean_nonneg, Forall_map, Forall_forall. intros row _. apply Qabs_nonneg.
Qed.

Lemma Forall_zip_with {A B C} (P : C -> Prop) (f : A -> B -> C) (l : list A) (k : list B) :
  (forall a b, P (f a b)) -> Forall P (zip_with f l k).
Proof.
  intros Hf. revert k. induction l as [|a l IH]; intros [|b k]; simpl; constructor; auto.
Qed.

Lemma row_diff_nonneg arr y : 0 <= row_diff arr y.
Proof.
  apply mean_nonneg, Forall_zip_with. intros a b. apply Qabs_nonneg.
Qed.

Lemma boundary_diffs_nonneg arr : Forall (fun q => 0 <= q) (boundary_diffs arr).
Proof.
  unfold boundary_diffs. destruct (Watermark.shape arr) as [h w].
  apply Forall_app. split; apply Forall_map, Forall_forall; intros k _;
    [apply column_diff_nonneg | apply row_diff_nonneg].
Qed.

Lemma norm_pos arr : 0 < norm arr.
Proof.
  unfold norm. cbv zeta.
  assert (0 <= mean (map (fun v => Qabs (v - mean (concat arr))) (concat arr))).
  { apply mean_nonneg, Forall_map, Forall_forall. intros v _. apply Qabs_nonneg. }
  lra.
Qed.

(** from 16 samples on an axis has at least one block boundary *)
Lemma boundaries_nonempty (n : nat) : (16 <= n)%nat -> boundaries n <> [].
Proof.
  intros Hn. unfold boundaries.
  assert (1 <= (n - 1) / 8)%nat by (apply Nat.div_le_lower_bound; lia).
  destruct ((n - 1) / 8)%nat; [lia | discriminate].
Qed.

Lemma boundaries_spec (n x : nat) :
  In x (boundaries n) <-> (8 <= x < n)%nat /\ (x mod 8 = 0)%nat.
Proof.
  unfold boundaries. rewrite in_map_iff. split.
  - intros (k & <- & Hk). apply in_seq in Hk. WatermarkFacts.div_lia.
  - intros [Hx Hm]. exists (x / 8 - 1)%nat. split; [WatermarkFacts.div_lia |].
    apply in_seq. WatermarkFacts.div_lia.
Qed.

Lemma shape_to_float g : Watermark.shape (to_float g) = Watermark.shape g.
Proof.
  destruct g as [|r g]; [reflexivity |]. unfold Watermark.shape, to_float.
  cbn [map length fst snd]. rewrite !length_map. reflexivity.
Qed.

Lemma Qsum_zero_iff (l : list Q) :
  Forall (fun q => 0 <= q) l -> (Qsum l == 0 <-> Forall (fun q => q == 0) l).
Proof.
  intros Hl. split; [| apply Qsum_zero].
  induction Hl as [|q l Hq Hl IH]; intros Hs; constructor.
  - simpl in Hs. pose proof (Qsum_nonneg l Hl). lra.
  - apply IH. simpl in Hs. pose proof (Qsum_nonneg l Hl). lra.
Qed.

Lemma div_zero_iff (a b : Q) : 0 < b -> (a / b == 0 <-> a == 0).
Proof.
  intros Hb. split; intros H.
  - rewrite <- (Qmult_div_r a b) by lra. rewrite H. ring.
  - unfold Qdiv. rewrite H. ring.
Qed.

Lemma mean_zero_iff (l : list Q) :
  Forall (fun q => 0 <= q) l -> (mean l == 0 <-> Forall (fun q => q == 0) l).
Proof.
  intros Hl. destruct l as [|q l].
  - split; [constructor | reflexivity].
  - unfold mean. rewrite div_zero_iff; [by apply Qsum_zero_iff |].
    unfold Qlt. cbn [length]. simpl. lia.
Qed.

Lemma Qabs_zero_iff (a b : Q) : Qabs (a - b) == 0 <-> a == b.
Proof.
  split; intros H.
  - pose proof (Qabs_Qle_condition (a - b) 0) as [Hc _].
    destruct Hc as [H1 H2]; [rewrite H; apply Qle_refl |]. lra.
  - assert (H0 : a - b == 0) by lra. rewrite H0. reflexivity.
Qed.

Lemma of_byte_inj (a b : Byte.byte) : of_byte a == of_byte b <-> a = b.
Proof.
  split; [| intros ->; reflexivity]. unfold of_byte. intros H.
  apply inject_Z_injective, Nat2Z.inj in H.
  assert (Hs : Some a = Some b) by (rewrite <- !Byte.of_to_nat, H; reflexivity).
  by injection Hs.
Qed.

Lemma nth_floats (row : list Byte.byte) (x : nat) :
  nth x (map of_byte row) 0 = of_byte (nth x row Byte.x00).
Proof. change 0 with (of_byte Byte.x00). apply map_nth. Qed.

Lemma nth_to_float (g : list (list Byte.byte)) (y : nat) :
  nth y (to_float g) [] = map of_byte (nth y g []).
Proof.
  unfold to_float. change (@nil Q) with (map of_byte []). apply (map_nth (map of_byte)).
Qed.

(** no jump across the column boundary [x] *)
Lemma column_diff_zero (g : list (list Byte.byte)) (x : nat) :
  column_diff (to_float g) x == 0
  <-> forall y, (y < length g)%nat ->
        nth x (nth y g []) Byte.x00 = nth (x - 1) (nth y g []) Byte.x00.
Proof.
  unfold column_diff. rewrite mean_zero_iff
    by (apply Forall_map, Forall_forall; intros row _; apply Qabs_nonneg).
  unfold to_float. rewrite !Forall_map, (Forall_nth _ [] g).
  split; intros H y Hy; specialize (H y Hy); cbn beta in *.
  - by rewrite !nth_floats, Qabs_zero_iff, of_byte_inj in H.
  - by rewrite !nth_floats, Qabs_zero_iff, of_byte_inj.
Qed.

Lemma zip_diff_zero (r1 r2 : list Byte.byte) :
  Forall (fun q => q == 0)
    (zip_with (fun a b => Qabs (a - b)) (map of_byte r1) (map of_byte r2))
  <-> forall x, (x < length r1)%nat -> (x < length r2)%nat ->
        nth x r1 Byte.x00 = nth x r2 Byte.x00.
Proof.
  revert r2. induction r1 as [|a r1 IH]; intros [|b r2]; cbn [map zip_with length].
  - split; [intros _ x Hx; lia | constructor].
  - split; [intros _ x Hx; lia | constructor].
  - split; [intros _ x _ Hx; lia | constructor].
  - rewrite Forall_cons, IH, Qabs_zero_iff, of_byte_inj. split.
    + intros [-> H] [|x] H1 H2; [reflexivity |]. cbn [nth]. apply H; lia.
    + intros H. split; [apply (H 0%nat); lia |].
      intros x H1 H2. apply (H (S x)); lia.
Qed.

(** no jump across the row boundary [y] *)
Lemma row_diff_zero (g : list (list Byte.byte)) (y : nat) :
  row_diff (to_float g) y == 0
  <-> forall x, (x < length (nth y g []))%nat -> (x < length (nth (y - 1) g []))%nat ->
        nth x (nth y g []) Byte.x00 = nth x (nth (y - 1) g []) Byte.x00.
Proof.
  unfold row_diff. rewrite mean_zero_iff
    by (apply Forall_zip_with; intros a b; apply Qabs_nonneg).
  rewrite !nth_to_float. apply zip_diff_zero.
Qed.

Lemma rectangular_row {A} (g : list (list A)) (y : nat) :
  Watermark.rectangular g -> (y < length g)%nat ->
  length (nth y g []) = snd (Watermark.shape g).
Proof.
  unfold Watermark.rectangular. intros Hr Hy.
  by apply (proj1 (Forall_nth _ [] g) Hr).
Qed.

End BlockinessFacts.

(** X19. The blockiness score is never negative, and it is 0 for an image
    with fewer than 16 rows or columns.  From 16 rows and columns on, the
    list of boundary differences is never empty (the [if not diffs] exit is
    never taken), and the score is 0 exactly when no sample differs from its
    neighbour across a block boundary: from the sample to its left at the
    columns 8, 16, ..., and from the sample above at the rows 8, 16, ... *)
Theorem X19_blockiness_zero_iff_no_jump (g : list (list Byte.byte)) :
  Watermark.rectangular g ->
  let h := fst (Watermark.shape g) in
  let w := snd (Watermark.shape g) in
  let px := fun y x => nth x (nth y g []) Byte.x00 in
  let score := Blockiness.jpeg_blockiness_score g in
  (0 <= score)%Q
  /\ ((h < 16)%nat \/ (w < 16)%nat -> score = 0%Q)
  /\ ((16 <= h)%nat -> (16 <= w)%nat ->
      Blockiness.boundary_diffs (Blockiness.to_float g) <> []
      /\ ((score == 0)%Q <->
          forall y x, (y < h)%nat -> (x < w)%nat ->
            ((8 <= x)%nat -> (x mod 8 = 0)%nat -> px y x = px y (x - 1)%nat)
            /\ ((8 <= y)%nat -> (y mod 8 = 0)%nat -> px y x = px (y - 1)%nat x))).
Proof.
  intros Hrect h w px score.
  pose proof (BlockinessFacts.boundary_diffs_nonneg (Blockiness.to_float g)) as Hnn.
  pose proof (BlockinessFacts.norm_pos (Blockiness.to_float g)) as Hnorm.
  assert (Hscore : score = if ((h <? 16) || (w <? 16))%nat then 0%Q
                           else match Blockiness.boundary_diffs (Blockiness.to_float g) with
                                | [] => 0%Q
                                | _ => (Blockiness.mean
                                          (Blockiness.boundary_diffs (Blockiness.to_float g))
                                        / Blockiness.norm (Blockiness.to_float g))%Q
                                end).
  { subst score. unfold Blockiness.jpeg_blockiness_score. cbv zeta.
    rewrite BlockinessFacts.shape_to_float. subst h w.
    destruct (Watermark.shape g) as [h' w'] eqn:E. reflexivity. }
  assert (Hdiffs : Blockiness.boundary_diffs (Blockiness.to_float g)
                   = map (Blockiness.column_diff (Blockiness.to_float g))
                       (Blockiness.boundaries w)
                     ++ map (Blockiness.row_diff (Blockiness.to_float g))
                          (Blockiness.boundaries h)).
  { unfold Blockiness.boundary_diffs. rewrite BlockinessFacts.shape_to_float.
    subst h w. destruct (Watermark.shape g) as [h' w']. reflexivity. }
  split; [| split].
  - rewrite Hscore. destruct ((h <? 16) || (w <? 16))%nat; [apply Qle_refl |].
    destruct (Blockiness.boundary_diffs (Blockiness.to_float g)) as [|d ds] eqn:Ed;
      [apply Qle_refl |].
    apply BlockinessFacts.div_nonneg; [| lra].
    by apply BlockinessFacts.mean_nonneg.
  - intros Hsmall. rewrite Hscore.
    destruct (Nat.ltb_spec h 16); destruct (Nat.ltb_spec w 16);
      cbn [orb]; try reflexivity. lia.
  - intros Hh Hw.
    assert (Hne : Blockiness.boundary_diffs (Blockiness.to_float g) <> []).
    { rewrite Hdiffs. intros Happ. apply app_eq_nil in Happ as [Hc _].
      apply map_eq_nil in Hc. by apply (BlockinessFacts.boundaries_nonempty w). }
    split; [exact Hne |].
    rewrite Hscore.
    destruct (Nat.ltb_spec h 16); [lia |]. destruct (Nat.ltb_spec w 16); [lia |].
    cbn [orb].
    destruct (Blockiness.boundary_diffs (Blockiness.to_float g)) as [|d ds] eqn:Ed;
      [congruence |].
    rewrite BlockinessFacts.div_zero_iff by exact Hnorm.
    rewrite BlockinessFacts.mean_zero_iff by exact Hnn.
    rewrite Hdiffs, Forall_app, !Forall_map.
    assert (Hlen : forall y, (y < h)%nat -> length (nth y g []) = w).
    { intros y Hy. by apply BlockinessFacts.rectangular_row. }
    split.
    + intros [Hcols Hrows] y x Hy Hx. split; intros H8 Hm.
      * rewrite Forall_forall in Hcols.
        apply (proj1 (BlockinessFacts.column_diff_zero g x)); [| exact Hy].
        apply Hcols. apply list_elem_of_In, BlockinessFacts.boundaries_spec. lia.
      * rewrite Forall_forall in Hrows.
        apply (proj1 (BlockinessFacts.row_diff_zero g y)).
        -- apply Hrows. apply list_elem_of_In, BlockinessFacts.boundaries_spec. lia.
        -- rewrite Hlen; [exact Hx | exact Hy].
        -- rewrite Hlen; [exact Hx | lia].
    + intros Hpx. split; apply Forall_forall; intros k Hk;
        apply list_elem_of_In, BlockinessFacts.boundaries_spec in Hk as [Hk Hm].
      * apply BlockinessFacts.column_diff_zero. intros y Hy.
        apply (Hpx y k Hy); [lia | lia | exact Hm].
      * apply BlockinessFacts.row_diff_zero. intros x Hx _.
        rewrite Hlen in Hx by lia.
        apply (Hpx k x); [lia | exact Hx | lia | exact Hm].
Qed.

Lemma X19_blockiness_zero_iff_no_jump_witness :
  let g := Watermark.constant_plane 16 16 Byte.x80 in
  (0 <= Blockiness.jpeg_blockiness_score g)%Q
  /\ Blockiness.boundary_diffs (Blockiness.to_float g) <> [].
Proof.
  intros g.
  assert (Hrect : Watermark.rectangular g) by (repeat constructor).
  destruct (X19_blockiness_zero_iff_no_jump g Hrect) as (Hnn & _ & H).
  split; [exact Hnn |]. apply H; vm_compute; lia.
Defined.
